(** * CursorFocus: the pattern-matching analyzers and the project aggregator

    A shallow embedding of [generator/patterns.py], [rules_generator.py]
    and [analyzers.py], and of what [generator/prompts/ai_rules_prompt.py]
    keeps of an earlier copy of the generator.

    Text is a [string] of 8-bit characters.  Character classes are those of
    Python on the ASCII range; a character above 127 is treated as a
    caseless symbol that is neither a word character nor white space,
    where Python knows upper-case and lower-case letters beyond that range:
    a property that rests on the case of a character is stated for text of
    the ASCII range.
    Python values that are either a string or [None] are [option string];
    a dictionary whose order of insertion matters is an association list,
    one that is only looked up by key is a [gmap]. *)

From stdpp Require Import gmap strings list.
From Stdlib Require Import Ascii.
From Stdlib Require String.

Set Warnings "-register-all".

(** ** Characters and strings, as Python's [str] methods see them *)

Module Chr.

Definition code (c : ascii) : nat := nat_of_ascii c.

Definition between (lo hi c : ascii) : bool :=
  (code lo <=? code c)%nat && (code c <=? code hi)%nat.

Definition is_lower (c : ascii) : bool := between "a"%char "z"%char c.
Definition is_upper (c : ascii) : bool := between "A"%char "Z"%char c.
Definition is_digit (c : ascii) : bool := between "0"%char "9"%char c.

(** [\w] *)
Definition is_word (c : ascii) : bool :=
  is_lower c || is_upper c || is_digit c || Ascii.eqb c "_"%char.

(** [\s], and what [str.strip] removes: TAB, LF, VT, FF, CR, the four
    separators 28..31 and the blank. *)
Definition is_space (c : ascii) : bool :=
  ((9 <=? code c) && (code c <=? 13)) ||
  ((28 <=? code c) && (code c <=? 32)).

Definition lower (c : ascii) : ascii :=
  if is_upper c then ascii_of_nat (code c + 32) else c.

Definition upper (c : ascii) : ascii :=
  if is_lower c then ascii_of_nat (code c - 32) else c.

Definition newline : ascii := ascii_of_nat 10.
Definition dquote : ascii := ascii_of_nat 34.

End Chr.

Module Str.

Definition chars : string → list ascii := String.list_ascii_of_string.
Definition of_chars : list ascii → string := String.string_of_list_ascii.

Fixpoint starts_with (p s : list ascii) : bool :=
  match p, s with
  | [], _ => true
  | _ :: _, [] => false
  | a :: p', b :: s' => Ascii.eqb a b && starts_with p' s'
  end.

(** [s.startswith(p)] *)
Definition startswith (s p : string) : bool :=
  starts_with (chars p) (chars s).

(** [s.endswith(p)] *)
Definition endswith (s p : string) : bool :=
  starts_with (rev (chars p)) (rev (chars s)).

Fixpoint contains_chars (p s : list ascii) : bool :=
  starts_with p s ||
  match s with
  | [] => false
  | _ :: s' => contains_chars p s'
  end.

(** [p in s] *)
Definition contains (p s : string) : bool :=
  contains_chars (chars p) (chars s).

(** [s.lower()] *)
Definition lower (s : string) : string :=
  of_chars (map Chr.lower (chars s)).

(** [s.islower()]: some cased character, and no upper-case one. *)
Definition islower (s : string) : bool :=
  existsb Chr.is_lower (chars s) && negb (existsb Chr.is_upper (chars s)).

(** [s.isupper()]: some cased character, and no lower-case one. *)
Definition isupper (s : string) : bool :=
  existsb Chr.is_upper (chars s) && negb (existsb Chr.is_lower (chars s)).

Fixpoint lstrip_chars (s : list ascii) : list ascii :=
  match s with
  | c :: s' => if Chr.is_space c then lstrip_chars s' else s
  | [] => []
  end.

(** [s.strip()] *)
Definition strip (s : string) : string :=
  of_chars (rev (lstrip_chars (rev (lstrip_chars (chars s))))).

(** [s[i:j]] for [i <= j] *)
Definition slice (s : list ascii) (i j : nat) : string :=
  of_chars (take (j - i) (drop i s)).

(** [len(s.split('\n'))]: one more than the number of line feeds. *)
Definition count_lines (s : string) : nat :=
  S (length (filter (Ascii.eqb Chr.newline) (chars s))).

Definition eqb_in (s : string) (l : list string) : bool :=
  existsb (String.eqb s) l.

End Str.

(** ** [os.path] on POSIX paths *)

Module Path.

Definition sep : ascii := "/"%char.
Definition extsep : ascii := "."%char.

(** The characters after the last [sep], in reverse. *)
Fixpoint rev_tail (r : list ascii) : list ascii :=
  match r with
  | [] => []
  | c :: r' => if Ascii.eqb c sep then [] else c :: rev_tail r'
  end.

(** [os.path.basename(p)] *)
Definition basename (p : string) : string :=
  Str.of_chars (rev (rev_tail (rev (Str.chars p)))).

(** [os.path.dirname(p)]: what precedes the last [sep], without the
    trailing separators unless it is made of separators only. *)
Fixpoint rev_head (r : list ascii) : list ascii :=
  match r with
  | [] => []
  | c :: r' => if Ascii.eqb c sep then r else rev_head r'
  end.

Fixpoint drop_seps (r : list ascii) : list ascii :=
  match r with
  | c :: r' => if Ascii.eqb c sep then drop_seps r' else r
  | [] => []
  end.

Definition dirname (p : string) : string :=
  let head := rev_head (rev (Str.chars p)) in
  match drop_seps head with
  | [] => Str.of_chars (rev head)
  | h => Str.of_chars (rev h)
  end.

(** The extension of a reversed base name: [ext] collects the characters
    read so far after the candidate dot. *)
Fixpoint rev_ext (r : list ascii) (ext : list ascii) : list ascii :=
  match r with
  | [] => []
  | c :: r' =>
      if Ascii.eqb c extsep
      then (if forallb (Ascii.eqb extsep) r' then [] else c :: ext)
      else rev_ext r' (c :: ext)
  end.

(** [os.path.splitext(p)[1]]: from the last dot of the base name, unless
    only dots precede it. *)
Definition splitext_ext (p : string) : string :=
  Str.of_chars (rev_ext (rev_tail (rev (Str.chars p))) []).

(** [os.path.join(a, b)] for a relative [b] *)
Definition join (a b : string) : string :=
  if String.eqb a "" then b
  else if Str.endswith a "/" then a +:+ b
  else a +:+ "/" +:+ b.

End Path.

(** ** Regular expressions: the part of Python's [re] the catalog uses

    A backtracking matcher with the priorities of [re]: alternatives are
    tried left to right, a greedy repetition takes the longer match first,
    a lazy one the shorter.  Groups are numbered by their opening
    parenthesis, from 1. *)

Module Re.

Record flags := Flags {
  MULTILINE : bool;
  DOTALL : bool;
  IGNORECASE : bool
}.

Definition no_flags : flags := Flags false false false.

(** An item of a bracket expression. *)
Inductive item :=
| IChar (c : ascii)            (* a character *)
| IRange (lo hi : ascii)       (* lo-hi *)
| IWord                        (* \w *)
| ISpace.                      (* \s *)

Inductive regex :=
| Eps                                   (* the empty pattern *)
| Lit (c : ascii)                       (* a literal character *)
| Dot                                   (* . *)
| Set_ (negated : bool) (items : list item)   (* [...] and [^...] *)
| Bol                                   (* ^ *)
| Eol                                   (* $ *)
| WordB                                 (* \b *)
| Cat (r1 r2 : regex)
| Alt (r1 r2 : regex)                   (* r1|r2 *)
| Star (greedy : bool) (r : regex)      (* r* and r*? *)
| Plus (greedy : bool) (r : regex)      (* r+ and r+? *)
| Opt (greedy : bool) (r : regex)       (* r? and r?? *)
| Group (name : option string) (r : regex)  (* (r) and (?P<name>r) *)
| Look (negative : bool) (r : regex).   (* (?=r) and (?!r) *)

(** The number of capturing groups. *)
Fixpoint ngroups (r : regex) : nat :=
  match r with
  | Cat r1 r2 | Alt r1 r2 => ngroups r1 + ngroups r2
  | Star _ r | Plus _ r | Opt _ r | Look _ r => ngroups r
  | Group _ r => S (ngroups r)
  | _ => 0
  end.

(** [pattern.groupindex]: the named groups with their numbers, in the
    order of the pattern; [base] groups open before [r]. *)
Fixpoint groupindex_from (base : nat) (r : regex) : list (string * nat) :=
  match r with
  | Cat r1 r2 | Alt r1 r2 =>
      groupindex_from base r1 ++ groupindex_from (base + ngroups r1) r2
  | Star _ r | Plus _ r | Opt _ r | Look _ r => groupindex_from base r
  | Group (Some n) r => (n, S base) :: groupindex_from (S base) r
  | Group None r => groupindex_from (S base) r
  | _ => []
  end.

Definition groupindex (r : regex) : list (string * nat) :=
  groupindex_from 0 r.

Definition item_has (i : item) (c : ascii) : bool :=
  match i with
  | IChar a => Ascii.eqb a c
  | IRange lo hi => Chr.between lo hi c
  | IWord => Chr.is_word c
  | ISpace => Chr.is_space c
  end.

Definition set_has (f : flags) (items : list item) (c : ascii) : bool :=
  existsb (λ i, item_has i c) items ||
  (IGNORECASE f &&
   (existsb (λ i, item_has i (Chr.lower c)) items ||
    existsb (λ i, item_has i (Chr.upper c)) items)).

Definition lit_eq (f : flags) (a c : ascii) : bool :=
  Ascii.eqb a c ||
  (IGNORECASE f && Ascii.eqb (Chr.lower a) (Chr.lower c)).

(** Where the matcher stands: the character before the position, the text
    from the position on, the position, and the groups closed so far
    (the latest first). *)
Record cursor := Cursor {
  c_prev : option ascii;
  c_rest : list ascii;
  c_pos : nat;
  c_caps : list (nat * (nat * nat))
}.

Definition advance (c : ascii) (rest : list ascii) (cu : cursor) : cursor :=
  Cursor (Some c) rest (S (c_pos cu)) (c_caps cu).

Definition close_group (i start : nat) (cu : cursor) : cursor :=
  Cursor (c_prev cu) (c_rest cu) (c_pos cu)
         ((i, (start, c_pos cu)) :: c_caps cu).

Definition with_caps (caps : list (nat * (nat * nat))) (cu : cursor) : cursor :=
  Cursor (c_prev cu) (c_rest cu) (c_pos cu) caps.

Definition at_bol (f : flags) (cu : cursor) : bool :=
  match c_prev cu with
  | None => true
  | Some p => MULTILINE f && Ascii.eqb p Chr.newline
  end.

Definition at_eol (f : flags) (cu : cursor) : bool :=
  match c_rest cu with
  | [] => true
  | c :: rest =>
      Ascii.eqb c Chr.newline &&
      (MULTILINE f || match rest with [] => true | _ => false end)
  end.

Definition is_word_opt (o : option ascii) : bool :=
  match o with Some c => Chr.is_word c | None => false end.

Definition at_wordb (cu : cursor) : bool :=
  xorb (is_word_opt (c_prev cu)) (is_word_opt (head (c_rest cu))).

Definition one_char (ok : ascii → bool) (cu : cursor)
    (k : cursor → option cursor) : option cursor :=
  match c_rest cu with
  | c :: rest => if ok c then k (advance c rest cu) else None
  | [] => None
  end.

Definition or_else (a : option cursor) (b : unit → option cursor)
    : option cursor :=
  match a with Some x => Some x | None => b tt end.

(** The iterations of a repetition.  An iteration that consumes nothing
    is the last one, so [n], the number of characters left plus one,
    bounds the iterations. *)
Fixpoint repeat (n : nat) (greedy : bool)
    (step : cursor → (cursor → option cursor) → option cursor)
    (cu : cursor) (k : cursor → option cursor) : option cursor :=
  match n with
  | 0 => k cu
  | S n' =>
      let again (_ : unit) :=
        step cu (λ cu',
          if (c_pos cu <? c_pos cu')%nat
          then repeat n' greedy step cu' k
          else k cu') in
      if greedy then or_else (again tt) (λ _, k cu)
      else or_else (k cu) again
  end.

(** [run f base r cu k]: match [r] at [cu], then continue with [k];
    [None] when every way of matching [r] makes [k] fail. *)
Fixpoint run (f : flags) (base : nat) (r : regex) (cu : cursor)
    (k : cursor → option cursor) {struct r} : option cursor :=
  match r with
  | Eps => k cu
  | Lit a => one_char (lit_eq f a) cu k
  | Dot => one_char (λ c, DOTALL f || negb (Ascii.eqb c Chr.newline)) cu k
  | Set_ negated items =>
      one_char (λ c, xorb negated (set_has f items c)) cu k
  | Bol => if at_bol f cu then k cu else None
  | Eol => if at_eol f cu then k cu else None
  | WordB => if at_wordb cu then k cu else None
  | Cat r1 r2 =>
      run f base r1 cu (λ cu', run f (base + ngroups r1) r2 cu' k)
  | Alt r1 r2 =>
      or_else (run f base r1 cu k)
              (λ _, run f (base + ngroups r1) r2 cu k)
  | Star greedy r1 =>
      repeat (S (length (c_rest cu))) greedy (run f base r1) cu k
  | Plus greedy r1 =>
      run f base r1 cu (λ cu',
        repeat (S (length (c_rest cu'))) greedy (run f base r1) cu' k)
  | Opt greedy r1 =>
      if greedy then or_else (run f base r1 cu k) (λ _, k cu)
      else or_else (k cu) (λ _, run f base r1 cu k)
  | Group _ r1 =>
      run f (S base) r1 cu (λ cu', k (close_group (S base) (c_pos cu) cu'))
  | Look negative r1 =>
      match run f base r1 cu Some with
      | Some cu' => if negative then None else k (with_caps (c_caps cu') cu)
      | None => if negative then k cu else None
      end
  end.

(** A compiled pattern: [re.compile(pattern, flags)]. *)
Record Pattern := Compiled {
  p_regex : regex;
  p_flags : flags
}.

(** A match object. *)
Record Match := MkMatch {
  m_re : Pattern;
  m_string : list ascii;
  m_start : nat;
  m_end : nat;
  m_caps : list (nat * (nat * nat))
}.

(** One attempt at the position of [cu]; [must_advance] refuses the empty
    match, as [re] does right after an empty match. *)
Definition match_at (p : Pattern) (whole : list ascii) (must_advance : bool)
    (cu : cursor) : option Match :=
  match run (p_flags p) 0 (p_regex p) cu
            (λ e, if must_advance && (c_pos e =? c_pos cu)%nat
                  then None else Some e) with
  | Some e => Some (MkMatch p whole (c_pos cu) (c_pos e) (c_caps e))
  | None => None
  end.

(** The scan of [finditer]: leftmost matches, not overlapping.  [skip]
    counts the characters still covered by the last match. *)
Fixpoint scan (p : Pattern) (whole : list ascii) (prev : option ascii)
    (rest : list ascii) (pos skip : nat) : list Match :=
  let next (skip' : nat) : list Match :=
    match rest with
    | [] => []
    | c :: rest' => scan p whole (Some c) rest' (S pos) skip'
    end in
  match skip with
  | S skip' => next skip'
  | 0 =>
      let cu := Cursor prev rest pos [] in
      match match_at p whole false cu with
      | None => next 0
      | Some m =>
          if (m_end m =? pos)%nat then
            (* an empty match: the next attempt, at the same position,
               has to consume something *)
            m :: match match_at p whole true cu with
                 | None => next 0
                 | Some m' => m' :: next (m_end m' - pos - 1)
                 end
          else m :: next (m_end m - pos - 1)
      end
  end.

(** [pattern.finditer(s)], and [re.finditer(pattern, s)] for a compiled
    pattern. *)
Definition finditer (p : Pattern) (s : string) : list Match :=
  scan p (Str.chars s) None (Str.chars s) 0 0.

(** [re.search(pattern, s)]: the first match of the scan, or [None]. *)
Definition search (p : Pattern) (s : string) : option Match :=
  head (finditer p s).

Fixpoint find_cap (i : nat) (caps : list (nat * (nat * nat)))
    : option (nat * nat) :=
  match caps with
  | [] => None
  | (j, span) :: caps' => if (i =? j)%nat then Some span else find_cap i caps'
  end.

(** The text of group [i], [None] when the group took no part in the
    match; group 0 is the whole match. *)
Definition group_text (m : Match) (i : nat) : option string :=
  match i with
  | 0 => Some (Str.slice (m_string m) (m_start m) (m_end m))
  | _ => match find_cap i (m_caps m) with
         | Some (a, b) => Some (Str.slice (m_string m) a b)
         | None => None
         end
  end.

(** [m.group(i)] for a number: [None] stands for the [IndexError] of a
    group the pattern does not have. *)
Definition group (m : Match) (i : nat) : option (option string) :=
  if (i <=? ngroups (p_regex (m_re m)))%nat then Some (group_text m i)
  else None.

Fixpoint index_of (name : string) (gi : list (string * nat)) : option nat :=
  match gi with
  | [] => None
  | (n, i) :: gi' => if String.eqb n name then Some i else index_of name gi'
  end.

(** [m.group(name)]: [None] stands for the [IndexError] of a name the
    pattern does not have. *)
Definition group_named (m : Match) (name : string)
    : option (option string) :=
  match index_of name (groupindex (p_regex (m_re m))) with
  | Some i => Some (group_text m i)
  | None => None
  end.

(** [m.groupdict()]: every named group, in the order of the pattern. *)
Definition groupdict (m : Match) : list (string * option string) :=
  map (λ '(n, i), (n, group_text m i)) (groupindex (p_regex (m_re m))).

(** [m.groups()]: groups 1, 2, ... *)
Definition groups (m : Match) : list (option string) :=
  map (group_text m) (seq 1 (ngroups (p_regex (m_re m)))).

(** *** Notation for writing patterns *)

Fixpoint lits (s : list ascii) : regex :=
  match s with
  | [] => Eps
  | [c] => Lit c
  | c :: s' => Cat (Lit c) (lits s')
  end.

(** A run of literal characters. *)
Definition str (s : string) : regex := lits (Str.chars s).

Fixpoint cat (rs : list regex) : regex :=
  match rs with
  | [] => Eps
  | [r] => r
  | r :: rs' => Cat r (cat rs')
  end.

(** [r1|r2|...] *)
Fixpoint alt (rs : list regex) : regex :=
  match rs with
  | [] => Eps
  | [r] => r
  | r :: rs' => Alt r (alt rs')
  end.

(** [(?:w1|w2|...)] for literal words *)
Definition words (ws : list string) : regex := alt (map str ws).

Definition named (n : string) (r : regex) : regex := Group (Some n) r.
Definition star : regex → regex := Star true.
Definition plus : regex → regex := Plus true.
Definition opt : regex → regex := Opt true.
Definition ws : regex := Set_ false [ISpace].        (* \s *)
Definition word : regex := Set_ false [IWord].       (* \w *)
Definition one_of (s : string) : regex :=
  Set_ false (map IChar (Str.chars s)).
Definition none_of (s : string) : regex :=
  Set_ true (map IChar (Str.chars s)).

End Re.

(** ** generator/patterns.py: the catalog [PATTERNS]

    Every rule is written as the syntax tree of its pattern text; the
    sub-patterns shared by several rules are named first. *)

Module Patterns.
Import Re.

(** A literal character. *)
Definition ch (c : ascii) : regex := Lit c.

(** A single or double quote, and any character but these *)
Definition quote : regex := Set_ false [IChar "'"; IChar Chr.dquote].
Definition not_quote : regex := Set_ true [IChar "'"; IChar Chr.dquote].
(** A letter, a digit, an underscore or a dot *)
Definition dotted : regex :=
  Set_ false [IRange "a" "z"; IRange "A" "Z"; IRange "0" "9";
              IChar "_"; IChar "."].
(** An opening angle or double quote, a closing one, and any character
    but the closing ones *)
Definition open_angle : regex := Set_ false [IChar "<"; IChar Chr.dquote].
Definition close_angle : regex := Set_ false [IChar ">"; IChar Chr.dquote].
Definition in_angle : regex := Set_ true [IChar ">"; IChar Chr.dquote].
(** A keyword and the white space after it *)
Definition kw (w : string) : regex := cat [str w; plus ws].
(** The extension of a JavaScript or TypeScript file *)
Definition js_ext : regex := cat [ch "."; words ["js"; "jsx"; "ts"; "tsx"]].
(** Any number of decorators, each with an optional argument list *)
Definition decorators : regex :=
  star (cat [ch "@"; plus word;
             opt (cat [ch "("; Star false Dot; ch ")"]); plus ws]).
(** An optional quoted docstring, captured without its quotes *)
Definition docstring : regex :=
  opt (cat [star ws; quote; named "docstring" (star not_quote); quote]).
(** A body with braces nested at most once *)
Definition braces_body : regex :=
  star (Alt (none_of "{}") (cat [ch "{"; star (none_of "{}"); ch "}"])).
(** Optional type parameters between angles *)
Definition generics : regex := opt (cat [ch "<"; plus (none_of ">"); ch ">"]).
(** Any number of visibility modifiers *)
Definition visibilities : regex :=
  star (cat [words ["public"; "private"; "protected"; "internal"; "friend"];
             plus ws]).

Definition import_python : regex :=
  cat [Bol;
       Alt (cat [kw "from"; named "module" (plus dotted); plus ws;
                 kw "import";
                 named "imports" (plus (Set_ true [IChar "#"; IChar Chr.newline]))])
           (cat [kw "import";
                 named "module2"
                   (cat [plus dotted;
                         star (cat [star ws; ch ","; star ws; plus dotted])])]);
       opt (cat [star ws; ch "#"; star (Set_ true [IChar Chr.newline])]);
       Eol].

Definition import_web : regex :=
  alt [ (* ES6 import *)
        cat [kw "import"; Star false Dot; kw "from"; quote;
             named "module" (plus not_quote); quote];
        (* CommonJS require *)
        cat [str "require"; star ws; ch "("; quote;
             named "module2" (plus not_quote); quote; ch ")"];
        (* Java/TypeScript import *)
        cat [kw "import"; opt (kw "static");
             named "module3"
               (cat [plus dotted; opt (cat [ch "."; one_of "*"])])];
        (* Ruby require *)
        cat [kw "require"; quote; named "module4" (plus not_quote); quote];
        (* Plain import *)
        cat [kw "import"; quote; named "module5" (plus not_quote); quote] ].

Definition import_system : regex :=
  alt [ (* C/C++ include *)
        cat [str "#include"; star ws; open_angle;
             named "module" (plus in_angle); close_angle];
        (* C# using *)
        cat [kw "using"; opt (kw "static");
             named "module2" (plus dotted); star ws; ch ";"];
        (* Namespace *)
        cat [kw "namespace";
             named "module3"
               (plus (Set_ false [IRange "a" "z"; IRange "A" "Z";
                                  IRange "0" "9"; IChar "_"; IChar "\"]))];
        (* Swift/Kotlin import *)
        cat [kw "import";
             named "module4" (plus (Set_ true [IChar Chr.newline; IChar ";"]));
             star ws; opt (ch ";")];
        (* Objective-C import *)
        cat [str "#import"; star ws; open_angle;
             named "module5" (plus in_angle); close_angle] ].

Definition class_python : regex :=
  cat [decorators; kw "class"; named "name" (plus word);
       opt (cat [ch "("; named "base" (plus (none_of ")")); ch ")"]);
       star ws; ch ":"; docstring].

Definition class_web : regex :=
  alt [ (* Standard class *)
        cat [opt (kw "export"); opt (kw "abstract"); kw "class";
             named "name" (plus word);
             opt (cat [star ws; words ["extends"; "implements"]; plus ws;
                       named "base" (plus (none_of "{<"))]);
             opt (cat [star ws; ch "<"; plus (none_of ">"); ch ">"]);
             star ws; ch "{"];
        (* Class expression *)
        cat [opt (kw "export"); words ["const"; "let"; "var"]; plus ws;
             named "name2" (plus word); star ws; ch "="; star ws; str "class";
             opt (cat [plus ws; kw "extends";
                       named "base2" (plus (none_of "{"))]);
             star ws; ch "{"];
        (* Generic class *)
        cat [opt (kw "export"); kw "class"; named "name3" (plus word);
             star ws; generics; star ws;
             words ["extends"; "implements"]; plus ws;
             opt (named "base3" (plus (none_of "{")));
             star ws; ch "{"] ].

Definition class_system : regex :=
  alt [ (* C++/C#/Java class *)
        cat [visibilities; opt (kw "abstract"); opt (kw "partial");
             opt (kw "sealed");
             words ["class"; "struct"; "enum"; "union"; "@interface";
                    "@implementation"];
             plus ws; named "name" (plus word);
             opt (cat [star ws;
                       alt [cat [ch ":"; star ws]; kw "extends";
                            kw "implements"];
                       named "base" (plus (none_of "{;"))]);
             opt (cat [star ws; ch "{"])];
        (* Objective-C interface/implementation *)
        cat [words ["@interface"; "@implementation"]; plus ws;
             named "name2" (plus word);
             opt (cat [star ws; ch ":"; star ws;
                       named "base2" (plus (none_of "{"))]);
             star ws; opt (ch "{")] ].

Definition function_python : regex :=
  cat [decorators; kw "def"; named "name" (plus word); star ws;
       ch "("; named "params" (star (none_of ")")); ch ")";
       opt (cat [star ws; str "->"; star ws;
                 named "return" (plus (none_of ":#"))]);
       star ws; ch ":"; docstring].

Definition function_web : regex :=
  alt [ (* Standard function *)
        cat [opt (kw "export"); opt (kw "async"); str "function"; star ws;
             named "name" (plus word); star ws; generics; star ws;
             ch "("; named "params" (star (none_of ")")); ch ")";
             opt (cat [star ws; ch ":"; star ws;
                       named "return" (plus (none_of "{="))]);
             star ws; ch "{"];
        (* Function expression/arrow *)
        cat [opt (kw "export"); words ["const"; "let"; "var"]; plus ws;
             named "name2" (plus word); star ws; ch "="; star ws;
             opt (kw "async");
             Alt (cat [str "function"; star ws; opt (ch "*")])
                 (cat [ch "("; star (none_of ")"); ch ")"; star ws; str "=>"])];
        (* Method *)
        cat [opt (words ["public"; "private"; "protected"]); star ws;
             opt (kw "static"); opt (kw "async");
             named "name3" (plus word); star ws;
             ch "("; named "params2" (star (none_of ")")); ch ")";
             opt (cat [star ws; ch ":"; star ws;
                       named "return2" (plus (none_of "{;"))]);
             star ws; opt (ch "{")] ].

Definition function_system : regex :=
  alt [ (* C++/C#/Java method *)
        cat [visibilities; opt (kw "static"); opt (kw "virtual");
             opt (kw "override"); opt (kw "async");
             opt (cat [plus (Set_ false [IWord; IChar ":"]); plus ws]);
             named "name" (plus word); star ws;
             ch "("; named "params" (star (none_of ")")); ch ")";
             opt (cat [star ws;
                       words ["const"; "override"; "final"; "noexcept"]]);
             star ws; opt (cat [ch "{"; star ws])];
        (* Objective-C method *)
        cat [one_of "-+"; star ws;
             ch "("; named "return" (plus (none_of ")")); ch ")";
             named "name2" (plus word);
             star (cat [ch ":"; star ws;
                        ch "("; named "paramtype" (plus (none_of ")")); ch ")";
                        named "param" (plus word)])] ].

(** The bucket ['common'] *)

Definition common_method : regex :=
  cat [opt (cat [words ["public"; "private"; "protected"]; plus ws]);
       opt (kw "static"); opt (kw "async");
       named "name" (plus word); star ws;
       ch "("; named "params" (star (none_of ")")); ch ")";
       opt (cat [star ws; ch ":"; star ws;
                 named "return" (plus (none_of "{"))]);
       star ws; ch "{"].

Definition common_variable : regex :=
  cat [opt (cat [words ["public"; "private"; "protected"]; plus ws]);
       opt (kw "static");
       words ["const"; "let"; "var"; "final"]; plus ws;
       named "name" (plus word); star ws;
       opt (cat [ch ":"; star ws; named "type" (plus (none_of "=;"))]);
       star ws; ch "="; star ws;
       named "value" (plus (none_of ";"))].

Definition common_error : regex :=
  cat [str "try"; star ws; ch "{"; braces_body; ch "}"; star ws;
       str "catch"; star ws; ch "(";
       named "error" (plus word);
       opt (cat [star ws; ch ":"; star ws;
                 named "type" (plus (none_of ")"))]);
       ch ")"].

Definition common_interface : regex :=
  cat [opt (kw "export"); kw "interface"; named "name" (plus word);
       opt (cat [plus ws; kw "extends"; named "base" (plus (none_of "{"))]);
       star ws; ch "{"; braces_body; ch "}"].

Definition jsx_component : regex :=
  cat [ch "<";
       named "name" (cat [Set_ false [IRange "A" "Z"]; star word]);
       opt (cat [plus ws;
                 plus (cat [Look true (str "/>"); none_of ">"])]);
       ch ">"].

Definition react_hook : regex :=
  cat [WordB; str "use"; Set_ false [IRange "A" "Z"]; plus word; WordB;
       Look false (cat [star ws; ch "("])].

Definition next_api : regex :=
  cat [kw "export"; opt (kw "async"); kw "function";
       words ["getStaticProps"; "getStaticPaths"; "getServerSideProps"];
       star ws; ch "("].

Definition next_page : regex :=
  cat [words ["pages"; "app"]; ch "/";
       Look true (ch "_"); plus (none_of "/");
       star (cat [ch "/"; Look true (ch "_"); plus (none_of "/")]);
       js_ext; Eol].

Definition next_layout : regex :=
  cat [words ["layout"; "page"; "loading"; "error"; "not-found"];
       js_ext; Eol].

Definition next_middleware : regex :=
  cat [str "middleware"; js_ext; Eol].

Definition styled_component : regex :=
  cat [opt (kw "const"); named "name" (plus word); star ws; ch "=";
       star ws; str "styled";
       Alt (cat [ch "."; named "element" (plus word)])
           (cat [ch "("; plus (Set_ false [IWord; IChar "."]); ch ")"]);
       ch "`"; star (none_of "`"); ch "`"].

(** The bucket ['unity'] *)

Definition unity_component : regex :=
  cat [opt (kw "public"); kw "class"; plus word; star ws; ch ":"; star ws;
       words ["MonoBehaviour"; "ScriptableObject"; "EditorWindow"]].

Definition unity_lifecycle : regex :=
  cat [opt (alt [kw "private"; kw "protected"; kw "public"]);
       opt (kw "virtual"); opt (kw "override"); kw "void";
       words ["Awake"; "Start"; "Update"; "FixedUpdate"; "LateUpdate";
              "OnEnable"; "OnDisable"; "OnDestroy"; "OnTriggerEnter";
              "OnTriggerExit"; "OnCollisionEnter"; "OnCollisionExit";
              "OnMouseDown"; "OnMouseUp"; "OnGUI"];
       star ws; ch "("; star (none_of ")"); ch ")"].

Definition unity_attribute : regex :=
  cat [ch "["; star ws;
       words ["SerializeField"; "Header"; "Tooltip"; "Range";
              "RequireComponent"; "ExecuteInEditMode"; "CreateAssetMenu";
              "MenuItem"];
       opt (cat [star ws; ch "("; star ws;
                 named "params" (plus (none_of ")")); star ws; ch ")"]);
       star ws; ch "]"].

Definition unity_type : regex :=
  cat [WordB;
       alt [str "GameObject"; str "Transform"; str "Rigidbody";
            str "Collider"; str "AudioSource"; str "Camera"; str "Light";
            str "Animator"; str "ParticleSystem"; str "Canvas";
            str "Image"; str "Text"; str "Button";
            cat [str "Vector"; one_of "23"]; str "Quaternion"];
       WordB].

Definition unity_event : regex :=
  cat [opt (alt [kw "public"; kw "private"; kw "protected"]);
       str "UnityEvent"; star ws; ch "<"; star ws;
       named "type" (star (none_of ">")); star ws; ch ">"; plus ws;
       named "name" (plus word)].

Definition unity_field : regex :=
  cat [opt (alt [kw "public"; kw "private"; kw "protected"; kw "internal"]);
       opt (cat [str "[SerializeField]"; star ws]);
       named "type" (cat [plus word;
                          opt (cat [ch "<"; plus (none_of ">"); ch ">"])]);
       plus ws; named "name" (plus word); star ws;
       opt (cat [ch "="; star ws; named "value" (plus (none_of ";"))]);
       ch ";"].

(** [PATTERNS]: bucket, then rule name. *)
Definition PATTERNS : list (string * list (string * regex)) :=
  [ ("import", [ ("python", import_python); ("web", import_web);
                 ("system", import_system) ]);
    ("class", [ ("python", class_python); ("web", class_web);
                ("system", class_system) ]);
    ("function", [ ("python", function_python); ("web", function_web);
                   ("system", function_system) ]);
    ("common", [ ("method", common_method); ("variable", common_variable);
                 ("error", common_error); ("interface", common_interface);
                 ("jsx_component", jsx_component);
                 ("react_hook", react_hook); ("next_api", next_api);
                 ("next_page", next_page); ("next_layout", next_layout);
                 ("next_middleware", next_middleware);
                 ("styled_component", styled_component) ]);
    ("unity", [ ("component", unity_component);
                ("lifecycle", unity_lifecycle);
                ("attribute", unity_attribute); ("type", unity_type);
                ("event", unity_event); ("field", unity_field) ]) ].

End Patterns.

(** ** Exceptions, results and the structure under construction *)

Inductive exn :=
| IndexError (msg : string)
| KeyError (key : string)
| TypeError (msg : string)
| OSError (msg : string)
| UnicodeDecodeError
| UnicodeEncodeError
| ReError (msg : string).

Inductive result (A : Type) :=
| Ok (a : A)
| Raise (e : exn).
Arguments Ok {A} a.
Arguments Raise {A} e.

(** A record of one match: a dictionary from field names to a string or
    [None], in the order the fields are written. *)
Definition record : Type := list (string * option string).

(** [d.get(key)] on a dictionary kept as an association list. *)
Fixpoint dict_get {A} (key : string) (d : list (string * A)) : option A :=
  match d with
  | [] => None
  | (k, v) :: d' => if String.eqb k key then Some v else dict_get key d'
  end.

(** The counters a directory starts with under ['patterns']; nothing
    updates them. *)
Record Metrics := {
  m_classes : nat;
  m_functions : nat;
  m_imports : nat
}.

(** An entry of [dir_stats].  The set ['frameworks'] stays empty and is
    left out. *)
Record DirStats := {
  total_files : nat;
  code_files : nat;
  dir_languages : gmap string nat;
  dir_patterns : Metrics
}.

(** An entry of ['directory_patterns']. *)
Record DirPattern := {
  dp_path : string;
  dp_name_pattern : string;
  dp_purpose : list string;
  dp_languages : gmap string nat;
  dp_total_files : nat;
  dp_code_files : nat;
  dp_code_metrics : Metrics
}.

(** [structure['patterns']].  The lists no function appends to
    ([classes], [functions], [error_handling], ...) stay empty and are
    left out. *)
Record PatternLists := {
  imports : list string;
  configurations : list record;
  code_organization : list record;
  function_patterns : list record;
  class_patterns : list record;
  directory_patterns : list DirPattern
}.

(** [structure].  An entry of [directory_structure] keeps the parent; its
    ['stats'] is the very object stored in [dir_stats], read there.
    [frameworks] and [language_stats] stay empty and are left out. *)
Record Structure := {
  files : list string;
  dependencies : gmap string bool;
  languages : gmap string nat;
  config_files : list string;
  code_contents : gmap string string;
  directory_structure : gmap string (option string);
  patterns : PatternLists
}.

Definition empty_patterns : PatternLists :=
  {| imports := []; configurations := []; code_organization := [];
     function_patterns := []; class_patterns := [];
     directory_patterns := [] |}.

Definition empty_structure : Structure :=
  {| files := []; dependencies := ∅; languages := ∅; config_files := [];
     code_contents := ∅; directory_structure := ∅;
     patterns := empty_patterns |}.

Definition set_patterns (f : PatternLists → PatternLists) (s : Structure)
    : Structure :=
  {| files := files s; dependencies := dependencies s;
     languages := languages s; config_files := config_files s;
     code_contents := code_contents s;
     directory_structure := directory_structure s;
     patterns := f (patterns s) |}.

Definition add_import (m : string) (p : PatternLists) : PatternLists :=
  {| imports := imports p ++ [m]; configurations := configurations p;
     code_organization := code_organization p;
     function_patterns := function_patterns p;
     class_patterns := class_patterns p;
     directory_patterns := directory_patterns p |}.

Definition add_configuration (r : record) (p : PatternLists) : PatternLists :=
  {| imports := imports p; configurations := configurations p ++ [r];
     code_organization := code_organization p;
     function_patterns := function_patterns p;
     class_patterns := class_patterns p;
     directory_patterns := directory_patterns p |}.

Definition add_code_organization (r : record) (p : PatternLists)
    : PatternLists :=
  {| imports := imports p; configurations := configurations p;
     code_organization := code_organization p ++ [r];
     function_patterns := function_patterns p;
     class_patterns := class_patterns p;
     directory_patterns := directory_patterns p |}.

Definition add_function_pattern (r : record) (p : PatternLists)
    : PatternLists :=
  {| imports := imports p; configurations := configurations p;
     code_organization := code_organization p;
     function_patterns := function_patterns p ++ [r];
     class_patterns := class_patterns p;
     directory_patterns := directory_patterns p |}.

Definition add_class_pattern (r : record) (p : PatternLists) : PatternLists :=
  {| imports := imports p; configurations := configurations p;
     code_organization := code_organization p;
     function_patterns := function_patterns p;
     class_patterns := class_patterns p ++ [r];
     directory_patterns := directory_patterns p |}.

Definition add_directory_pattern (d : DirPattern) (p : PatternLists)
    : PatternLists :=
  {| imports := imports p; configurations := configurations p;
     code_organization := code_organization p;
     function_patterns := function_patterns p;
     class_patterns := class_patterns p;
     directory_patterns := directory_patterns p ++ [d] |}.

Definition set_dependency (m : string) (s : Structure) : Structure :=
  {| files := files s; dependencies := <[m := true]> (dependencies s);
     languages := languages s; config_files := config_files s;
     code_contents := code_contents s;
     directory_structure := directory_structure s;
     patterns := patterns s |}.

Definition add_file (p : string) (s : Structure) : Structure :=
  {| files := files s ++ [p]; dependencies := dependencies s;
     languages := languages s; config_files := config_files s;
     code_contents := code_contents s;
     directory_structure := directory_structure s;
     patterns := patterns s |}.

(** [d[k] = d.get(k, 0) + 1] *)
Definition count_up (k : string) (d : gmap string nat) : gmap string nat :=
  <[k := default 0 (d !! k) + 1]> d.

Definition count_language (lang : string) (s : Structure) : Structure :=
  {| files := files s; dependencies := dependencies s;
     languages := count_up lang (languages s);
     config_files := config_files s; code_contents := code_contents s;
     directory_structure := directory_structure s;
     patterns := patterns s |}.

Definition add_config_file (p : string) (s : Structure) : Structure :=
  {| files := files s; dependencies := dependencies s;
     languages := languages s; config_files := config_files s ++ [p];
     code_contents := code_contents s;
     directory_structure := directory_structure s;
     patterns := patterns s |}.

Definition set_code_content (p content : string) (s : Structure) : Structure :=
  {| files := files s; dependencies := dependencies s;
     languages := languages s; config_files := config_files s;
     code_contents := <[p := content]> (code_contents s);
     directory_structure := directory_structure s;
     patterns := patterns s |}.

Definition set_directory (d : string) (parent : option string) (s : Structure)
    : Structure :=
  {| files := files s; dependencies := dependencies s;
     languages := languages s; config_files := config_files s;
     code_contents := code_contents s;
     directory_structure := <[d := parent]> (directory_structure s);
     patterns := patterns s |}.

(** *** Code that mutates [structure] and may raise

    The structure keeps what was written to it before an exception. *)

Definition M (A : Type) : Type := Structure → result A * Structure.

Definition ret {A} (a : A) : M A := λ s, (Ok a, s).
Definition raise {A} (e : exn) : M A := λ s, (Raise e, s).
Definition bind {A B} (m : M A) (k : A → M B) : M B :=
  λ s, match m s with
       | (Ok a, s') => k a s'
       | (Raise e, s') => (Raise e, s')
       end.
Definition modify (f : Structure → Structure) : M unit := λ s, (Ok tt, f s).

Notation "'let!' x ':=' m 'in' k" := (bind m (λ x, k))
  (at level 10, x name, m at level 100, k at level 200,
   format "'[v' 'let!'  x  ':='  m  'in' '/' k ']'").
Notation "m '>>' k" := (bind m (λ _, k))
  (at level 100, k at level 200, right associativity,
   format "'[v' m  '>>' '/' k ']'").

(** [when c: m] *)
Definition when (c : bool) (m : M unit) : M unit := if c then m else ret tt.

(** [for x in l: body(x)] *)
Fixpoint for_each {A} (l : list A) (body : A → M unit) : M unit :=
  match l with
  | [] => ret tt
  | x :: l' => body x >> for_each l' body
  end.

(** [try: m  except Exception: pass] *)
Definition try_pass (m : M unit) : M unit :=
  λ s, match m s with
       | (Ok _, s') => (Ok tt, s')
       | (Raise _, s') => (Ok tt, s')
       end.

(** An [option] whose [None] stands for an exception. *)
Definition or_raise {A} (e : exn) (o : option A) : M A :=
  match o with Some a => ret a | None => raise e end.

(** Truth of a string or [None]: a non-empty string. *)
Definition truthy (v : option string) : bool :=
  match v with
  | Some s => negb (String.eqb s "")
  | None => false
  end.

(** ** The compiled catalog *)

(** [compiled_patterns]: bucket, then rule name. *)
Definition Catalog : Type := list (string * list (string * Re.Pattern)).

(** Modelled from the spec: [PatternsAnalyzer] (patterns_analyzer.py is not
    among the sources) compiles every rule of the catalog once into a lookup
    indexed by bucket name then rule name.  The flags it compiles with are
    not known and stay a parameter. *)
Definition compile_catalog (f : Re.flags)
    (table : list (string * list (string * Re.regex))) : Catalog :=
  map (λ '(bucket, rules),
         (bucket, map (λ '(name, r), (name, Re.Compiled r f)) rules)) table.

(** [compiled_patterns[bucket][name]] *)
Definition rule (c : Catalog) (bucket name : string) : M Re.Pattern :=
  let! rules := or_raise (KeyError bucket) (dict_get bucket c) in
  or_raise (KeyError name) (dict_get name rules).

(** [m.group(i)] and [m.group(name)] *)
Definition group (m : Re.Match) (i : nat) : M (option string) :=
  or_raise (IndexError "no such group") (Re.group m i).

Definition group_named (m : Re.Match) (name : string) : M (option string) :=
  or_raise (IndexError "no such group") (Re.group_named m name).

(** [v.strip() if v else ''] *)
Definition strip_or_empty (v : option string) : string :=
  match v with
  | Some s => if truthy v then Str.strip s else ""
  | None => ""
  end.

(** [v if v else d] *)
Definition or_default (d : string) (v : option string) : string :=
  match v with
  | Some s => if truthy v then s else d
  | None => d
  end.

(** [structure['patterns'][key].append(info)] for a list of records *)
Definition patterns_append (key : string) (info : record) : M unit :=
  if String.eqb key "class_patterns" then
    modify (set_patterns (add_class_pattern info))
  else if String.eqb key "function_patterns" then
    modify (set_patterns (add_function_pattern info))
  else if String.eqb key "code_organization" then
    modify (set_patterns (add_code_organization info))
  else if String.eqb key "configurations" then
    modify (set_patterns (add_configuration info))
  else raise (KeyError key).

(** [next((v for k, v in groups.items() if v and wanted(k)), None)] *)
Fixpoint first_capture (wanted : string → bool)
    (groups : list (string * option string)) : option string :=
  match groups with
  | [] => None
  | (k, v) :: groups' =>
      if truthy v && wanted k then v else first_capture wanted groups'
  end.

(** [k.startswith('module')] *)
Definition wants_module (k : string) : bool := Str.startswith k "module".

(** [k == 'name' or k == 'n'] *)
Definition wants_name (k : string) : bool :=
  String.eqb k "name" || String.eqb k "n".

(** [key in groups and groups[key]], then the value *)
Definition capture (groups : list (string * option string)) (key : string)
    : option string :=
  match dict_get key groups with
  | Some v => if truthy v then v else None
  | None => None
  end.

(** ** rules_generator.py *)

Module RulesGenerator.

(** The fields of [self] the analysis reads.  [get_language_from_ext] is a
    method of [PatternsAnalyzer], which is not among the sources. *)
Record Self := {
  compiled_patterns : Catalog;
  get_language_from_ext : string → string
}.

Definition pattern_groups : list (string * string) :=
  [ ("python", "python"); ("javascript", "web"); ("typescript", "web");
    ("csharp", "system"); ("cpp", "system"); ("c", "system");
    ("php", "system"); ("kotlin", "system"); ("swift", "system");
    ("java", "web"); ("ruby", "web"); ("objc", "system") ].

(** The body of the loop over the matches of one pattern type, inside its
    [try]. *)
Definition record_match (pattern_type rel_path : string) (m : Re.Match)
    : M unit :=
  let groups := Re.groupdict m in
  if String.eqb pattern_type "import" then
    (* Handle imports *)
    match first_capture wants_module groups with
    | Some module =>
        modify (set_dependency module) >>
        modify (set_patterns (add_import module))
    | None => ret tt
    end
  else
    (* Handle classes and functions *)
    match first_capture wants_name groups with
    | None => ret tt
    | Some name =>
        let info : record :=
          [ ("name", Some name); ("file", Some rel_path);
            ("type", Some pattern_type) ]
          ++ match capture groups "params" with
             | Some v => [("parameters", Some v)]
             | None => []
             end
          ++ match capture groups "base" with
             | Some v => [("base", Some (Str.strip v))]
             | None => []
             end
          ++ match capture groups "return" with
             | Some v => [("return_type", Some (Str.strip v))]
             | None => []
             end in
        patterns_append (pattern_type +:+ "_patterns") info
    end.

(** The scan of one pattern type. *)
Definition scan_type (self : Self) (content rel_path pattern_group : string)
    (pattern_type : string) : M unit :=
  let! pattern := rule (compiled_patterns self) pattern_type pattern_group in
  for_each (Re.finditer pattern content)
           (λ m, try_pass (record_match pattern_type rel_path m)).

(** [pattern_groups.get(language, 'system')] *)
Definition pattern_group (language : string) : string :=
  default "system" (dict_get language pattern_groups).

(** The loop of [_analyze_file] over import, class and function. *)
Definition scan_types (self : Self) (content rel_path language : string)
    : M unit :=
  for_each ["import"; "class"; "function"]
           (scan_type self content rel_path (pattern_group language)).

Definition _analyze_web_patterns (self : Self) (content rel_path : string)
    : M unit :=
  (* Find interfaces and types *)
  (let! p := rule (compiled_patterns self) "common" "interface" in
   for_each (Re.finditer p content) (λ m,
     let! name := group m 1 in
     let! base := group m 2 in
     patterns_append "class_patterns"
       [ ("name", name); ("type", Some "interface/type");
         ("inheritance", Some (strip_or_empty base));
         ("file", Some rel_path) ])) >>
  (* Find React components *)
  (let! p := rule (compiled_patterns self) "common" "jsx_component" in
   for_each (Re.finditer p content) (λ m,
     let! component_name := group m 1 in
     match component_name with
     | None => raise (TypeError "'NoneType' object is not subscriptable")
     | Some s =>
         match Str.chars s with
         | [] => raise (IndexError "string index out of range")
         | c :: _ =>
             when (Chr.is_upper c)
               (patterns_append "class_patterns"
                  [ ("name", component_name);
                    ("type", Some "react_component");
                    ("file", Some rel_path) ])
         end
     end)) >>
  (* Find React hooks *)
  (let! p := rule (compiled_patterns self) "common" "react_hook" in
   for_each (Re.finditer p content) (λ hook,
     let! name := group hook 0 in
     patterns_append "function_patterns"
       [ ("name", name); ("type", Some "react_hook");
         ("file", Some rel_path) ])) >>
  (* Find Next.js specific patterns *)
  when (existsb (λ x, Str.contains x rel_path) ["pages/"; "app/"])
    ((* Check for Next.js data fetching methods *)
     (let! p := rule (compiled_patterns self) "common" "next_api" in
      for_each (Re.finditer p content) (λ method,
        let! name := group method 0 in
        patterns_append "function_patterns"
          [ ("name", name); ("type", Some "next_data_fetching");
            ("file", Some rel_path) ])) >>
     (* Analyze page/route structure *)
     (let! p := rule (compiled_patterns self) "common" "next_page" in
      match Re.search p rel_path with
      | Some page_match =>
          let! route := group_named page_match "route" in
          let! nested := group_named page_match "nested" in
          patterns_append "code_organization"
            [ ("type", Some "next_page"); ("route", route);
              ("nested", nested); ("file", Some rel_path) ]
      | None => ret tt
      end) >>
     (* Check for layouts *)
     (let! p := rule (compiled_patterns self) "common" "next_layout" in
      when (bool_decide (is_Some (Re.search p rel_path)))
        (patterns_append "code_organization"
           [ ("type", Some "next_layout"); ("file", Some rel_path) ]))) >>
  (* Find styled-components patterns *)
  (let! p := rule (compiled_patterns self) "common" "styled_component" in
   for_each (Re.finditer p content) (λ m,
     let! element := group_named m "element" in
     patterns_append "code_organization"
       [ ("type", Some "styled_component");
         ("element", Some (or_default "css" element));
         ("file", Some rel_path) ])).

Definition _analyze_unity_patterns (self : Self) (content rel_path : string)
    : M unit :=
  (* Find MonoBehaviour and ScriptableObject components *)
  (let! p := rule (compiled_patterns self) "unity" "component" in
   for_each (Re.finditer p content) (λ m,
     let! name := group m 0 in
     patterns_append "class_patterns"
       [ ("name", name); ("type", Some "unity_component");
         ("file", Some rel_path) ])) >>
  (* Find Unity lifecycle methods *)
  (let! p := rule (compiled_patterns self) "unity" "lifecycle" in
   for_each (Re.finditer p content) (λ m,
     let! name := group m 0 in
     patterns_append "function_patterns"
       [ ("name", name); ("type", Some "unity_lifecycle");
         ("file", Some rel_path) ])) >>
  (* Find Unity attributes *)
  (let! p := rule (compiled_patterns self) "unity" "attribute" in
   for_each (Re.finditer p content) (λ m,
     let! name := group m 0 in
     let! params := group_named m "params" in
     patterns_append "code_organization"
       [ ("type", Some "unity_attribute"); ("name", name);
         ("parameters", Some (or_default "" params));
         ("file", Some rel_path) ])) >>
  (* Find Unity types *)
  (let! p := rule (compiled_patterns self) "unity" "type" in
   for_each (Re.finditer p content) (λ m,
     let! name := group m 0 in
     patterns_append "class_patterns"
       [ ("name", name); ("type", Some "unity_type");
         ("file", Some rel_path) ])) >>
  (* Find Unity events *)
  (let! p := rule (compiled_patterns self) "unity" "event" in
   for_each (Re.finditer p content) (λ m,
     let! event_type := group_named m "type" in
     let! name := group_named m "name" in
     patterns_append "code_organization"
       [ ("type", Some "unity_event"); ("event_type", event_type);
         ("name", name); ("file", Some rel_path) ])) >>
  (* Find Unity serialized fields *)
  (let! p := rule (compiled_patterns self) "unity" "field" in
   for_each (Re.finditer p content) (λ m,
     let! field_type := group m 1 in
     let! name := group m 2 in
     patterns_append "code_organization"
       [ ("type", Some "unity_field"); ("field_type", field_type);
         ("name", name); ("file", Some rel_path) ])).

(** The marker test of [_analyze_file] on the raw text. *)
Definition has_unity_marker (content : string) : bool :=
  existsb (λ x, Str.contains x content)
          ["UnityEngine"; "MonoBehaviour"; "ScriptableObject"].

Definition _analyze_file (self : Self)
    (content rel_path language : string) : M unit :=
  (* Find patterns using named groups *)
  scan_types self content rel_path language >>
  (* Handle web-specific patterns *)
  when (Str.eqb_in language ["typescript"; "javascript"])
    (_analyze_web_patterns self content rel_path) >>
  (* Handle Unity-specific patterns for C# *)
  when (String.eqb language "csharp" && has_unity_marker content)
    (_analyze_unity_patterns self content rel_path).

(** The naming convention of a directory name, as the chain of tests of
    [_analyze_directory_patterns] decides it. *)
Definition name_pattern (dir_name : string) : string :=
  if Str.islower dir_name then "lowercase"
  else if Str.isupper dir_name then "uppercase"
  else if Str.contains "_" dir_name then "snake_case"
  else if Str.contains "-" dir_name then "kebab-case"
  else "mixed".

Definition any_in (words : list string) (s : string) : bool :=
  existsb (λ x, Str.contains x s) words.

Definition purpose (dir_name : string) : list string :=
  let low := Str.lower dir_name in
  (if any_in ["test"; "spec"; "mock"] low then ["testing"] else [])
  ++ (if any_in ["util"; "helper"; "common"; "shared"] low
      then ["utilities"] else [])
  ++ (if any_in ["model"; "entity"; "domain"] low then ["domain"] else [])
  ++ (if any_in ["controller"; "handler"; "service"] low
      then ["business_logic"] else [])
  ++ (if any_in ["view"; "template"; "component"] low
      then ["presentation"] else []).

Definition _analyze_directory_patterns
    (dir_stats : list (string * DirStats)) (structure : Structure)
    : Structure :=
  foldl (λ structure '(dir_path, stats),
           if String.eqb dir_path "" then structure   (* Skip root directory *)
           else
             let dir_name := Path.basename dir_path in
             set_patterns
               (add_directory_pattern
                  {| dp_path := dir_path;
                     dp_name_pattern := name_pattern dir_name;
                     dp_purpose := purpose dir_name;
                     dp_languages := dir_languages stats;
                     dp_total_files := total_files stats;
                     dp_code_files := code_files stats;
                     dp_code_metrics := dir_patterns stats |})
               structure)
        structure dir_stats.

(** *** The traversal of [_analyze_project_structure]

    The project is a tree of directories; [read] is
    [open(file_path, 'r', encoding='utf-8').read()], by relative path.
    The handlers of the loop print a report of what they caught: this
    first embedding is the traversal on a standard output that takes
    every report, and what it builds is the structure the method returns
    whenever it returns; [Reporting] below has the reports.
    While the files of a directory are visited, the object
    [dir_stats[rel_root]] is threaded next to the structure, and stored
    under its key before the walk goes down: the key keeps the place in
    [dir_stats] it got when the directory was entered. *)

Inductive Tree :=
| Dir (files : list string) (dirs : list (string * Tree)).

Definition code_extensions : list string :=
  [ ".py"; ".js"; ".ts"; ".tsx"; ".kt"; ".php"; ".swift"; ".cpp"; ".c";
    ".h"; ".hpp"; ".cs"; ".csx"; ".java"; ".rb"; ".objc" ].

Definition config_suffixes : list string := [ ".json"; ".ini"; ".conf" ].

Definition fresh_stats : DirStats :=
  {| total_files := 0; code_files := 0; dir_languages := ∅;
     dir_patterns := {| m_classes := 0; m_functions := 0; m_imports := 0 |} |}.

Definition count_total (d : DirStats) : DirStats :=
  {| total_files := total_files d + 1; code_files := code_files d;
     dir_languages := dir_languages d; dir_patterns := dir_patterns d |}.

Definition count_code (lang : string) (d : DirStats) : DirStats :=
  {| total_files := total_files d; code_files := code_files d + 1;
     dir_languages := count_up lang (dir_languages d);
     dir_patterns := dir_patterns d |}.

(** [d[k] = v]: in place for a key already there, else at the end. *)
Fixpoint dict_set {A} (k : string) (v : A) (d : list (string * A))
    : list (string * A) :=
  match d with
  | [] => [(k, v)]
  | (k', v') :: d' =>
      if String.eqb k' k then (k, v) :: d' else (k', v') :: dict_set k v d'
  end.

Definition lift {A} (r : result A) : M A := λ s, (r, s).

(** The statements that close the body of the loop over files: the entry
    of the directory in [directory_structure]. *)
Definition note_directory (rel_root : string) (structure : Structure)
    : Structure :=
  if String.eqb rel_root "" then structure
  else set_directory rel_root
         (let parent := Path.dirname rel_root in
          if String.eqb parent "" then None else Some parent)
         structure.

(** The branch for configuration files.  In the source it opens with an
    [elif] placed in the block of the code-extension test, after the
    [try] statement of that block, where no [if] is left for it to
    continue; it is embedded where it stands, as a test of its own. *)
Definition classify_config (read : string → result string)
    (file rel_path : string) : M unit :=
  when (existsb (Str.endswith file) config_suffixes)
    (modify (add_config_file rel_path) >>
     let! content := lift (read rel_path) in
     patterns_append "configurations"
       [ ("file", Some rel_path); ("content", Some content) ]).

(** One turn of the loop over the files of a directory. *)
Definition visit_file (self : Self) (read : string → result string)
    (rel_root : string) (st : Structure * DirStats) (file : string)
    : Structure * DirStats :=
  let '(structure, stats) := st in
  let rel_path := Path.join rel_root file in
  (* Update directory statistics *)
  let stats := count_total stats in
  (* Analyze code files *)
  let file_ext := Str.lower (Path.splitext_ext file) in
  if Str.eqb_in file_ext code_extensions then
    let structure := add_file rel_path structure in
    (* Update language statistics *)
    let lang := get_language_from_ext self file_ext in
    let stats := count_code lang stats in
    let structure := count_language lang structure in
    match (let! content := lift (read rel_path) in
           modify (set_code_content rel_path content) >>
           _analyze_file self content rel_path lang) structure with
    | (Raise _, structure) => (structure, stats)        (* continue *)
    | (Ok _, structure) =>
        match classify_config read file rel_path structure with
        | (Raise _, structure) => (structure, stats)    (* continue *)
        | (Ok _, structure) => (note_directory rel_root structure, stats)
        end
    end
  else (note_directory rel_root structure, stats).

(** The directory names the walk does not enter. *)
Definition pruned (d : string) : bool :=
  any_in ["node_modules"; "venv"; ".git"; "__pycache__"; "build"; "dist"] d.

(** [os.walk], top down, with the body of its loop. *)
Fixpoint walk (self : Self) (read : string → result string)
    (rel_root : string) (t : Tree)
    (st : Structure * list (string * DirStats))
    : Structure * list (string * DirStats) :=
  match t with
  | Dir files dirs =>
      let '(structure, stats) :=
        foldl (visit_file self read rel_root) (st.1, fresh_stats) files in
      (fix subdirs (ds : list (string * Tree))
           (st : Structure * list (string * DirStats)) :=
         match ds with
         | [] => st
         | (d, sub) :: ds' =>
             subdirs ds'
               (if pruned d then st
                else walk self read (Path.join rel_root d) sub st)
         end) dirs (structure, dict_set rel_root stats st.2)
  end.

Definition _analyze_project_structure (self : Self)
    (read : string → result string) (project : Tree) : Structure :=
  let '(structure, dir_stats) :=
    walk self read "" project (empty_structure, []) in
  (* Analyze directory patterns *)
  _analyze_directory_patterns dir_stats structure.

End RulesGenerator.

(** ** rules_generator.py: the traversal and the reports of its handlers

    The two handlers of the loop over the files print what they caught
    before they go on with the next file.  [RulesGenerator.visit_file] is
    that loop on a standard output that takes every report.  Here [print]
    is the standard output as it is: it raises when the stream cannot
    encode the text or cannot be written to, nothing in the method catches
    what it raises, and the traversal then ends without a structure. *)

Module Reporting.
Import RulesGenerator.

Section Stdout.

Variable print : string → result unit.

(** The text of an exception, as an f-string formats it. *)
Variable str : exn → string.

(** The sign the reports begin with: U+26A0 and U+FE0F, in UTF-8. *)
Definition warning : string :=
  Str.of_chars (ascii_of_nat <$> [226; 154; 160; 239; 184; 143]).

(** The reports of the two handlers. *)
Definition file_report (rel_path : string) (e : exn) : string :=
  warning +:+ " Error reading file " +:+ rel_path +:+ ": " +:+ str e.

Definition config_report (rel_path : string) (e : exn) : string :=
  warning +:+ " Error reading config file " +:+ rel_path +:+ ": " +:+ str e.

(** [print(report); continue] *)
Definition reported {A} (report : string) (next : A) : result A :=
  match print report with
  | Ok _ => Ok next
  | Raise e => Raise e
  end.

(** One turn of the loop over the files of a directory. *)
Definition visit_file (self : Self) (read : string → result string)
    (rel_root : string) (st : Structure * DirStats) (file : string)
    : result (Structure * DirStats) :=
  let '(structure, stats) := st in
  let rel_path := Path.join rel_root file in
  (* Update directory statistics *)
  let stats := count_total stats in
  (* Analyze code files *)
  let file_ext := Str.lower (Path.splitext_ext file) in
  if Str.eqb_in file_ext code_extensions then
    let structure := add_file rel_path structure in
    (* Update language statistics *)
    let lang := get_language_from_ext self file_ext in
    let stats := count_code lang stats in
    let structure := count_language lang structure in
    match (let! content := lift (read rel_path) in
           modify (set_code_content rel_path content) >>
           _analyze_file self content rel_path lang) structure with
    | (Raise e, structure) =>
        reported (file_report rel_path e) (structure, stats)
    | (Ok _, structure) =>
        match classify_config read file rel_path structure with
        | (Raise e, structure) =>
            reported (config_report rel_path e) (structure, stats)
        | (Ok _, structure) => Ok (note_directory rel_root structure, stats)
        end
    end
  else Ok (note_directory rel_root structure, stats).

(** The loop over the files of a directory. *)
Fixpoint visit_files (self : Self) (read : string → result string)
    (rel_root : string) (st : Structure * DirStats) (files : list string)
    : result (Structure * DirStats) :=
  match files with
  | [] => Ok st
  | file :: files' =>
      match visit_file self read rel_root st file with
      | Ok st' => visit_files self read rel_root st' files'
      | Raise e => Raise e
      end
  end.

(** [os.walk], top down, with the body of its loop. *)
Fixpoint walk (self : Self) (read : string → result string)
    (rel_root : string) (t : Tree)
    (st : Structure * list (string * DirStats))
    : result (Structure * list (string * DirStats)) :=
  match t with
  | Dir files dirs =>
      match visit_files self read rel_root (st.1, fresh_stats) files with
      | Raise e => Raise e
      | Ok (structure, stats) =>
          (fix subdirs (ds : list (string * Tree))
               (st : result (Structure * list (string * DirStats))) :=
             match ds with
             | [] => st
             | (d, sub) :: ds' =>
                 subdirs ds'
                   match st with
                   | Raise e => Raise e
                   | Ok st =>
                       if pruned d then Ok st
                       else walk self read (Path.join rel_root d) sub st
                   end
             end) dirs (Ok (structure, dict_set rel_root stats st.2))
      end
  end.

Definition _analyze_project_structure (self : Self)
    (read : string → result string) (project : Tree) : result Structure :=
  match walk self read "" project (empty_structure, []) with
  | Ok (structure, dir_stats) =>
      (* Analyze directory patterns *)
      Ok (_analyze_directory_patterns dir_stats structure)
  | Raise e => Raise e
  end.

End Stdout.

End Reporting.

(** ** analyzers.py *)

Module Analyzers.

Section Config.

(** The constants of [config], a module that is not among the sources,
    the compiler of [re] on pattern text, and the file system. *)
Variables BINARY_EXTENSIONS NON_CODE_EXTENSIONS CODE_EXTENSIONS
  : list string.
Variable IGNORED_NAMES : list string.
Variable FUNCTION_PATTERNS : list (string * string).
Variable IGNORED_KEYWORDS : list string.
Variable re_compile : string → Re.flags → result Re.Pattern.
Variable read : string → result string.

(** The standard output: [print(text)] raises when the stream cannot
    encode the text or cannot be written to.  [str] is the text of an
    exception, as an f-string formats it. *)
Variable print : string → result unit.
Variable str : exn → string.

Definition is_binary_file (filename : string) : bool :=
  let ext := Str.lower (Path.splitext_ext filename) in
  (* Binary extensions *)
  if Str.eqb_in ext BINARY_EXTENSIONS then true
  (* Documentation and text files *)
  else Str.eqb_in ext NON_CODE_EXTENSIONS.

Definition should_ignore_file (name : string) : bool :=
  Str.eqb_in name IGNORED_NAMES || Str.startswith name ".".

(** [next(filter(None, match.groups()), None)] *)
Definition first_group (m : Re.Match) : option string :=
  head (filter (λ v, truthy v) (Re.groups m)) ≫= id.

(** The loop over the matches of one pattern. *)
Definition collect (matches : list Re.Match)
    (functions : list (string * string)) : list (string * string) :=
  foldl (λ functions m,
           match first_group m with
           | Some func_name =>
               if String.eqb func_name ""
                  || Str.eqb_in (Str.lower func_name) IGNORED_KEYWORDS
               then functions
               else functions ++ [(func_name, "Function detected")]
           | None => functions
           end)
        functions matches.

(** One turn of the loop over the patterns: a pattern [re] refuses is
    skipped. *)
Definition try_pattern (content : string)
    (functions : list (string * string)) (entry : string * string)
    : list (string * string) :=
  let '(pattern_name, pattern) := entry in
  match re_compile pattern (Re.Flags true true false) with
  | Ok p => collect (Re.finditer p content) functions
  | Raise _ => functions      (* continue *)
  end.

Definition detect (function_patterns : list (string * string))
    (content : string) : list (string * string) :=
  foldl (try_pattern content) [] function_patterns.

(** The body of the outer [try] of [analyze_file_content]. *)
Definition analyze_file_content_body (file_path : string)
    : result (list (string * string) * nat) :=
  (* Skip binary and non-code files *)
  if is_binary_file file_path then Ok ([], 0)
  else
    match read file_path with
    | Raise e => Raise e
    | Ok content =>
        (* Skip files that don't look like actual code files *)
        let ext := Str.lower (Path.splitext_ext file_path) in
        if negb (Str.eqb_in ext CODE_EXTENSIONS) then Ok ([], 0)
        else Ok (detect FUNCTION_PATTERNS content,
                 Str.count_lines content)
    end.

(** [f"Error analyzing file {file_path}: {e}"] *)
Definition report (file_path : string) (e : exn) : string :=
  "Error analyzing file " +:+ file_path +:+ ": " +:+ str e.

(** The handler of the outer [try] prints its report before it returns;
    nothing catches what this [print] raises. *)
Definition analyze_file_content (file_path : string)
    : result (list (string * string) * nat) :=
  match analyze_file_content_body file_path with
  | Ok r => Ok r
  | Raise e =>                (* except Exception as e *)
      match print (report file_path e) with
      | Ok _ => Ok ([], 0)
      | Raise e' => Raise e'
      end
  end.

End Config.

Definition analyze_web_patterns (content rel_path : string)
    (compiled_patterns : Catalog) : M unit :=
  (let! p := rule compiled_patterns "common" "interface" in
   for_each (Re.finditer p content) (λ m,
     let! name := group m 1 in
     let! base := group m 2 in
     patterns_append "class_patterns"
       [ ("name", name); ("type", Some "interface/type");
         ("inheritance", Some (strip_or_empty base));
         ("file", Some rel_path) ])) >>
  (let! p := rule compiled_patterns "common" "jsx_component" in
   for_each (Re.finditer p content) (λ m,
     let! component_name := group m 1 in
     match component_name with
     | None => raise (TypeError "'NoneType' object is not subscriptable")
     | Some s =>
         match Str.chars s with
         | [] => raise (IndexError "string index out of range")
         | c :: _ =>
             when (Chr.is_upper c)
               (patterns_append "class_patterns"
                  [ ("name", component_name);
                    ("type", Some "react_component");
                    ("file", Some rel_path) ])
         end
     end)) >>
  (let! p := rule compiled_patterns "common" "react_hook" in
   for_each (Re.finditer p content) (λ hook,
     let! name := group hook 0 in
     patterns_append "function_patterns"
       [ ("name", name); ("type", Some "react_hook");
         ("file", Some rel_path) ])) >>
  when (existsb (λ x, Str.contains x rel_path) ["pages/"; "app/"])
    ((let! p := rule compiled_patterns "common" "next_api" in
      for_each (Re.finditer p content) (λ method,
        let! name := group method 0 in
        patterns_append "function_patterns"
          [ ("name", name); ("type", Some "next_data_fetching");
            ("file", Some rel_path) ])) >>
     (let! p := rule compiled_patterns "common" "next_page" in
      match Re.search p rel_path with
      | Some page_match =>
          let! route := group_named page_match "route" in
          let! nested := group_named page_match "nested" in
          patterns_append "code_organization"
            [ ("type", Some "next_page"); ("route", route);
              ("nested", nested); ("file", Some rel_path) ]
      | None => ret tt
      end) >>
     (let! p := rule compiled_patterns "common" "next_layout" in
      when (bool_decide (is_Some (Re.search p rel_path)))
        (patterns_append "code_organization"
           [ ("type", Some "next_layout"); ("file", Some rel_path) ]))) >>
  (let! p := rule compiled_patterns "common" "styled_component" in
   for_each (Re.finditer p content) (λ m,
     let! element := group_named m "element" in
     patterns_append "code_organization"
       [ ("type", Some "styled_component");
         ("element", Some (or_default "css" element));
         ("file", Some rel_path) ])).

Definition analyze_unity_patterns (content rel_path : string)
    (compiled_patterns : Catalog) : M unit :=
  (let! p := rule compiled_patterns "unity" "component" in
   for_each (Re.finditer p content) (λ m,
     let! name := group m 0 in
     patterns_append "class_patterns"
       [ ("name", name); ("type", Some "unity_component");
         ("file", Some rel_path) ])) >>
  (let! p := rule compiled_patterns "unity" "lifecycle" in
   for_each (Re.finditer p content) (λ m,
     let! name := group m 0 in
     patterns_append "function_patterns"
       [ ("name", name); ("type", Some "unity_lifecycle");
         ("file", Some rel_path) ])) >>
  (let! p := rule compiled_patterns "unity" "attribute" in
   for_each (Re.finditer p content) (λ m,
     let! name := group m 0 in
     let! params := group_named m "params" in
     patterns_append "code_organization"
       [ ("type", Some "unity_attribute"); ("name", name);
         ("parameters", Some (or_default "" params));
         ("file", Some rel_path) ])) >>
  (let! p := rule compiled_patterns "unity" "type" in
   for_each (Re.finditer p content) (λ m,
     let! name := group m 0 in
     patterns_append "class_patterns"
       [ ("name", name); ("type", Some "unity_type");
         ("file", Some rel_path) ])) >>
  (let! p := rule compiled_patterns "unity" "event" in
   for_each (Re.finditer p content) (λ m,
     let! event_type := group_named m "type" in
     let! name := group_named m "name" in
     patterns_append "code_organization"
       [ ("type", Some "unity_event"); ("event_type", event_type);
         ("name", name); ("file", Some rel_path) ])) >>
  (let! p := rule compiled_patterns "unity" "field" in
   for_each (Re.finditer p content) (λ m,
     let! field_type := group_named m "type" in
     let! name := group_named m "name" in
     patterns_append "code_organization"
       [ ("type", Some "unity_field"); ("field_type", field_type);
         ("name", name); ("file", Some rel_path) ])).

(** The chain of tests of [analyze_directory_patterns] on a directory
    name. *)
Definition name_pattern (dir_name : string) : string :=
  if Str.islower dir_name then "lowercase"
  else if Str.isupper dir_name then "uppercase"
  else if Str.contains "_" dir_name then "snake_case"
  else if Str.contains "-" dir_name then "kebab-case"
  else "mixed".

Definition any_in (words : list string) (s : string) : bool :=
  existsb (λ x, Str.contains x s) words.

Definition purpose (dir_name : string) : list string :=
  let low := Str.lower dir_name in
  (if any_in ["test"; "spec"; "mock"] low then ["testing"] else [])
  ++ (if any_in ["util"; "helper"; "common"; "shared"] low
      then ["utilities"] else [])
  ++ (if any_in ["model"; "entity"; "domain"] low then ["domain"] else [])
  ++ (if any_in ["controller"; "handler"; "service"] low
      then ["business_logic"] else [])
  ++ (if any_in ["view"; "template"; "component"] low
      then ["presentation"] else []).

Definition analyze_directory_patterns
    (dir_stats : list (string * DirStats)) (structure : Structure)
    : Structure :=
  foldl (λ structure '(dir_path, stats),
           if String.eqb dir_path "" then structure
           else
             let dir_name := Path.basename dir_path in
             set_patterns
               (add_directory_pattern
                  {| dp_path := dir_path;
                     dp_name_pattern := name_pattern dir_name;
                     dp_purpose := purpose dir_name;
                     dp_languages := dir_languages stats;
                     dp_total_files := total_files stats;
                     dp_code_files := code_files stats;
                     dp_code_metrics := dir_patterns stats |})
               structure)
        structure dir_stats.

End Analyzers.

(** ** Words, as [str.split] and [str.join] see them *)

Module Words.

(** The words of a text, the current one being read, in reverse, in
    [word]. *)
Fixpoint split_chars (s : list ascii) (word : list ascii)
    : list (list ascii) :=
  match s with
  | [] => match word with [] => [] | _ => [rev word] end
  | c :: s' =>
      if Chr.is_space c then
        match word with
        | [] => split_chars s' []
        | _ => rev word :: split_chars s' []
        end
      else split_chars s' (c :: word)
  end.

(** [s.split()]: the maximal runs of characters that are not white
    space. *)
Definition split (s : string) : list string :=
  Str.of_chars <$> split_chars (Str.chars s) [].

(** [sep.join(l)] *)
Fixpoint join (sep : string) (l : list string) : string :=
  match l with
  | [] => ""
  | [w] => w
  | w :: l' => w +:+ sep +:+ join sep l'
  end.


End Words.

(** ** rules_generator.py: [_generate_project_description] *)

Module Description.


(** [d[key]] for a record *)
Definition item (key : string) (d : record) : result (option string) :=
  match dict_get key d with
  | Some v => Ok v
  | None => Raise (KeyError key)
  end.





(** [[c['name'] for c in cs]], as [', '.join] takes it: every name has to
    be there, and to be a string. *)
Fixpoint names (cs : list record) : result (list string) :=
  match cs with
  | [] => Ok []
  | c :: cs' =>
      match item "name" c with
      | Raise e => Raise e
      | Ok v =>
          match names cs' with
          | Raise e => Raise e
          | Ok l =>
              match v with
              | Some n => Ok (n :: l)
              | None =>
                  Raise (TypeError
                    "sequence item: expected str instance, NoneType found")
              end
          end
      end
  end.



(** [chr(10)] *)
Definition newline : string := String Chr.newline "".




Section Session.

(** [self.chat_session.send_message(prompt).text], or the exception of the
    call. *)
Variable send_message : string → result string.


End Session.

End Description.

(** ** generator/prompts/ai_rules_prompt.py: [retry_on_429] *)

Module Retry.

Section Wrapper.
Context {A E : Type}.

(** [str(e)] for the exceptions of the decorated function. *)
Variable str : E → string.

(** The arguments of the decorator, taken as natural numbers. *)
Variables max_retries delay : nat.

(** The decorated function, called with the arguments of the wrapper:
    [func i] is what the call number [i] does, return or raise. *)
Variable func : nat → A + E.






End Wrapper.

End Retry.

(** ** generator/prompts/ai_rules_prompt.py: the copy of the generator

    After [get_ai_rules_prompt] the file holds an earlier copy of the
    module of the generator, with the catalog as the class attribute
    [PATTERNS], the same text as generator/patterns.py, and with the
    methods [_analyze_file], [_analyze_web_patterns],
    [_analyze_unity_patterns] and [_analyze_directory_patterns] as in
    rules_generator.py, statement for statement.  What the copy has of its
    own is embedded here. *)

Module GeneratorCopy.
Import RulesGenerator.


(** [re.compile(pattern)]: no flag is given. *)
Definition re_compile (pattern : Re.regex) : Re.Pattern :=
  Re.Compiled pattern Re.no_flags.

(** Every value of the catalog is a dictionary; the branch for a value that
    is a pattern is never taken. *)
Definition _compile_patterns
    (PATTERNS : list (string * list (string * Re.regex))) : Catalog :=
  map (λ '(category, patterns),
         (category,
          (* Handle nested patterns (import, class, function) *)
          if Str.eqb_in category ["import"; "class"; "function"] then
            map (λ '(lang_group, pattern), (lang_group, re_compile pattern))
                patterns
          (* Handle common patterns *)
          else if String.eqb category "common" then
            map (λ '(pattern_name, pattern),
                   (pattern_name, re_compile pattern)) patterns
          (* Handle Unity patterns *)
          else if String.eqb category "unity" then
            map (λ '(pattern_name, pattern),
                   (pattern_name, re_compile pattern)) patterns
          else []))
      PATTERNS.



Definition lang_map : list (string * string) :=
  [ (".py", "Python"); (".js", "JavaScript"); (".ts", "TypeScript");
    (".tsx", "TypeScript/React"); (".kt", "Kotlin"); (".php", "PHP");
    (".swift", "Swift"); (".cpp", "C++"); (".c", "C");
    (".h", "C/C++ Header"); (".hpp", "C++ Header"); (".cs", "C#");
    (".csx", "C# Script"); (".java", "Java"); (".rb", "Ruby");
    (".objc", "Objective-C") ].

(** [lang_map.get(ext, 'Unknown')] *)
Definition _get_language_from_ext (ext : string) : string :=
  default "Unknown" (dict_get ext lang_map).

(** The fields of [self] the analysis reads, as [__init__] and the class
    set them. *)
Definition self : Self :=
  {| compiled_patterns := _compile_patterns Patterns.PATTERNS;
     get_language_from_ext := _get_language_from_ext |}.

Section Traversal.

(** [self._should_exclude(path)], by relative path: the answer of the
    [pathspec] library for the patterns loaded at construction. *)
Variable _should_exclude : string → bool.
Variable read : string → result string.

(** One turn of the loop over the files kept of a directory. *)
Definition visit_file (rel_root : string) (st : Structure * DirStats)
    (file : string) : Structure * DirStats :=
  let '(structure, stats) := st in
  let rel_path := Path.join rel_root file in
  (* Update directory statistics *)
  let stats := count_total stats in
  (* Analyze code files *)
  let file_ext := Str.lower (Path.splitext_ext file) in
  if Str.eqb_in file_ext code_extensions then
    let structure := add_file rel_path structure in
    (* Update language statistics *)
    let lang := _get_language_from_ext file_ext in
    let stats := count_code lang stats in
    let structure := count_language lang structure in
    (((let! content := lift (read rel_path) in
       modify (set_code_content rel_path content) >>
       _analyze_file self content rel_path lang)
        structure).2,                               (* continue *)
     stats)
  (* Classify config files *)
  else if existsb (Str.endswith file) config_suffixes then
    let structure := add_config_file rel_path structure in
    (((let! content := lift (read rel_path) in
       patterns_append "configurations"
         [ ("file", Some rel_path); ("content", Some content) ])
        structure).2,                               (* continue *)
     stats)
  else (structure, stats).

(** The second walk of the method, with the body of its loop; the first
    walk only counts the files for the progress bar. *)
Fixpoint walk (rel_root : string) (t : Tree)
    (st : Structure * list (string * DirStats))
    : Structure * list (string * DirStats) :=
  match t with
  | Dir files dirs =>
      let files :=
        List.filter (λ f, negb (_should_exclude (Path.join rel_root f)))
                    files in
      let '(structure, stats) :=
        foldl (visit_file rel_root) (st.1, fresh_stats) files in
      (* Add directory structure information *)
      let structure := note_directory rel_root structure in
      (fix subdirs (ds : list (string * Tree))
           (st : Structure * list (string * DirStats)) :=
         match ds with
         | [] => st
         | (d, sub) :: ds' =>
             subdirs ds'
               (if _should_exclude (Path.join rel_root d) then st
                else walk (Path.join rel_root d) sub st)
         end) dirs (structure, dict_set rel_root stats st.2)
  end.

Definition _analyze_project_structure (project : Tree) : Structure :=
  let '(structure, dir_stats) := walk "" project (empty_structure, []) in
  (* Analyze directory patterns *)
  _analyze_directory_patterns dir_stats structure.

End Traversal.

End GeneratorCopy.

(** * Statements

    The values the statements are about, and the words they use. *)

(** A generator over the compiled catalog. *)
Definition generator (f : Re.flags) (lang_of : string → string)
    : RulesGenerator.Self :=
  {| RulesGenerator.compiled_patterns := compile_catalog f Patterns.PATTERNS;
     RulesGenerator.get_language_from_ext := lang_of |}.

Definition foo_py : string :=
  "def foo(a, b):" +:+ String Chr.newline "    pass".

Definition player_cs : string :=
  "public class Player : MonoBehaviour { void Update() {} }".

Definition route_page : string := "pages/blog/[id].tsx".

Definition class_expression_ts : string := "const Foo = class { }".

(** [keeps proj m]: whatever [m] returns or raises, the part [proj] of the
    structure is as it was. *)
Definition keeps {A B} (proj : Structure → B) (m : M A) : Prop :=
  ∀ s, proj (m s).2 = proj s.

(** [returns m]: [m] never raises. *)
Definition returns {A} (m : M A) : Prop := ∀ s, ∃ a, (m s).1 = Ok a.

(** [raises_keeping e proj m]: [m] always raises [e], and leaves [proj]
    alone. *)
Definition raises_keeping {A B} (e : exn) (proj : Structure → B) (m : M A)
    : Prop :=
  ∀ s, (m s).1 = Raise e ∧ proj (m s).2 = proj s.

(** The records of the route rule. *)
Definition is_next_page (r : record) : bool :=
  match dict_get "type" r with
  | Some (Some t) => String.eqb t "next_page"
  | _ => false
  end.

Definition next_pages (s : Structure) : list record :=
  List.filter is_next_page (code_organization (patterns s)).

(** *** What a pattern is sure to capture *)

(** [consumes r]: [r] cannot match the empty string. *)
Fixpoint consumes (r : Re.regex) : bool :=
  match r with
  | Re.Lit _ | Re.Dot | Re.Set_ _ _ => true
  | Re.Cat r1 r2 => consumes r1 || consumes r2
  | Re.Alt r1 r2 => consumes r1 && consumes r2
  | Re.Plus _ r1 | Re.Group _ r1 => consumes r1
  | _ => false
  end.

Definition among (i : nat) (G : list nat) : bool := existsb (Nat.eqb i) G.

(** [groups_consume G base r]: the groups of [r] numbered in [G] cannot
    match the empty string; [base] groups open before [r]. *)
Fixpoint groups_consume (G : list nat) (base : nat) (r : Re.regex) : bool :=
  match r with
  | Re.Cat r1 r2 | Re.Alt r1 r2 =>
      groups_consume G base r1 && groups_consume G (base + Re.ngroups r1) r2
  | Re.Star _ r1 | Re.Plus _ r1 | Re.Opt _ r1 | Re.Look _ r1 =>
      groups_consume G base r1
  | Re.Group _ r1 =>
      (negb (among (S base) G) || consumes r1)
      && groups_consume G (S base) r1
  | _ => true
  end.

(** [binds G base r]: every match of [r] closes a group numbered in [G]. *)
Fixpoint binds (G : list nat) (base : nat) (r : Re.regex) : bool :=
  match r with
  | Re.Cat r1 r2 => binds G base r1 || binds G (base + Re.ngroups r1) r2
  | Re.Alt r1 r2 => binds G base r1 && binds G (base + Re.ngroups r1) r2
  | Re.Plus _ r1 => binds G base r1
  | Re.Group _ r1 => among (S base) G || binds G (S base) r1
  | _ => false
  end.

(** A cursor on the text [whole]. *)
Definition on_text (whole : list ascii) (cu : Re.cursor) : Prop :=
  Re.c_rest cu = drop (Re.c_pos cu) whole ∧ Re.c_pos cu ≤ length whole.

(** Some group numbered in [G] is closed on a non-empty span of [whole]. *)
Definition bound (whole : list ascii) (G : list nat)
    (caps : list (nat * (nat * nat))) : Prop :=
  ∃ i a b, among i G = true ∧ Re.find_cap i caps = Some (a, b)
           ∧ a < b ∧ b ≤ length whole.

(** What a continuation reached from [cu] sees. *)
Definition later (whole : list ascii) (G : list nat) (cu cu' : Re.cursor)
    : Prop :=
  on_text whole cu' ∧ Re.c_pos cu ≤ Re.c_pos cu'
  ∧ (bound whole G (Re.c_caps cu) → bound whole G (Re.c_caps cu')).

(** The numbers of the groups whose name begins with [module]. *)
Definition module_groups (r : Re.regex) : list nat :=
  (List.filter (λ ni : string * nat, wants_module ni.1)
               (Re.groupindex r)).*2.

(** The import rules of the three families. *)
Definition import_rules : list Re.regex :=
  [Patterns.import_python; Patterns.import_web; Patterns.import_system].

(** The modules a pattern finds in a text: for each match, in the order of
    the matches, the first non-empty capture whose name begins with
    [module]; a match without one gives none. *)
Definition modules_of (p : Re.Pattern) (content : string) : list string :=
  omap (λ m, first_capture wants_module (Re.groupdict m))
       (Re.finditer p content).

(** What the import branch writes. *)
Definition import_part (s : Structure) : gmap string bool * list string :=
  (dependencies s, imports (patterns s)).

(** The records only the Unity analysis writes. *)
Definition platform_types : list string :=
  [ "unity_component"; "unity_lifecycle"; "unity_attribute"; "unity_type";
    "unity_event"; "unity_field" ].

Definition is_platform (r : record) : bool :=
  match dict_get "type" r with
  | Some (Some t) => Str.eqb_in t platform_types
  | _ => false
  end.

Definition platform_records (s : Structure) : list record :=
  List.filter is_platform
    (class_patterns (patterns s) ++ function_patterns (patterns s)
     ++ code_organization (patterns s)).

(** The extension of a file and the two tests on it, as [visit_file] makes
    them. *)
Definition file_ext (file : string) : string :=
  Str.lower (Path.splitext_ext file).

Definition is_code_file (file : string) : bool :=
  Str.eqb_in (file_ext file) RulesGenerator.code_extensions.

Definition is_config_file (file : string) : bool :=
  existsb (Str.endswith file) RulesGenerator.config_suffixes.

(** What the configuration branch writes. *)
Definition config_part (s : Structure) : list string * list record :=
  (config_files s, configurations (patterns s)).

(** A file system where no file can be read, and a language table. *)
Definition unreadable : string → result string :=
  λ _, Raise UnicodeDecodeError.

Definition extension_language (ext : string) : string :=
  if String.eqb ext ".py" then "python" else "unknown".

Definition tsx_language (ext : string) : string :=
  if String.eqb ext ".tsx" then "typescript" else "unknown".

(** The first match of a pattern in a text that has one. *)
Definition first_match (p : Re.Pattern) (s : string) : Re.Match :=
  default (Re.MkMatch p (Str.chars s) 0 0 []) (Re.search p s).

(** The match of the import rule on [import os], and the match of the
    class rule of the web family on a class expression. *)
Definition os_import : Re.Match :=
  first_match (Re.Compiled Patterns.import_python (Re.Flags true false false))
              "import os".

Definition class_expression_match : Re.Match :=
  first_match (Re.Compiled Patterns.class_web Re.no_flags)
              class_expression_ts.

(** The classification of directory names as the specification words it:
    the rules in their order of priority, the first that holds wins. *)
Definition naming_rules : list ((string → bool) * string) :=
  [ (Str.islower, "lowercase"); (Str.isupper, "uppercase");
    (Str.contains "_", "snake_case"); (Str.contains "-", "kebab-case") ].

Fixpoint first_rule (rules : list ((string → bool) * string))
    (otherwise name : string) : string :=
  match rules with
  | [] => otherwise
  | (holds, label) :: rules' =>
      if holds name then label else first_rule rules' otherwise name
  end.

Definition classification_spec : string → string :=
  first_rule naming_rules "mixed".

(** What every function [analyze_file_content] reports satisfies. *)
Definition reportable (IGNORED_KEYWORDS : list string)
    (entry : string * string) : Prop :=
  entry.1 ≠ "" ∧ Str.eqb_in (Str.lower entry.1) IGNORED_KEYWORDS = false.

(** [field_by_name c]: in the compiled patterns [c], the groups named
    [type] and [name] of the Unity field rule are its groups 1 and 2. *)
Definition field_by_name (c : Catalog) : Prop :=
  ∀ rules p,
    dict_get "unity" c = Some rules → dict_get "field" rules = Some p →
    Re.index_of "type" (Re.groupindex (Re.p_regex p)) = Some 1
    ∧ Re.index_of "name" (Re.groupindex (Re.p_regex p)) = Some 2.

(** The compiled catalog with another pattern for the Unity field rule,
    and a field rule whose two groups have no name: a type, white space,
    a name and a semicolon. *)
Definition with_field_rule (p : Re.Pattern) (c : Catalog) : Catalog :=
  map (λ '(bucket, rules),
         (bucket,
          if String.eqb bucket "unity" then
            map (λ '(name, q), (name, if String.eqb name "field" then p else q))
                rules
          else rules)) c.

Definition unnamed_field : Re.Pattern :=
  Re.Compiled
    (Re.cat [ Re.Group None (Re.plus Re.word); Re.plus Re.ws;
              Re.Group None (Re.plus Re.word); Re.Lit ";" ])
    Re.no_flags.

Definition unnamed_fields : Catalog :=
  with_field_rule unnamed_field (compile_catalog Re.no_flags Patterns.PATTERNS).

(** Text of the ASCII range, which every standard output encodes. *)
Definition ascii_text (s : string) : bool :=
  forallb (λ c, Chr.code c <? 128) (Str.chars s).

(** A small configuration for [analyze_file_content]: one pattern [re]
    accepts, one it refuses, and one readable file; a standard output that
    takes every text, and one that encodes to ASCII. *)
Module Sample.
Definition BINARY_EXTENSIONS : list string := [".png"].
Definition NON_CODE_EXTENSIONS : list string := [".md"].
Definition CODE_EXTENSIONS : list string := [".py"].
Definition FUNCTION_PATTERNS : list (string * string) :=
  [ ("broken", "def ("); ("python", "def (\w+)") ].
Definition IGNORED_KEYWORDS : list string := ["if"; "while"].
Definition re_compile (pattern : string) (f : Re.flags)
    : result Re.Pattern :=
  if String.eqb pattern "def (\w+)" then
    Ok (Re.Compiled (Re.cat [Re.str "def "; Re.Group None (Re.plus Re.word)])
                    f)
  else Raise (ReError "missing ), unterminated subpattern").
Definition read (file_path : string) : result string :=
  if String.eqb file_path "a.py" then Ok "def foo(): pass"
  else Raise (OSError "No such file or directory").
Definition print (text : string) : result unit := Ok tt.
Definition ascii_print (text : string) : result unit :=
  if ascii_text text then Ok tt else Raise UnicodeEncodeError.
Definition str (e : exn) : string :=
  match e with
  | IndexError msg | KeyError msg | TypeError msg | OSError msg
  | ReError msg => msg
  | UnicodeDecodeError => "invalid start byte"
  | UnicodeEncodeError => "ordinal not in range(128)"
  end.
Definition analyze (print : string → result unit)
    : string → result (list (string * string) * nat) :=
  Analyzers.analyze_file_content BINARY_EXTENSIONS NON_CODE_EXTENSIONS
    CODE_EXTENSIONS FUNCTION_PATTERNS IGNORED_KEYWORDS re_compile read
    print str.
(** A file name with a letter outside the ASCII range (code 233). *)
Definition accented_py : string := "caf" +:+ String (ascii_of_nat 233) ".py".
End Sample.

(** ** Words of the statements about the rest of the code *)

(** The languages whose files get the web analysis, the paths for which
    it looks at the Next.js rules, and whether the route rule matches a
    path. *)
Definition is_web (language : string) : bool :=
  Str.eqb_in language ["typescript"; "javascript"].

Definition in_pages (rel_path : string) : bool :=
  existsb (λ x, Str.contains x rel_path) ["pages/"; "app/"].

Definition route_matches (f : Re.flags) (rel_path : string) : bool :=
  bool_decide (is_Some (Re.search (Re.Compiled Patterns.next_page f) rel_path)).

(** [outcome m r]: [m] always ends with [r]. *)
Definition outcome {A} (m : M A) (r : result A) : Prop := ∀ s, (m s).1 = r.

(** [preserves P m]: what [m] leaves of a structure that satisfies [P]
    satisfies [P], whether [m] returns or raises. *)
Definition preserves {A} (P : Structure → Prop) (m : M A) : Prop :=
  ∀ s, P s → P (m s).2.

(** The records the analysis of the files writes. *)
Definition records (s : Structure) : list record :=
  class_patterns (patterns s) ++ function_patterns (patterns s)
  ++ code_organization (patterns s).

(** Every record names a file whose content is kept, and the contents kept
    are those read from listed files. *)
Definition well_filed (read : string → result string) (s : Structure)
    : Prop :=
  (∀ r, r ∈ records s →
        ∃ p, dict_get "file" r = Some (Some p)
             ∧ is_Some (code_contents s !! p))
  ∧ (∀ p content, code_contents s !! p = Some content →
                  p ∈ files s ∧ read p = Ok content).

(** The same while the file [p] is analysed. *)
Definition filing (read : string → result string) (p : string)
    (s : Structure) : Prop :=
  well_filed read s ∧ is_Some (code_contents s !! p).

(** What the analysis of a file never touches. *)
Definition aside (s : Structure)
    : list string * gmap string nat * list string * gmap string string
      * gmap string (option string) * list record * list DirPattern :=
  (files s, languages s, config_files s, code_contents s,
   directory_structure s, configurations (patterns s),
   directory_patterns (patterns s)).

(** What the analysis of the files writes to. *)
Definition findings (s : Structure)
    : gmap string bool * list string * list record * list record
      * list record :=
  (dependencies s, imports (patterns s), class_patterns (patterns s),
   function_patterns (patterns s), code_organization (patterns s)).

(** The dependencies are the imports, and no import is empty. *)
Definition imports_match (s : Structure) : Prop :=
  (∀ m b, dependencies s !! m = Some b
          ↔ b = true ∧ m ∈ imports (patterns s))
  ∧ "" ∉ imports (patterns s).

(** A property for the records of each of the three lists. *)
Definition each_record (Pc Pf Po : record → Prop) (s : Structure) : Prop :=
  Forall Pc (class_patterns (patterns s))
  ∧ Forall Pf (function_patterns (patterns s))
  ∧ Forall Po (code_organization (patterns s)).

(** A record of a React component carries a name of the ASCII range with
    an upper-case initial. *)
Definition capitalised (r : record) : Prop :=
  dict_get "type" r = Some (Some "react_component") →
  ∃ c rest, dict_get "name" r = Some (Some (String c rest))
            ∧ Chr.is_upper c = true
            ∧ ascii_text (String c rest) = true.

Definition any_record (r : record) : Prop := True.

(** The types of the records of the three lists. *)
Definition class_types : list string :=
  [ "class"; "interface/type"; "react_component"; "unity_component";
    "unity_type" ].

Definition function_types : list string :=
  [ "function"; "react_hook"; "next_data_fetching"; "unity_lifecycle" ].

Definition organization_types : list string :=
  [ "next_layout"; "styled_component"; "unity_attribute"; "unity_event";
    "unity_field" ].

Definition typed_of (types : list string) (r : record) : Prop :=
  ∃ t, dict_get "type" r = Some (Some t) ∧ t ∈ types.

Definition named_of (types : list string) (r : record) : Prop :=
  (∃ name, dict_get "name" r = Some (Some name)) ∧ typed_of types r.

Definition of_kinds : Structure → Prop :=
  each_record (named_of class_types) (named_of function_types)
              (typed_of organization_types).

(** The code files of a project, by relative path, in the order of the
    walk. *)
Fixpoint listing (rel_root : string) (t : RulesGenerator.Tree) : list string :=
  match t with
  | RulesGenerator.Dir files dirs =>
      (Path.join rel_root <$> List.filter is_code_file files)
      ++ flat_map (λ '(d, sub),
                     if RulesGenerator.pruned d then []
                     else listing (Path.join rel_root d) sub) dirs
  end.

(** The files with a code extension or the end of a configuration file,
    by relative path, in the order of the walk: in the walk of
    rules_generator.py, and in the walk of the copy, which leaves out what
    [excluded] refuses. *)
Definition is_source_file (file : string) : bool :=
  is_code_file file || is_config_file file.

Fixpoint source_listing (rel_root : string) (t : RulesGenerator.Tree)
    : list string :=
  match t with
  | RulesGenerator.Dir files dirs =>
      (Path.join rel_root <$> List.filter is_source_file files)
      ++ flat_map (λ '(d, sub),
                     if RulesGenerator.pruned d then []
                     else source_listing (Path.join rel_root d) sub) dirs
  end.

Fixpoint kept_listing (excluded : string → bool) (rel_root : string)
    (t : RulesGenerator.Tree) : list string :=
  match t with
  | RulesGenerator.Dir files dirs =>
      (Path.join rel_root <$>
         List.filter (λ f, negb (excluded (Path.join rel_root f))
                           && is_source_file f) files)
      ++ flat_map (λ '(d, sub),
                     if excluded (Path.join rel_root d) then []
                     else kept_listing excluded (Path.join rel_root d) sub)
                  dirs
  end.

(** The sum of the counters of a dictionary. *)
Definition total (d : gmap string nat) : nat :=
  map_fold (λ _ n acc, n + acc) 0 d.

(** What the traversal registers of a file before it reads it. *)
Definition registered (s : Structure) : list string * gmap string nat :=
  (files s, languages s).

(** [os.path.dirname(d) or None] *)
Definition parent_of (d : string) : option string :=
  let parent := Path.dirname d in
  if String.eqb parent "" then None else Some parent.

(** The entry of a directory in [directory_patterns]. *)
Definition directory_entry (e : string * DirStats) : DirPattern :=
  {| dp_path := e.1;
     dp_name_pattern := RulesGenerator.name_pattern (Path.basename e.1);
     dp_purpose := RulesGenerator.purpose (Path.basename e.1);
     dp_languages := dir_languages e.2;
     dp_total_files := total_files e.2;
     dp_code_files := code_files e.2;
     dp_code_metrics := dir_patterns e.2 |}.

Definition below_root (e : string * DirStats) : bool :=
  negb (String.eqb e.1 "").

(** The entries of [directory_structure] are those of directories that
    have statistics, the root apart, each with its parent. *)
Definition noted (keys : list string) (s : Structure) : Prop :=
  ∀ d v, directory_structure s !! d = Some v →
         d ≠ "" ∧ v = parent_of d ∧ d ∈ keys.

(** The purposes of a directory, in the order the tests are made. *)
Definition purpose_tags : list string :=
  [ "testing"; "utilities"; "domain"; "business_logic"; "presentation" ].



(** A text that does not begin with white space. *)
Definition no_lead (l : list ascii) : Prop :=
  match l with
  | c :: _ => Chr.is_space c = false
  | [] => True
  end.





(** [grows s0 s]: [s] has what [s0] has of imports, records and
    dependencies, in the same order, and maybe more. *)
Definition grows (s0 s : Structure) : Prop :=
  imports (patterns s0) `prefix_of` imports (patterns s)
  ∧ class_patterns (patterns s0) `prefix_of` class_patterns (patterns s)
  ∧ function_patterns (patterns s0) `prefix_of` function_patterns (patterns s)
  ∧ code_organization (patterns s0) `prefix_of` code_organization (patterns s)
  ∧ (∀ m, is_Some (dependencies s0 !! m) → is_Some (dependencies s !! m)).

(** The optional fields of a class or function record: parameters are
    never empty, and a base or a return type has no white space around
    it. *)
Definition tidy (r : record) : Prop :=
  (∀ v, dict_get "parameters" r = Some v → ∃ p, v = Some p ∧ p ≠ "")
  ∧ (∀ v, dict_get "base" r = Some v → ∃ b, v = Some b ∧ Str.strip b = b)
  ∧ (∀ v, dict_get "return_type" r = Some v
          → ∃ t, v = Some t ∧ Str.strip t = t).

(** * Properties *)

Import RulesGenerator.

(** ** What a computation leaves alone *)

Section Keeps.
Context {B : Type} (proj : Structure → B).

Lemma keeps_ret {A} (a : A) : keeps proj (ret a).
Proof. intros s. reflexivity. Qed.

Lemma keeps_raise {A} (e : exn) : keeps proj (@raise A e).
Proof. intros s. reflexivity. Qed.

Lemma keeps_or_raise {A} (e : exn) (o : option A) :
  keeps proj (or_raise e o).
Proof. destruct o; intros s; reflexivity. Qed.

Lemma keeps_bind {A C} (m : M A) (k : A → M C) :
  keeps proj m → (∀ a, keeps proj (k a)) → keeps proj (bind m k).
Proof.
  intros Hm Hk s. unfold bind. specialize (Hm s).
  destruct (m s) as [[a | e] s']; simpl in *.
  - rewrite Hk. exact Hm.
  - exact Hm.
Qed.

Lemma keeps_when (c : bool) (m : M unit) :
  keeps proj m → keeps proj (when c m).
Proof. intros Hm. destruct c; [exact Hm | apply keeps_ret]. Qed.

Lemma keeps_try_pass (m : M unit) :
  keeps proj m → keeps proj (try_pass m).
Proof.
  intros Hm s. unfold try_pass. specialize (Hm s).
  destruct (m s) as [[a | e] s']; exact Hm.
Qed.

Lemma keeps_for_each {A} (l : list A) (body : A → M unit) :
  (∀ x, keeps proj (body x)) → keeps proj (for_each l body).
Proof.
  intros Hbody. induction l as [| x l IH]; simpl.
  - apply keeps_ret.
  - apply keeps_bind; [apply Hbody | intros _; exact IH].
Qed.

Lemma keeps_rule (c : Catalog) (bucket name : string) :
  keeps proj (rule c bucket name).
Proof.
  unfold rule. apply keeps_bind; [| intros rules]; apply keeps_or_raise.
Qed.

Lemma keeps_group (m : Re.Match) (i : nat) : keeps proj (group m i).
Proof. apply keeps_or_raise. Qed.

Lemma keeps_group_named (m : Re.Match) (name : string) :
  keeps proj (group_named m name).
Proof. apply keeps_or_raise. Qed.

Lemma keeps_lift {A} (r : result A) : keeps proj (lift r).
Proof. intros s. reflexivity. Qed.

End Keeps.

(** Splits a computation into its steps; what is left are the writes to
    the structure. *)
Ltac keeps_steps :=
  repeat first
    [ apply keeps_ret | apply keeps_raise | apply keeps_or_raise
    | apply keeps_rule | apply keeps_group | apply keeps_group_named
    | apply keeps_lift
    | apply keeps_when | apply keeps_try_pass
    | apply keeps_for_each; intros ?
    | apply keeps_bind; [| intros ?]
    | match goal with
      | |- keeps _ (match ?x with _ => _ end) => destruct x
      end ].

Ltac keeps_writes := keeps_steps; try (intros ?; reflexivity).

(** ** Computations that end well, and computations that cannot *)

Lemma returns_ret {A} (a : A) : returns (ret a).
Proof. intros s. exists a. reflexivity. Qed.

Lemma returns_modify g : returns (modify g).
Proof. intros s. exists tt. reflexivity. Qed.

Lemma returns_bind {A C} (m : M A) (k : A → M C) :
  returns m → (∀ a, returns (k a)) → returns (bind m k).
Proof.
  intros Hm Hk s. unfold bind. destruct (Hm s) as [a Ha].
  destruct (m s) as [[a' | e] s']; simpl in Ha; [| discriminate].
  apply Hk.
Qed.

Lemma returns_bind_value {A C} (m : M A) (a : A) (k : A → M C) :
  (∀ s, m s = (Ok a, s)) → returns (k a) → returns (bind m k).
Proof. intros Hm Hk s. unfold bind. rewrite Hm. apply Hk. Qed.

Lemma returns_when c m : returns m → returns (when c m).
Proof. intros Hm. destruct c; [exact Hm | apply returns_ret]. Qed.

Lemma returns_try_pass m : returns (try_pass m).
Proof.
  intros s. unfold try_pass.
  destruct (m s) as [[[] | e] s']; exists tt; reflexivity.
Qed.

Lemma returns_for_each {A} (l : list A) (body : A → M unit) :
  (∀ x, x ∈ l → returns (body x)) → returns (for_each l body).
Proof.
  induction l as [| x l IH]; intros Hbody; simpl; [apply returns_ret |].
  apply returns_bind; [apply Hbody; left | intros _].
  apply IH. intros y Hy. apply Hbody. right. exact Hy.
Qed.

Lemma raises_after {A C B} e (proj : Structure → B) (m : M A) (k : A → M C) :
  returns m → keeps proj m → (∀ a, raises_keeping e proj (k a)) →
  raises_keeping e proj (bind m k).
Proof.
  intros Hr Hm Hk s. unfold bind. specialize (Hm s).
  destruct (Hr s) as [a Ha].
  destruct (m s) as [[a' | e'] s']; simpl in *; [| discriminate].
  destruct (Hk a' s') as [He Hp]. split; [exact He |].
  rewrite Hp. exact Hm.
Qed.

Lemma raises_before {A C B} e (proj : Structure → B) (m : M A) (k : A → M C) :
  raises_keeping e proj m → raises_keeping e proj (bind m k).
Proof.
  intros Hm s. unfold bind. destruct (Hm s) as [He Hp].
  destruct (m s) as [[a | e'] s']; simpl in *; [discriminate |].
  injection He as ->. split; [reflexivity | exact Hp].
Qed.

Lemma keeps_bind_value {A C B} (proj : Structure → B) (m : M A) (a : A)
    (k : A → M C) :
  (∀ s, m s = (Ok a, s)) → keeps proj (k a) → keeps proj (bind m k).
Proof. intros Hm Hk s. unfold bind. rewrite Hm. apply Hk. Qed.

Ltac returns_steps :=
  repeat first
    [ apply returns_ret | apply returns_modify | apply returns_when
    | apply returns_bind; [| intros ?]
    | (intros ?; eexists; reflexivity) ].

(** ** Equal computations *)

Lemma bind_ext {A C} (m1 m2 : M A) (k1 k2 : A → M C) :
  (∀ s, m1 s = m2 s) → (∀ a s, k1 a s = k2 a s) →
  ∀ s, bind m1 k1 s = bind m2 k2 s.
Proof.
  intros Hm Hk s. unfold bind. rewrite Hm.
  destruct (m2 s) as [[a | e] s']; [apply Hk | reflexivity].
Qed.

Lemma bind_ext_on {A C} (m : M A) (k1 k2 : A → M C) :
  (∀ s a s', m s = (Ok a, s') → k1 a s' = k2 a s') →
  ∀ s, bind m k1 s = bind m k2 s.
Proof.
  intros Hk s. unfold bind.
  destruct (m s) as [[a | e] s'] eqn:E; [eauto | reflexivity].
Qed.

Lemma for_each_ext {A} (l : list A) (body1 body2 : A → M unit) :
  (∀ x, x ∈ l → ∀ s, body1 x s = body2 x s) →
  ∀ s, for_each l body1 s = for_each l body2 s.
Proof.
  induction l as [| x l IH]; intros Hbody s; simpl; [reflexivity |].
  apply bind_ext.
  - apply Hbody. left.
  - intros _ s'. apply IH. intros y Hy. apply Hbody. right. exact Hy.
Qed.

(** ** What a match is sure to capture *)

Section Binding.
Variables (f : Re.flags) (whole : list ascii) (G : list nat).

Lemma later_refl cu : on_text whole cu → later whole G cu cu.
Proof. intros H. repeat split; try apply H; auto. Qed.

Lemma later_trans cu1 cu2 cu3 :
  later whole G cu1 cu2 → later whole G cu2 cu3 → later whole G cu1 cu3.
Proof.
  intros (_ & H1 & H1') (H2 & H2' & H2'').
  repeat split; try apply H2; auto; lia.
Qed.

Lemma one_char_later ok cu k e :
  on_text whole cu → Re.one_char ok cu k = Some e →
  ∃ cu', k cu' = Some e ∧ later whole G cu cu'
         ∧ Re.c_pos cu < Re.c_pos cu'.
Proof.
  intros [Hrest Hpos]. unfold Re.one_char.
  destruct (Re.c_rest cu) as [| c rest] eqn:E; [discriminate |].
  destruct (ok c); [| discriminate]. intros Hk.
  exists (Re.advance c rest cu). split; [exact Hk |].
  assert (Hc : whole !! Re.c_pos cu = Some c).
  { rewrite <- (Nat.add_0_r (Re.c_pos cu)), <- lookup_drop, <- Hrest.
    reflexivity. }
  pose proof (lookup_lt_Some _ _ _ Hc) as Hlt.
  repeat split; simpl; try lia; auto.
  rewrite (drop_S _ _ _ Hc) in Hrest. congruence.
Qed.

Lemma close_group_bound i start cu :
  on_text whole cu → start ≤ Re.c_pos cu →
  (among i G = true → start < Re.c_pos cu) →
  (bound whole G (Re.c_caps cu) ∨ among i G = true) →
  bound whole G (Re.c_caps (Re.close_group i start cu)).
Proof.
  intros [_ Hpos] Hle Hlt Hb. simpl.
  destruct (among i G) eqn:Hi.
  - exists i, start, (Re.c_pos cu). simpl. rewrite Nat.eqb_refl.
    repeat split; auto.
  - destruct Hb as [(j & a & b & Hj & Hfind & Hab) | ?]; [| discriminate].
    exists j, a, b. simpl.
    destruct (j =? i)%nat eqn:Hji; [| auto].
    apply Nat.eqb_eq in Hji. congruence.
Qed.

(** The iterations of a repetition, given what one iteration does. *)
Lemma repeat_later n greedy step : ∀ cu k e,
  (∀ cu k e, on_text whole cu → step cu k = Some e →
             ∃ cu', k cu' = Some e ∧ later whole G cu cu') →
  on_text whole cu → Re.repeat n greedy step cu k = Some e →
  ∃ cu', k cu' = Some e ∧ later whole G cu cu'.
Proof.
  induction n as [| n IH]; intros cu k e Hstep Hcu; simpl.
  - intros Hk. exists cu. split; [exact Hk | apply later_refl, Hcu].
  - set (again := step cu _).
    assert (Hagain : again = Some e →
              ∃ cu', k cu' = Some e ∧ later whole G cu cu').
    { subst again. intros H.
      apply Hstep in H as (cu1 & H & Hl1); [| exact Hcu].
      destruct (Re.c_pos cu <? Re.c_pos cu1)%nat.
      - apply IH in H as (cu2 & H & Hl2); [| exact Hstep | apply Hl1].
        exists cu2. split; [exact H | eapply later_trans; eassumption].
      - exists cu1. split; assumption. }
    assert (Hstop : k cu = Some e →
              ∃ cu', k cu' = Some e ∧ later whole G cu cu').
    { intros Hk. exists cu. split; [exact Hk | apply later_refl, Hcu]. }
    destruct greedy; unfold Re.or_else.
    + destruct again as [x |]; [intros [= ->]; auto | exact Hstop].
    + destruct (k cu) as [x |]; [intros [= ->]; auto | exact Hagain].
Qed.

(** Every way [run] has to succeed goes through its continuation, at a
    cursor further in the text; strictly further when the pattern
    consumes, and with a group of [G] closed when the pattern binds one. *)
Lemma run_later : ∀ r base cu k e,
  groups_consume G base r = true →
  on_text whole cu → Re.run f base r cu k = Some e →
  ∃ cu', k cu' = Some e ∧ later whole G cu cu'
         ∧ (consumes r = true → Re.c_pos cu < Re.c_pos cu')
         ∧ (binds G base r = true → bound whole G (Re.c_caps cu')).
Proof.
  induction r as [| a | | negated items | | | | r1 IH1 r2 IH2
                  | r1 IH1 r2 IH2 | greedy r1 IH1 | greedy r1 IH1
                  | greedy r1 IH1 | name r1 IH1 | negative r1 IH1];
    intros base cu k e Hg Hcu; simpl in Hg;
    [simpl | simpl | simpl | simpl | simpl | simpl | simpl | simpl | simpl
    | change (Re.run f base (Re.Star greedy r1) cu k)
        with (Re.repeat (S (length (Re.c_rest cu))) greedy
                (Re.run f base r1) cu k)
    | change (Re.run f base (Re.Plus greedy r1) cu k)
        with (Re.run f base r1 cu (λ cu',
                Re.repeat (S (length (Re.c_rest cu'))) greedy
                  (Re.run f base r1) cu' k))
    | simpl | simpl | simpl].
  - intros Hk. exists cu. repeat split; try apply Hcu; auto; discriminate.
  - intros (cu' & ? & Hl & ?)%one_char_later; [| exact Hcu].
    exists cu'. repeat split; try apply Hl; auto; discriminate.
  - intros (cu' & ? & Hl & ?)%one_char_later; [| exact Hcu].
    exists cu'. repeat split; try apply Hl; auto; discriminate.
  - intros (cu' & ? & Hl & ?)%one_char_later; [| exact Hcu].
    exists cu'. repeat split; try apply Hl; auto; discriminate.
  - destruct (Re.at_bol f cu); [| discriminate].
    intros Hk. exists cu. repeat split; try apply Hcu; auto; discriminate.
  - destruct (Re.at_eol f cu); [| discriminate].
    intros Hk. exists cu. repeat split; try apply Hcu; auto; discriminate.
  - destruct (Re.at_wordb cu); [| discriminate].
    intros Hk. exists cu. repeat split; try apply Hcu; auto; discriminate.
  - (* Cat *)
    apply andb_prop in Hg as [Hg1 Hg2].
    intros H. apply IH1 in H as (cu1 & H & Hl1 & Hc1 & Hb1); [| done | done].
    apply IH2 in H as (cu2 & H & Hl2 & Hc2 & Hb2); [| done | apply Hl1].
    exists cu2. split; [exact H |].
    split; [eapply later_trans; eassumption |]. split.
    + intros [Hc | Hc]%orb_prop;
        destruct Hl1 as (_ & ? & _), Hl2 as (_ & ? & _);
        [specialize (Hc1 Hc) | specialize (Hc2 Hc)]; lia.
    + intros [Hb | Hb]%orb_prop; [apply Hl2; auto | auto].
  - (* Alt *)
    apply andb_prop in Hg as [Hg1 Hg2]. unfold Re.or_else.
    destruct (Re.run f base r1 cu k) as [x |] eqn:E1.
    + intros [= ->].
      apply IH1 in E1 as (cu1 & H & Hl1 & Hc1 & Hb1); [| done | done].
      exists cu1. repeat split; try apply Hl1; auto.
      * intros [? _]%andb_prop. auto.
      * intros [? _]%andb_prop. auto.
    + intros H.
      apply IH2 in H as (cu1 & H & Hl1 & Hc1 & Hb1); [| done | done].
      exists cu1. repeat split; try apply Hl1; auto.
      * intros [_ ?]%andb_prop. auto.
      * intros [_ ?]%andb_prop. auto.
  - (* Star *)
    intros H. apply repeat_later in H as (cu1 & H & Hl1); [| | exact Hcu].
    + exists cu1. repeat split; try apply Hl1; auto; discriminate.
    + intros cu0 k0 e0 Hcu0 H0.
      apply IH1 in H0 as (cu1 & ? & ? & _); [eauto | done | done].
  - (* Plus *)
    intros H. apply IH1 in H as (cu1 & H & Hl1 & Hc1 & Hb1); [| done | done].
    apply repeat_later in H as (cu2 & H & Hl2); [| | apply Hl1].
    + exists cu2. split; [exact H |].
      split; [eapply later_trans; eassumption |]. split.
      * intros Hc. specialize (Hc1 Hc). destruct Hl2 as (_ & ? & _). lia.
      * intros Hb. apply Hl2. auto.
    + intros cu0 k0 e0 Hcu0 H0.
      apply IH1 in H0 as (cu3 & ? & ? & _); [eauto | done | done].
  - (* Opt *)
    assert (Hstop : k cu = Some e →
              ∃ cu', k cu' = Some e ∧ later whole G cu cu'
                     ∧ (false = true → Re.c_pos cu < Re.c_pos cu')
                     ∧ (false = true → bound whole G (Re.c_caps cu'))).
    { intros Hk. exists cu.
      repeat split; try apply Hcu; auto; discriminate. }
    assert (Hagain : Re.run f base r1 cu k = Some e →
              ∃ cu', k cu' = Some e ∧ later whole G cu cu'
                     ∧ (false = true → Re.c_pos cu < Re.c_pos cu')
                     ∧ (false = true → bound whole G (Re.c_caps cu'))).
    { intros H. apply IH1 in H as (cu1 & H & Hl1 & _); [| done | done].
      exists cu1. repeat split; try apply Hl1; auto; discriminate. }
    destruct greedy; unfold Re.or_else.
    + destruct (Re.run f base r1 cu k) as [x |];
        [intros [= ->]; auto | exact Hstop].
    + destruct (k cu) as [x |]; [intros [= ->]; auto | exact Hagain].
  - (* Group *)
    apply andb_prop in Hg as [Hg0 Hg1].
    intros H. apply IH1 in H as (cu1 & H & Hl1 & Hc1 & Hb1); [| done | done].
    exists (Re.close_group (S base) (Re.c_pos cu) cu1).
    split; [exact H |].
    assert (Hamong : among (S base) G = true → Re.c_pos cu < Re.c_pos cu1).
    { intros Hin. rewrite Hin in Hg0. simpl in Hg0. auto. }
    destruct Hl1 as (Hon & Hle & Hkeep).
    split; [| split].
    + split; [exact Hon |]. split; [exact Hle |].
      intros Hb. apply close_group_bound; auto.
    + exact Hc1.
    + intros [? | ?]%orb_prop; apply close_group_bound; auto.
  - (* Look *)
    destruct (Re.run f base r1 cu Some) as [cu1 |] eqn:E1.
    + destruct negative; [discriminate |]. intros Hk.
      apply IH1 in E1 as (cu2 & [= ->] & Hl1 & _); [| done | done].
      exists (Re.with_caps (Re.c_caps cu1) cu). split; [exact Hk |].
      repeat split; simpl; try apply Hcu; try apply Hl1; auto; discriminate.
    + destruct negative; [| discriminate]. intros Hk.
      exists cu. repeat split; try apply Hcu; auto; discriminate.
Qed.

Lemma match_at_bound p adv cu m :
  groups_consume G 0 (Re.p_regex p) = true →
  binds G 0 (Re.p_regex p) = true →
  Re.p_flags p = f →
  on_text whole cu → Re.match_at p whole adv cu = Some m →
  bound whole G (Re.m_caps m).
Proof.
  intros Hconsume Hbinds Hf Hcu. unfold Re.match_at. rewrite Hf.
  destruct (Re.run _ _ _ _ _) as [e |] eqn:E; [| discriminate].
  intros [= <-]. simpl.
  apply run_later in E as (cu' & Hk & _ & _ & Hb); [| done | done].
  destruct (_ && _); [discriminate |]. injection Hk as ->. auto.
Qed.

End Binding.

Lemma scan_forall p whole (Q : Re.Match → Prop) :
  (∀ adv cu m, on_text whole cu →
               Re.match_at p whole adv cu = Some m → Q m) →
  ∀ rest prev pos skip m,
    rest = drop pos whole → pos ≤ length whole →
    m ∈ Re.scan p whole prev rest pos skip → Q m.
Proof.
  intros HQ.
  assert (Hnil : ∀ m : Re.Match, m ∈ @nil Re.Match → Q m)
    by (intros m H; inversion H).
  induction rest as [| c rest IH]; intros prev pos skip m Hrest Hpos.
  - simpl. destruct skip; [| apply Hnil].
    assert (Hcu : on_text whole (Re.Cursor prev [] pos []))
      by (split; assumption).
    destruct (Re.match_at p whole false _) as [m1 |] eqn:E1; [| apply Hnil].
    destruct (Re.m_end m1 =? pos)%nat.
    + destruct (Re.match_at p whole true _) as [m2 |] eqn:E2.
      * rewrite !elem_of_cons. intros [-> | [-> | H]]; eauto.
      * rewrite !elem_of_cons. intros [-> | H]; eauto.
    + rewrite !elem_of_cons. intros [-> | H]; eauto.
  - assert (Hc : whole !! pos = Some c).
    { rewrite <- (Nat.add_0_r pos), <- lookup_drop, <- Hrest. reflexivity. }
    assert (Hnext : ∀ prev' skip' m,
              m ∈ Re.scan p whole prev' rest (S pos) skip' → Q m).
    { intros prev' skip' m'. apply IH.
      - rewrite (drop_S _ _ _ Hc) in Hrest. congruence.
      - apply lookup_lt_Some in Hc. lia. }
    assert (Hcu : on_text whole (Re.Cursor prev (c :: rest) pos []))
      by (split; assumption).
    simpl. destruct skip; [| apply Hnext].
    destruct (Re.match_at p whole false _) as [m1 |] eqn:E1; [| apply Hnext].
    destruct (Re.m_end m1 =? pos)%nat.
    + destruct (Re.match_at p whole true _) as [m2 |] eqn:E2.
      * rewrite !elem_of_cons. intros [-> | [-> | H]]; eauto.
      * rewrite !elem_of_cons. intros [-> | H]; eauto.
    + rewrite !elem_of_cons. intros [-> | H]; eauto.
Qed.

Lemma finditer_forall p s (Q : Re.Match → Prop) :
  (∀ adv cu m, on_text (Str.chars s) cu →
               Re.match_at p (Str.chars s) adv cu = Some m → Q m) →
  ∀ m, m ∈ Re.finditer p s → Q m.
Proof.
  intros HQ m. unfold Re.finditer.
  eapply scan_forall; [exact HQ | reflexivity | lia].
Qed.

Lemma match_at_origin p whole adv cu m :
  Re.match_at p whole adv cu = Some m →
  Re.m_re m = p ∧ Re.m_string m = whole.
Proof.
  unfold Re.match_at. destruct (Re.run _ _ _ _ _); [| discriminate].
  intros [= <-]. split; reflexivity.
Qed.

Lemma finditer_re p s m : m ∈ Re.finditer p s → Re.m_re m = p.
Proof.
  revert m. apply finditer_forall. intros adv cu m _ H.
  apply (match_at_origin _ _ _ _ _ H).
Qed.

Lemma slice_nonempty whole a b :
  a < b → b ≤ length whole → Str.slice whole a b ≠ "".
Proof.
  intros Hab Hb. unfold Str.slice, Str.of_chars.
  destruct (drop a whole) as [| c rest] eqn:E.
  - apply (f_equal length) in E. rewrite length_drop in E. simpl in E. lia.
  - destruct (b - a) as [| n] eqn:En; [lia |]. simpl. discriminate.
Qed.

Lemma search_re p s m : Re.search p s = Some m → Re.m_re m = p.
Proof.
  unfold Re.search. intros H. apply (finditer_re p s).
  destruct (Re.finditer p s); [discriminate |].
  injection H as ->. left.
Qed.

Lemma group_value (m : Re.Match) (i : nat) (p : Re.Pattern) :
  Re.m_re m = p → (i <=? Re.ngroups (Re.p_regex p))%nat = true →
  ∀ s, group m i s = (Ok (Re.group_text m i), s).
Proof.
  intros Hre Hi s. unfold group, Re.group. rewrite Hre, Hi. reflexivity.
Qed.

Lemma returns_group (m : Re.Match) (i : nat) (p : Re.Pattern) :
  Re.m_re m = p → (i <=? Re.ngroups (Re.p_regex p))%nat = true →
  returns (group m i).
Proof.
  intros Hre Hi s. rewrite (group_value m i p Hre Hi). eexists. reflexivity.
Qed.

(** The scan of a rule of the catalog, for which [body] never raises. *)
Ltac scan_returns r :=
  apply (returns_bind_value _ r); [intros ?; reflexivity |];
  apply returns_for_each; intros ? ?%finditer_re.

(** ** The scan of the three pattern types *)

Lemma pattern_group_cases language :
  pattern_group language ∈ ["python"; "web"; "system"].
Proof.
  unfold pattern_group, pattern_groups. cbn [dict_get].
  repeat match goal with
         | |- context [String.eqb ?a ?b] => destruct (String.eqb a b)
         end; cbn [default]; set_solver.
Qed.

Lemma scan_types_returns f lang_of content rel_path language :
  returns (scan_types (generator f lang_of) content rel_path language).
Proof.
  unfold scan_types. simpl for_each.
  pose proof (pattern_group_cases language) as H.
  repeat (apply elem_of_cons in H as [-> | H]); [| | | inversion H].
  all: repeat (apply returns_bind; [| intros _]); try apply returns_ret.
  all: unfold scan_type.
  all: eapply returns_bind_value; [intros ?; reflexivity |].
  all: apply returns_for_each; intros m _; apply returns_try_pass.
Qed.

Lemma scan_types_keeps_code_organization self content rel_path language :
  keeps (λ s, code_organization (patterns s))
        (scan_types self content rel_path language).
Proof.
  unfold scan_types. simpl for_each. unfold scan_type, record_match.
  keeps_steps; simpl; keeps_writes.
Qed.

(** ** The route rule on a page path *)

(** A component tag always captures a name, and the name is not empty. *)
Lemma jsx_name_nonempty f content m :
  m ∈ Re.finditer (Re.Compiled Patterns.jsx_component f) content →
  ∃ c s, Re.group_text m 1 = Some (String c s).
Proof.
  revert m. apply finditer_forall. intros adv cu m Hcu Hat.
  pose proof (match_at_bound f (Str.chars content) [1]
                (Re.Compiled Patterns.jsx_component f) adv cu m
                eq_refl eq_refl eq_refl Hcu Hat)
    as (i & a & b & Hi & Hcap & Hab & Hb).
  destruct (match_at_origin _ _ _ _ _ Hat) as [Hre Hstring].
  unfold among in Hi. cbn [existsb] in Hi.
  apply orb_prop in Hi as [Hi | Hi]; [| discriminate].
  apply Nat.eqb_eq in Hi. subst i.
  unfold Re.group_text. rewrite Hcap, Hstring.
  pose proof (slice_nonempty (Str.chars content) a b Hab Hb) as Hne.
  destruct (Str.slice _ a b) as [| c s]; [done | eauto].
Qed.

Lemma web_route_raises (f : Re.flags) (lang_of : string → string)
    (content : string) :
  raises_keeping (IndexError "no such group")
    (λ s, code_organization (patterns s))
    (_analyze_web_patterns (generator f lang_of) content route_page).
Proof.
  unfold _analyze_web_patterns.
  apply raises_after; [| keeps_writes | intros _].
  { scan_returns (Re.Compiled Patterns.common_interface f).
    apply returns_bind; [eapply returns_group; [eassumption | reflexivity] |].
    intros name.
    apply returns_bind; [eapply returns_group; [eassumption | reflexivity] |].
    intros base. returns_steps. }
  apply raises_after; [| keeps_writes | intros _].
  { apply (returns_bind_value _ (Re.Compiled Patterns.jsx_component f));
      [intros ?; reflexivity |].
    apply returns_for_each. intros m Hm.
    destruct (jsx_name_nonempty f content m Hm) as (c & name & Hname).
    apply finditer_re in Hm.
    apply (returns_bind_value _ (Re.group_text m 1));
      [apply (group_value m 1 _ Hm); reflexivity |].
    rewrite Hname. simpl. returns_steps. }
  apply raises_after; [| keeps_writes | intros _].
  { scan_returns (Re.Compiled Patterns.react_hook f).
    apply returns_bind; [eapply returns_group; [eassumption | reflexivity] |].
    intros name. returns_steps. }
  apply raises_before.
  replace (existsb _ _) with true by (vm_compute; reflexivity).
  unfold when.
  apply raises_after; [| keeps_writes | intros _].
  { scan_returns (Re.Compiled Patterns.next_api f).
    apply returns_bind; [eapply returns_group; [eassumption | reflexivity] |].
    intros name. returns_steps. }
  apply raises_before.
  intros s. destruct f as [[] [] []]; vm_compute; split; reflexivity.
Qed.

Ltac keeps_filtered :=
  keeps_steps;
  try (intros ?; reflexivity);
  try (intros ?; unfold next_pages; simpl;
       rewrite List.filter_app; simpl; rewrite app_nil_r; reflexivity).

Lemma no_next_page_record (f : Re.flags) (lang_of : string → string)
    (content rel_path : string) :
  keeps next_pages
        (_analyze_web_patterns (generator f lang_of) content rel_path).
Proof.
  unfold _analyze_web_patterns.
  apply keeps_bind; [keeps_filtered | intros _].
  apply keeps_bind; [keeps_filtered | intros _].
  apply keeps_bind; [keeps_filtered | intros _].
  apply keeps_bind; [apply keeps_when | intros _].
  - apply keeps_bind; [keeps_filtered | intros _].
    apply keeps_bind; [| intros _; keeps_filtered].
    apply (keeps_bind_value _ _ (Re.Compiled Patterns.next_page f));
      [intros ?; reflexivity |].
    destruct (Re.search _ rel_path) as [page_match |] eqn:E;
      [| apply keeps_ret].
    apply search_re in E.
    assert (Hnone : ∀ s, group_named page_match "route" s
                         = (Raise (IndexError "no such group"), s)).
    { intros s. unfold group_named, Re.group_named. rewrite E. reflexivity. }
    intros s. unfold bind. rewrite Hnone. reflexivity.
  - keeps_filtered.
Qed.

(** C1: for the page path pages/blog/[id].tsx, which the route rule
    matches, the web analysis never gets to write a next_page record.
    Whatever the content and the flags, it raises the IndexError of asking
    the match of the route rule for a group named route, which the rule
    does not declare, and leaves the code-organization list as it was; the
    exception escapes _analyze_file as well.  For no path at all does the
    web analysis add a next_page record. *)
Theorem next_page_route_raises (f : Re.flags) (lang_of : string → string) :
    is_Some (Re.search (Re.Compiled Patterns.next_page f) route_page)
    ∧ Re.groupindex Patterns.next_page = []
    ∧ (∀ content,
         raises_keeping (IndexError "no such group")
           (λ s, code_organization (patterns s))
           (_analyze_web_patterns (generator f lang_of) content route_page))
    ∧ (∀ content,
         raises_keeping (IndexError "no such group")
           (λ s, code_organization (patterns s))
           (_analyze_file (generator f lang_of) content route_page
                          "typescript"))
    ∧ (∀ content rel_path,
         keeps next_pages
           (_analyze_web_patterns (generator f lang_of) content rel_path))
    ∧ (∀ s, _analyze_file (generator f lang_of) "" route_page "typescript" s
            = (Raise (IndexError "no such group"), s)).
Proof.
  split; [destruct f as [[] [] []]; vm_compute; eauto |].
  split; [reflexivity |].
  split; [intros content; apply web_route_raises |].
  split.
  { intros content. unfold _analyze_file.
    apply raises_after;
      [apply scan_types_returns | apply scan_types_keeps_code_organization |].
    intros _. apply raises_before. apply web_route_raises. }
  split; [intros content rel_path; apply no_next_page_record |].
  intros s. destruct s as [? ? ? ? ? ? []].
  destruct f as [[] [] []]; vm_compute; reflexivity.
Qed.

(** ** The identifier of a class or function match *)

(** C2: a class or function match is recorded under the first non-empty
    capture named name (or n), and dropped, without record nor exception,
    when there is none; no other capture name is looked up.  So on the
    TypeScript text [const Foo = class { }], where the class rule of the
    web family matches once and binds only the alias name2, to Foo, the
    analysis of the file ends without an exception and without a record:
    the structure is unchanged. *)
Theorem class_expression_alias_dropped
    (f : Re.flags) (lang_of : string → string) :
    (∀ pattern_type rel_path m s,
       pattern_type ∈ ["class"; "function"] →
       match first_capture wants_name (Re.groupdict m) with
       | None => record_match pattern_type rel_path m s = (Ok tt, s)
       | Some name =>
           ∃ info,
             record_match pattern_type rel_path m s
             = (Ok tt,
                set_patterns
                  ((if String.eqb pattern_type "class"
                    then add_class_pattern else add_function_pattern) info)
                  s)
             ∧ dict_get "name" info = Some (Some name)
             ∧ dict_get "file" info = Some (Some rel_path)
             ∧ dict_get "type" info = Some (Some pattern_type)
       end)
    ∧ (∀ k, wants_name k = true → k = "name" ∨ k = "n")
    ∧ Re.groupdict <$>
        Re.finditer (Re.Compiled Patterns.class_web f) class_expression_ts
      = [ [ ("name", None); ("base", None); ("name2", Some "Foo");
            ("base2", None); ("name3", None); ("base3", None) ] ]
    ∧ ∀ s, _analyze_file (generator f lang_of) class_expression_ts
             "src/foo.ts" "typescript" s
           = (Ok tt, s).
Proof.
  split; [| split; [| split]].
  - intros pattern_type rel_path m s Hin.
    unfold record_match.
    destruct (first_capture wants_name (Re.groupdict m)) as [name |].
    + repeat (apply elem_of_cons in Hin as [-> | Hin]); [| | inversion Hin];
        simpl; eexists; (split; [reflexivity |]); repeat split.
    + repeat (apply elem_of_cons in Hin as [-> | Hin]); [| | inversion Hin];
        reflexivity.
  - intros k [H | H]%orb_prop; apply String.eqb_eq in H; auto.
  - destruct f as [[] [] []]; vm_compute; reflexivity.
  - intros s. destruct s as [? ? ? ? ? ? []].
    destruct f as [[] [] []]; vm_compute; reflexivity.
Qed.

Lemma class_expression_alias_dropped_witness :
  first_capture wants_name (Re.groupdict class_expression_match) = None
  ∧ record_match "class" "src/foo.ts" class_expression_match empty_structure
    = (Ok tt, empty_structure)
  ∧ wants_name "name2" = false.
Proof.
  split; [vm_compute; reflexivity |]. split; [| reflexivity].
  pose proof (proj1 (class_expression_alias_dropped Re.no_flags id)
                "class" "src/foo.ts" class_expression_match empty_structure)
    as H.
  replace (first_capture wants_name (Re.groupdict class_expression_match))
    with (@None string) in H by (vm_compute; reflexivity).
  apply H. left.
Defined.

(** ** Configuration files *)

Lemma scan_types_keeps_config self content rel_path language :
  keeps config_part (scan_types self content rel_path language).
Proof.
  unfold scan_types. simpl for_each. unfold scan_type, record_match.
  keeps_steps; simpl; keeps_writes.
Qed.

Lemma analyze_file_keeps_config self content rel_path language :
  keeps config_part (_analyze_file self content rel_path language).
Proof.
  unfold _analyze_file.
  apply keeps_bind; [apply scan_types_keeps_config | intros _].
  apply keeps_bind; [| intros _]; apply keeps_when.
  - unfold _analyze_web_patterns. keeps_writes.
  - unfold _analyze_unity_patterns. keeps_writes.
Qed.

Lemma starts_with_cons a p s :
  Str.starts_with (a :: p) s = true →
  ∃ s', s = a :: s' ∧ Str.starts_with p s' = true.
Proof.
  destruct s as [| b s']; [discriminate |].
  change (Str.starts_with (a :: p) (b :: s'))
    with (Ascii.eqb a b && Str.starts_with p s').
  intros [->%Ascii.eqb_eq H]%andb_prop. eauto.
Qed.

(** A name that ends like a configuration file has no code extension: the
    configuration branch, placed under the code-extension test, is never
    entered. *)
Lemma config_file_not_code file :
  is_config_file file = true → is_code_file file = false.
Proof.
  unfold is_config_file, is_code_file, file_ext, Path.splitext_ext,
    config_suffixes.
  cbn [existsb]. unfold Str.endswith.
  generalize (rev (Str.chars file)). intros r H.
  repeat match type of H with
         | context [rev (Str.chars ?x)] =>
             let l := eval vm_compute in (rev (Str.chars x)) in
             change (rev (Str.chars x)) with l in H
         end.
  repeat (apply orb_prop in H as [H | H]); try discriminate.
  all: repeat (apply starts_with_cons in H as [? [-> H]]).
  all: simpl;
       match goal with
       | |- context [forallb ?f ?l] => destruct (forallb f l)
       end; reflexivity.
Qed.

Lemma note_directory_config rel_root s :
  config_part (note_directory rel_root s) = config_part s.
Proof. unfold note_directory. destruct (String.eqb _ _); reflexivity. Qed.

Lemma visit_file_keeps_config self read rel_root st file :
  config_part (visit_file self read rel_root st file).1 = config_part st.1.
Proof.
  unfold visit_file. destruct st as [structure stats].
  fold (file_ext file). fold (is_code_file file).
  destruct (is_code_file file) eqn:Hcode; [| apply note_directory_config].
  set (lang := get_language_from_ext self (file_ext file)).
  set (s1 := count_language lang (add_file _ structure)).
  set (body := bind _ _).
  assert (Hbody : keeps config_part body).
  { subst body. apply keeps_bind; [apply keeps_lift | intros content].
    apply keeps_bind; [intros s; reflexivity | intros _].
    apply analyze_file_keeps_config. }
  specialize (Hbody s1).
  destruct (body s1) as [[[] | e] s2]; simpl in Hbody; [| exact Hbody].
  unfold classify_config. fold (is_config_file file).
  destruct (is_config_file file) eqn:Hconfig.
  - apply config_file_not_code in Hconfig. congruence.
  - simpl. rewrite note_directory_config. exact Hbody.
Qed.

Lemma visit_files_keep_config self read rel_root files : ∀ st,
  config_part (foldl (visit_file self read rel_root) st files).1
  = config_part st.1.
Proof.
  induction files as [| file files IH]; intros st; simpl; [reflexivity |].
  rewrite IH. apply visit_file_keeps_config.
Qed.

Lemma walk_keeps_config self read : ∀ t rel_root st,
  config_part (walk self read rel_root t st).1 = config_part st.1.
Proof.
  fix IH 1. intros [files dirs] rel_root st. simpl.
  pose proof (visit_files_keep_config self read rel_root files
                (st.1, fresh_stats)) as Hfiles.
  destruct (foldl _ _ files) as [structure stats]. simpl in Hfiles.
  rewrite <- Hfiles.
  set (st1 := (structure, dict_set rel_root stats st.2)).
  change (config_part structure) with (config_part st1.1).
  generalize st1. clear -IH.
  induction dirs as [| [d sub] dirs IHdirs]; intros st'; [reflexivity |].
  rewrite IHdirs. destruct (pruned d); [reflexivity | apply IH].
Qed.

Lemma directory_patterns_keep_config dir_stats : ∀ s,
  config_part (_analyze_directory_patterns dir_stats s) = config_part s.
Proof.
  unfold _analyze_directory_patterns.
  induction dir_stats as [| [dir_path stats] dir_stats IH]; intros s;
    simpl; [reflexivity |].
  rewrite IH. destruct (String.eqb dir_path ""); reflexivity.
Qed.

(** C3: the traversal never records a configuration file.  No file changes
    the config-files list or the configuration entries; a file without a
    code extension only counts toward total_files of its directory (and
    has the directory noted); so after any project both lists are empty,
    for instance after a project made of the single file settings.json,
    which ends in .json and has no code extension. *)
Theorem config_files_never_recorded
    (self : Self) (read : string → result string) :
    (∀ rel_root st file,
       let out := visit_file self read rel_root st file in
       config_part out.1 = config_part st.1
       ∧ (is_code_file file = false →
          out = (note_directory rel_root st.1, count_total st.2)))
    ∧ (∀ project,
         config_part (_analyze_project_structure self read project)
         = ([], []))
    ∧ is_config_file "settings.json" = true
    ∧ is_code_file "settings.json" = false
    ∧ config_files
        (_analyze_project_structure self read (Dir ["settings.json"] []))
      = [].
Proof.
  assert (Hproject : ∀ project,
            config_part (_analyze_project_structure self read project)
            = ([], [])).
  { intros project. unfold _analyze_project_structure.
    pose proof (walk_keeps_config self read project ""
                  (empty_structure, [])) as Hwalk.
    destruct (walk _ _ _ _ _) as [structure dir_stats].
    rewrite directory_patterns_keep_config. exact Hwalk. }
  split; [| split; [exact Hproject |]].
  - intros rel_root st file out. split.
    + apply visit_file_keeps_config.
    + intros Hcode. subst out. unfold visit_file.
      destruct st as [structure stats].
      unfold is_code_file, file_ext in Hcode. rewrite Hcode. reflexivity.
  - split; [reflexivity |]. split; [reflexivity |].
    exact (f_equal fst (Hproject (Dir ["settings.json"] []))).
Qed.

Lemma config_files_never_recorded_witness :
  is_code_file "settings.json" = false
  ∧ visit_file (generator Re.no_flags extension_language)
      (λ _, Ok "{}") "" (empty_structure, fresh_stats) "settings.json"
    = (empty_structure, count_total fresh_stats).
Proof.
  split; [reflexivity |].
  apply (proj1 (config_files_never_recorded
                  (generator Re.no_flags extension_language) (λ _, Ok "{}"))
               "" (empty_structure, fresh_stats) "settings.json").
  reflexivity.
Defined.

(** ** A code file that cannot be read *)

(** What the traversal returns, when it returns, is what it builds on a
    standard output that takes every report. *)
Lemma reporting_visit_file print str self read rel_root st file out :
  Reporting.visit_file print str self read rel_root st file = Ok out →
  out = visit_file self read rel_root st file.
Proof.
  unfold Reporting.visit_file, visit_file, Reporting.reported.
  destruct st as [structure stats].
  destruct (Str.eqb_in _ code_extensions); [| congruence].
  match goal with
  | |- context [bind ?m ?k ?s0] => destruct (bind m k s0) as [[[] | e] s1]
  end.
  - destruct (classify_config _ _ _ s1) as [[[] | e] s2]; [congruence |].
    destruct (print _); [congruence | discriminate].
  - destruct (print _); [congruence | discriminate].
Qed.

Lemma reporting_visit_files print str self read rel_root names : ∀ st out,
  Reporting.visit_files print str self read rel_root st names = Ok out →
  out = foldl (visit_file self read rel_root) st names.
Proof.
  induction names as [| file names IH]; intros st out; simpl;
    [congruence |].
  destruct (Reporting.visit_file _ _ _ _ _ _ _) as [st' | e] eqn:Hfile;
    [| discriminate].
  apply reporting_visit_file in Hfile as ->. apply IH.
Qed.

Lemma reporting_walk print str self read : ∀ t rel_root st out,
  Reporting.walk print str self read rel_root t st = Ok out →
  out = walk self read rel_root t st.
Proof.
  fix IH 1. intros [names dirs] rel_root st out. simpl.
  destruct (Reporting.visit_files _ _ _ _ _ _ _) as [[structure stats] | e]
    eqn:Hfiles; [| discriminate].
  apply reporting_visit_files in Hfiles as <-.
  generalize (structure, dict_set rel_root stats st.2). clear -IH.
  intros st1.
  assert (Hraise : ∀ ds e o,
            (fix subdirs (ds : list (string * Tree))
                 (st : result (Structure * list (string * DirStats))) :=
               match ds with
               | [] => st
               | (d, sub) :: ds' =>
                   subdirs ds'
                     match st with
                     | Raise e => Raise e
                     | Ok st =>
                         if pruned d then Ok st
                         else Reporting.walk print str self read
                                (Path.join rel_root d) sub st
                     end
               end) ds (Raise e) = Ok o → False).
  { induction ds as [| [d sub] ds IHds]; intros e o; [discriminate |].
    apply IHds. }
  revert st1.
  induction dirs as [| [d sub] dirs IHdirs]; intros st1; [congruence |].
  destruct (pruned d); [apply IHdirs |].
  destruct (Reporting.walk print str self read (Path.join rel_root d) sub st1)
    as [st2 | e] eqn:Hsub.
  - apply IH in Hsub as ->. apply IHdirs.
  - intros H. destruct (Hraise _ _ _ H).
Qed.

Lemma reporting_project print str self read project s :
  Reporting._analyze_project_structure print str self read project = Ok s →
  s = _analyze_project_structure self read project.
Proof.
  unfold Reporting._analyze_project_structure, _analyze_project_structure.
  destruct (Reporting.walk _ _ _ _ _ _ _) as [[structure dir_stats] | e]
    eqn:Hwalk; [| discriminate].
  apply reporting_walk in Hwalk as <-. congruence.
Qed.

(** C4, as amended: when reading a traversed code file raises, the error is
    caught in the traversal, which prints a report of it; when that print
    returns, nothing leaves the traversal; the file, registered before it is
    read, is listed in files and counts toward total_files, code_files and
    the language counters of its directory and of the project; it
    contributes no record, no dependency, no code content and no
    configuration entry; the traversal goes on with the remaining files. *)
Theorem unreadable_code_file_counted
    (print : string → result unit) (str : exn → string)
    (self : Self) (read : string → result string)
    (rel_root file : string) (e : exn) (u : unit)
    (st : Structure * DirStats) :
    is_code_file file = true →
    read (Path.join rel_root file) = Raise e →
    print (Reporting.file_report str (Path.join rel_root file) e) = Ok u →
    let lang := get_language_from_ext self (file_ext file) in
    let out := (count_language lang (add_file (Path.join rel_root file) st.1),
                count_code lang (count_total st.2)) in
    Reporting.visit_file print str self read rel_root st file = Ok out
    ∧ files out.1 = files st.1 ++ [Path.join rel_root file]
    ∧ languages out.1 = count_up lang (languages st.1)
    ∧ total_files out.2 = total_files st.2 + 1
    ∧ code_files out.2 = code_files st.2 + 1
    ∧ dir_languages out.2 = count_up lang (dir_languages st.2)
    ∧ patterns out.1 = patterns st.1
    ∧ dependencies out.1 = dependencies st.1
    ∧ code_contents out.1 = code_contents st.1
    ∧ config_files out.1 = config_files st.1
    ∧ directory_structure out.1 = directory_structure st.1
    ∧ ∀ rest,
        Reporting.visit_files print str self read rel_root st (file :: rest)
        = Reporting.visit_files print str self read rel_root out rest.
Proof.
  intros Hcode Hread Hprint lang out.
  assert (Hout : Reporting.visit_file print str self read rel_root st file
                 = Ok out).
  { subst out lang. unfold Reporting.visit_file, Reporting.reported.
    destruct st as [structure stats].
    unfold is_code_file, file_ext in Hcode. rewrite Hcode.
    unfold bind, lift. rewrite Hread, Hprint. reflexivity. }
  split; [exact Hout |]. do 10 (split; [reflexivity |]).
  intros rest. simpl. rewrite Hout. reflexivity.
Qed.

Lemma unreadable_code_file_counted_witness :
  is_code_file "a.py" = true
  ∧ unreadable (Path.join "" "a.py") = Raise UnicodeDecodeError
  ∧ Sample.print
      (Reporting.file_report Sample.str (Path.join "" "a.py")
         UnicodeDecodeError) = Ok tt
  ∧ Reporting.visit_files Sample.print Sample.str
      (generator Re.no_flags extension_language) unreadable ""
      (empty_structure, fresh_stats) ["a.py"; "b.py"]
    = Reporting.visit_files Sample.print Sample.str
        (generator Re.no_flags extension_language) unreadable ""
        (count_language "python" (add_file "a.py" empty_structure),
         count_code "python" (count_total fresh_stats)) ["b.py"].
Proof.
  split; [reflexivity |]. split; [reflexivity |]. split; [reflexivity |].
  pose proof (unreadable_code_file_counted Sample.print Sample.str
                (generator Re.no_flags extension_language) unreadable
                "" "a.py" UnicodeDecodeError tt (empty_structure, fresh_stats)
                eq_refl eq_refl eq_refl) as H.
  cbv zeta in H.
  exact (proj2 (proj2 (proj2 (proj2 (proj2 (proj2 (proj2 (proj2 (proj2
           (proj2 (proj2 H)))))))))) ["b.py"]).
Defined.

(** C4, as stated, fails.  The unreadable file a.py, alone at the root of a
    project, does not only count toward total_files: on a standard output
    that takes the report it is listed in files and counted as a code file
    and under its language.  And on a standard output that encodes to
    ASCII the report, which begins with a warning sign, cannot be printed:
    UnicodeEncodeError leaves the traversal, the file b.py after it is not
    visited and no structure is returned. *)
Lemma unreadable_code_file_is_listed :
  let self := generator Re.no_flags extension_language in
  (∃ out,
     Reporting.visit_file Sample.print Sample.str self unreadable ""
       (empty_structure, fresh_stats) "a.py" = Ok out
     ∧ out ≠ (empty_structure, count_total fresh_stats)
     ∧ files out.1 = ["a.py"]
     ∧ languages out.1 !! "python" = Some 1
     ∧ code_files out.2 = 1
     ∧ dir_languages out.2 !! "python" = Some 1)
  ∧ Reporting._analyze_project_structure Sample.ascii_print Sample.str self
      unreadable (Dir ["a.py"; "b.py"] [])
    = Raise UnicodeEncodeError.
Proof.
  split; [| vm_compute; reflexivity].
  eexists. split; [reflexivity |].
  split; [| vm_compute; repeat split; reflexivity].
  intros H. apply (f_equal (λ o, files o.1)) in H. vm_compute in H.
  discriminate.
Qed.

(** ** Import matches *)

Lemma truthy_nonempty (v : string) : v ≠ "" → truthy (Some v) = true.
Proof.
  intros Hv. simpl.
  destruct (String.eqb_spec v ""); [contradiction | reflexivity].
Qed.

Lemma first_capture_found wanted groups k v :
  (k, v) ∈ groups → wanted k = true → truthy v = true →
  ∃ s, first_capture wanted groups = Some s ∧ s ≠ "".
Proof.
  intros Hin Hk Hv. induction groups as [| [k' v'] groups IH];
    [inversion Hin |].
  change (first_capture wanted ((k', v') :: groups))
    with (if truthy v' && wanted k' then v'
          else first_capture wanted groups).
  destruct (truthy v' && wanted k') eqn:Hhead.
  - apply andb_prop in Hhead as [Hv' _].
    destruct v' as [s |]; [| discriminate].
    exists s. split; [reflexivity |]. intros ->. discriminate.
  - apply IH. apply elem_of_cons in Hin as [[= <- <-] | Hin]; [| exact Hin].
    rewrite Hk, Hv in Hhead. discriminate.
Qed.

(** What [first_capture] returns is the first non-empty capture with a
    wanted name. *)
Lemma first_capture_first wanted groups s :
  first_capture wanted groups = Some s →
  ∃ before key after,
    groups = before ++ (key, Some s) :: after
    ∧ wanted key = true ∧ s ≠ ""
    ∧ ∀ k v, (k, v) ∈ before → wanted k = true → truthy v = false.
Proof.
  induction groups as [| [k v] groups IH]; [discriminate |].
  change (first_capture wanted ((k, v) :: groups))
    with (if truthy v && wanted k then v else first_capture wanted groups).
  destruct (truthy v && wanted k) eqn:Hhead.
  - intros ->. apply andb_prop in Hhead as [Hv Hk].
    exists [], k, groups. repeat split; auto.
    + intros ->. discriminate.
    + intros k' v' Hin. inversion Hin.
  - intros (before & key & after & -> & Hkey & Hs & Hbefore)%IH.
    exists ((k, v) :: before), key, after. repeat split; auto.
    intros k' v' [[= -> ->] | Hin]%elem_of_cons Hk'; [| eauto].
    rewrite Hk', andb_true_r in Hhead. exact Hhead.
Qed.

(** Every match of an import rule has a non-empty module capture. *)
Lemma import_match_has_module (f : Re.flags) (r : Re.regex)
    (content : string) (m : Re.Match) :
  r ∈ import_rules → m ∈ Re.finditer (Re.Compiled r f) content →
  ∃ module, first_capture wants_module (Re.groupdict m) = Some module
            ∧ module ≠ "".
Proof.
  intros Hr Hm.
  assert (Hok : groups_consume (module_groups r) 0 r = true
                ∧ binds (module_groups r) 0 r = true).
  { unfold import_rules in Hr.
    repeat (apply elem_of_cons in Hr as [-> | Hr]);
      [split; vm_compute; reflexivity .. | inversion Hr]. }
  destruct Hok as [Hconsume Hbinds].
  revert m Hm. apply finditer_forall. intros adv cu m Hcu Hat.
  pose proof (match_at_bound f (Str.chars content) (module_groups r)
                (Re.Compiled r f) adv cu m Hconsume Hbinds eq_refl Hcu Hat)
    as (i & a & b & Hi & Hcap & Hab & Hb).
  destruct (match_at_origin _ _ _ _ _ Hat) as [Hre Hstring].
  assert (Hin : ∃ n, (n, i) ∈ Re.groupindex r
                     ∧ wants_module n = true ∧ i ≠ 0).
  { unfold import_rules in Hr.
    repeat (apply elem_of_cons in Hr as [-> | Hr]); [| | | inversion Hr].
    all: match type of Hi with
         | among _ ?G = true =>
             let G' := eval vm_compute in G in change G with G' in Hi
         end.
    all: unfold among in Hi; cbn [existsb] in Hi.
    all: repeat (apply orb_prop in Hi as [Hi | Hi]); try discriminate.
    all: apply Nat.eqb_eq in Hi; subst i.
    all: eexists; split;
           [ match goal with
             | |- _ ∈ Re.groupindex ?r =>
                 let gi := eval vm_compute in (Re.groupindex r) in
                 change (Re.groupindex r) with gi
             end;
             repeat first [apply list_elem_of_here
                          | apply list_elem_of_further]
           | split; [reflexivity | done] ]. }
  destruct Hin as (n & Hn & Hwant & Hi0).
  apply (first_capture_found _ _ n (Re.group_text m i)); [| exact Hwant |].
  - unfold Re.groupdict. rewrite Hre. simpl Re.p_regex.
    apply (list_elem_of_fmap_2 (λ '(n, i), (n, Re.group_text m i)) _ (n, i)).
    exact Hn.
  - unfold Re.group_text. destruct i as [| i]; [done |].
    rewrite Hcap, Hstring. apply truthy_nonempty.
    apply slice_nonempty; assumption.
Qed.

Lemma import_rule_of f lang_of language :
  ∃ r, r ∈ import_rules
       ∧ ∀ s, rule (compiled_patterns (generator f lang_of)) "import"
                   (pattern_group language) s
              = (Ok (Re.Compiled r f), s).
Proof.
  pose proof (pattern_group_cases language) as H.
  repeat (apply elem_of_cons in H as [-> | H]); [| | | inversion H].
  - exists Patterns.import_python.
    split; [unfold import_rules; set_solver | reflexivity].
  - exists Patterns.import_web.
    split; [unfold import_rules; set_solver | reflexivity].
  - exists Patterns.import_system.
    split; [unfold import_rules; set_solver | reflexivity].
Qed.

(** The loop over the matches of the import rule: each match that has a
    module adds it to the imports and sets its key in the dependencies. *)
Lemma import_step rel_path (m : Re.Match) (rest : M unit) (s : Structure) :
  bind (try_pass (record_match "import" rel_path m)) (λ _, rest) s
  = rest match first_capture wants_module (Re.groupdict m) with
         | Some module =>
             set_patterns (add_import module) (set_dependency module s)
         | None => s
         end.
Proof.
  unfold bind, try_pass, record_match. simpl String.eqb. cbv iota.
  destruct (first_capture wants_module (Re.groupdict m)); reflexivity.
Qed.

Lemma import_loop rel_path (matches : list Re.Match) : ∀ s,
  let modules :=
    omap (λ m, first_capture wants_module (Re.groupdict m)) matches in
  let out :=
    for_each matches (λ m, try_pass (record_match "import" rel_path m)) s in
  out.1 = Ok tt
  ∧ imports (patterns out.2) = imports (patterns s) ++ modules
  ∧ dependencies out.2
    = foldl (λ d k, <[k := true]> d) (dependencies s) modules.
Proof.
  induction matches as [| m matches IH]; intros s.
  - simpl. rewrite app_nil_r. auto.
  - cbv zeta. cbn [for_each omap list_omap]. rewrite import_step.
    destruct (first_capture wants_module (Re.groupdict m)) as [module |].
    + destruct (IH (set_patterns (add_import module)
                      (set_dependency module s)))
        as (Hok & Himports & Hdeps).
      split; [exact Hok |]. split.
      * rewrite Himports. simpl. rewrite <- app_assoc. reflexivity.
      * rewrite Hdeps. reflexivity.
    + apply (IH s).
Qed.

Lemma with_modules_lookup (modules : list string) : ∀ (d : gmap string bool),
  (∀ k, k ∈ modules →
        foldl (λ d k, <[k := true]> d) d modules !! k = Some true)
  ∧ (∀ k, k ∉ modules →
          foldl (λ d k, <[k := true]> d) d modules !! k = d !! k).
Proof.
  induction modules as [| module modules IH]; intros d; simpl.
  - split; [intros k Hk; inversion Hk | reflexivity].
  - destruct (IH (<[module := true]> d)) as [Hin Hout]. split.
    + intros k Hk. destruct (decide (k ∈ modules)) as [Hk' | Hk'];
        [apply Hin; exact Hk' |].
      rewrite Hout by exact Hk'.
      apply elem_of_cons in Hk as [-> | Hk]; [| contradiction].
      apply lookup_insert_eq.
    + intros k Hk. apply not_elem_of_cons in Hk as [Hne Hk].
      rewrite Hout by exact Hk. apply lookup_insert_ne. congruence.
Qed.

Lemma omap_all_some {A C} (g : A → option C) (l : list A) :
  (∀ x, x ∈ l → is_Some (g x)) → length (omap g l) = length l.
Proof.
  induction l as [| x l IH]; intros Hall; [reflexivity |].
  cbn [omap list_omap]. destruct (Hall x) as [y ->]; [left |].
  simpl. f_equal. apply IH. intros z Hz. apply Hall. right. exact Hz.
Qed.

Lemma keeps_after {A C B} (proj : Structure → B) (m : M A) (k : A → M C) :
  (∀ a, keeps proj (k a)) → ∀ s, proj (bind m k s).2 = proj (m s).2.
Proof.
  intros Hk s. unfold bind. destruct (m s) as [[a | e] s'];
    [apply Hk | reflexivity].
Qed.

(** After the scan of the import rule, nothing in the analysis of a file
    writes to the dependencies or to the imports. *)
Lemma analyze_file_import_part self content rel_path language s :
  import_part (_analyze_file self content rel_path language s).2
  = import_part
      (scan_type self content rel_path (pattern_group language) "import"
         s).2.
Proof.
  unfold _analyze_file.
  rewrite (keeps_after import_part).
  2:{ intros _. apply keeps_bind; [| intros _]; apply keeps_when.
      - unfold _analyze_web_patterns. keeps_writes.
      - unfold _analyze_unity_patterns. keeps_writes. }
  unfold scan_types. cbn [for_each].
  apply (keeps_after import_part). intros _.
  unfold scan_type, record_match. simpl String.eqb. cbv iota.
  keeps_steps; simpl; keeps_writes.
Qed.

(** C5: whatever the language, the flags and the content, the import rule
    _analyze_file selects is one of the catalog, and every match of it has
    a first non-empty capture with a name that begins with module; the
    match sets that key of the dependency map to true, which changes
    nothing when the key is already there, and adds nothing to the class
    and function record lists; the whole scan of the import rule leaves
    these two lists as they were.  And the analysis of a file applies this
    to every match the rule finds in the content: it leaves the imports
    longer by the modules of the matches, one for each match and in their
    order, and the dependencies with every one of these modules set to
    true and no other key changed. *)
Theorem import_match_updates_dependencies
    (f : Re.flags) (lang_of : string → string)
    (language content rel_path : string) :
    let self := generator f lang_of in
    ∃ r,
      (∀ s, rule (compiled_patterns self) "import" (pattern_group language) s
            = (Ok (Re.Compiled r f), s))
      ∧ (∀ m s,
           m ∈ Re.finditer (Re.Compiled r f) content →
           ∃ before key module after,
             Re.groupdict m = before ++ (key, Some module) :: after
             ∧ Str.startswith key "module" = true
             ∧ module ≠ ""
             ∧ (∀ k v, (k, v) ∈ before →
                       Str.startswith k "module" = true → truthy v = false)
             ∧ let s' := (record_match "import" rel_path m s).2 in
               dependencies s' = <[module := true]> (dependencies s)
               ∧ (dependencies s !! module = Some true →
                  dependencies s' = dependencies s)
               ∧ class_patterns (patterns s') = class_patterns (patterns s)
               ∧ function_patterns (patterns s')
                 = function_patterns (patterns s))
      ∧ keeps (λ s, (class_patterns (patterns s),
                     function_patterns (patterns s)))
              (scan_type self content rel_path (pattern_group language)
                         "import")
      ∧ (∀ s,
           let s' := (_analyze_file self content rel_path language s).2 in
           let modules := modules_of (Re.Compiled r f) content in
           length modules = length (Re.finditer (Re.Compiled r f) content)
           ∧ imports (patterns s') = imports (patterns s) ++ modules
           ∧ (∀ k, k ∈ modules → dependencies s' !! k = Some true)
           ∧ (∀ k, k ∉ modules → dependencies s' !! k = dependencies s !! k)).
Proof.
  intros self.
  destruct (import_rule_of f lang_of language) as (r & Hr & Hrule).
  exists r. split; [exact Hrule |]. split; [| split].
  - intros m s Hm.
    destruct (import_match_has_module f r content m Hr Hm)
      as (module & Hfirst & _).
    destruct (first_capture_first _ _ _ Hfirst)
      as (before & key & after & Hsplit & Hkey & Hmodule & Hbefore).
    exists before, key, module, after.
    split; [exact Hsplit |]. split; [exact Hkey |].
    split; [exact Hmodule |]. split; [exact Hbefore |].
    intros s'.
    assert (Hs' : s' = set_patterns (add_import module)
                         (set_dependency module s)).
    { subst s'. unfold record_match. simpl String.eqb. cbv iota.
      rewrite Hfirst. reflexivity. }
    rewrite Hs'. simpl.
    split; [reflexivity |].
    split; [intros Hin; apply insert_id; exact Hin |].
    split; reflexivity.
  - unfold scan_type, record_match. simpl String.eqb. cbv iota.
    keeps_writes.
  - intros s. subst self. cbv zeta.
    pose proof (analyze_file_import_part (generator f lang_of) content
                  rel_path language s) as Hpart.
    unfold scan_type in Hpart. unfold bind in Hpart at 1.
    rewrite (Hrule s) in Hpart.
    destruct (import_loop rel_path (Re.finditer (Re.Compiled r f) content) s)
      as (_ & Himports & Hdeps).
    unfold import_part in Hpart. injection Hpart as Hd Hi.
    fold (modules_of (Re.Compiled r f) content) in Himports, Hdeps.
    split.
    { apply omap_all_some. intros m Hm.
      destruct (import_match_has_module f r content m Hr Hm)
        as (module & -> & _). eauto. }
    split; [rewrite Hi; exact Himports |].
    rewrite Hd, Hdeps. apply with_modules_lookup.
Qed.

Lemma import_match_updates_dependencies_witness :
  os_import
  ∈ Re.finditer
      (Re.Compiled Patterns.import_python (Re.Flags true false false))
      "import os"
  ∧ (∃ module,
       dependencies
         (record_match "import" "main.py" os_import empty_structure).2
       = <[module := true]> ∅)
  ∧ imports
      (patterns
         (_analyze_file (generator (Re.Flags true false false) id)
            "import os" "main.py" "python" empty_structure).2)
    = ["os"].
Proof.
  assert (Hin : os_import
                ∈ Re.finditer
                    (Re.Compiled Patterns.import_python
                                 (Re.Flags true false false))
                    "import os")
    by (vm_compute; left).
  split; [exact Hin |].
  destruct (import_match_updates_dependencies
              (Re.Flags true false false) id "python" "import os" "main.py")
    as (r & Hrule & Hmatch & _ & Hscan).
  assert (Hr : r = Patterns.import_python).
  { specialize (Hrule empty_structure).
    assert (H : rule (compiled_patterns
                        (generator (Re.Flags true false false) id))
                  "import" (pattern_group "python") empty_structure
                = (Ok (Re.Compiled Patterns.import_python
                                   (Re.Flags true false false)),
                   empty_structure)) by reflexivity.
    congruence. }
  subst r. split.
  - destruct (Hmatch os_import empty_structure Hin)
      as (before & key & module & after & _ & _ & _ & _ & Hdeps & _).
    exists module. exact Hdeps.
  - destruct (Hscan empty_structure) as (_ & Himports & _).
    exact Himports.
Defined.

(** ** Directory names *)

(** C6: both copies of the classification of a directory name are the
    function that tries lowercase, uppercase, snake_case and kebab-case in
    this order and falls back on mixed; it always answers one of the five
    labels.  So a name that is neither lower-case nor upper-case and has an
    underscore is snake_case.  The record written for a directory carries
    the classification of the base name of its path. *)
Theorem directory_naming_priority :
    (∀ dir_name,
       RulesGenerator.name_pattern dir_name = classification_spec dir_name
       ∧ Analyzers.name_pattern dir_name = classification_spec dir_name
       ∧ classification_spec dir_name
           ∈ ["lowercase"; "uppercase"; "snake_case"; "kebab-case"; "mixed"])
    ∧ (∀ dir_name,
         Str.islower dir_name = false → Str.isupper dir_name = false →
         Str.contains "_" dir_name = true →
         RulesGenerator.name_pattern dir_name = "snake_case"
         ∧ Analyzers.name_pattern dir_name = "snake_case")
    ∧ (∀ dir_path stats s,
         dir_path ≠ "" →
         dp_name_pattern <$>
           directory_patterns
             (patterns (_analyze_directory_patterns [(dir_path, stats)] s))
         = (dp_name_pattern <$> directory_patterns (patterns s))
           ++ [classification_spec (Path.basename dir_path)]
         ∧ _analyze_directory_patterns [(dir_path, stats)] s
           = Analyzers.analyze_directory_patterns [(dir_path, stats)] s).
Proof.
  split; [| split].
  - intros dir_name.
    unfold RulesGenerator.name_pattern, Analyzers.name_pattern,
      classification_spec. simpl.
    split; [reflexivity |]. split; [reflexivity |].
    repeat match goal with
           | |- context [if ?b then _ else _] => destruct b
           end; set_solver.
  - intros dir_name Hl Hu Hs.
    unfold RulesGenerator.name_pattern, Analyzers.name_pattern.
    rewrite Hl, Hu, Hs. split; reflexivity.
  - intros dir_path stats s Hne. simpl.
    destruct (String.eqb_spec dir_path ""); [contradiction |].
    split; [| reflexivity]. simpl. rewrite fmap_app. reflexivity.
Qed.

Lemma directory_naming_priority_witness :
  (Str.islower "My_Dir" = false ∧ Str.isupper "My_Dir" = false
   ∧ Str.contains "_" "My_Dir" = true)
  ∧ RulesGenerator.name_pattern "My_Dir" = "snake_case"
  ∧ Analyzers.name_pattern "My_Dir" = "snake_case".
Proof.
  split; [repeat split; reflexivity |].
  apply (proj1 (proj2 directory_naming_priority) "My_Dir"); reflexivity.
Defined.

(** ** A Python function *)

(** C7: the analysis of a Python file that holds [def foo(a, b):] and an
    indented [pass] adds exactly one record, to the function list: name foo,
    the file's relative path, type function, parameters [a, b]; nothing is
    added to the class list, the imports or the dependencies. *)
Theorem python_function_record
    (f : Re.flags) (lang_of : string → string) (rel_path : string)
    (s : Structure) :
    _analyze_file (generator f lang_of) foo_py rel_path "python" s
    = (Ok tt,
       set_patterns
         (add_function_pattern
            [ ("name", Some "foo"); ("file", Some rel_path);
              ("type", Some "function"); ("parameters", Some "a, b") ]) s).
Proof.
  destruct f as [[] [] []]; vm_compute; reflexivity.
Qed.

(** ** The Unity rules *)

Lemma scan_types_keeps_platform self content rel_path language :
  keeps platform_records (scan_types self content rel_path language).
Proof.
  unfold scan_types. simpl for_each. unfold scan_type, record_match.
  keeps_steps; simpl; keeps_steps.
  all: intros st; unfold platform_records; simpl.
  all: rewrite ?List.filter_app; simpl; rewrite ?app_nil_r; reflexivity.
Qed.

(** C8: for a C# file whose text holds one of the markers, the analysis is
    the scan of the three pattern types followed by the Unity rules; for a
    C# file without a marker the analysis adds no Unity record.  The text
    [public class Player : MonoBehaviour { void Update() {} }] holds a
    marker, and its analysis adds, after the class record of Player and the
    function record of Update, the unity_component record of the class
    header and the unity_lifecycle record of [void Update()]. *)
Theorem unity_rules_guarded_by_marker
    (f : Re.flags) (lang_of : string → string) :
    (∀ self content rel_path s,
       has_unity_marker content = true →
       _analyze_file self content rel_path "csharp" s
       = (scan_types self content rel_path "csharp" >>
          _analyze_unity_patterns self content rel_path) s)
    ∧ (∀ self content rel_path s,
         has_unity_marker content = false →
         let s' := (_analyze_file self content rel_path "csharp" s).2 in
         platform_records s' = platform_records s)
    ∧ (∀ rel_path s,
         has_unity_marker player_cs = true ∧
         _analyze_file (generator f lang_of) player_cs rel_path "csharp" s
         = (Ok tt,
            set_patterns
              (λ p, add_function_pattern
                      [ ("name", Some "void Update()");
                        ("type", Some "unity_lifecycle");
                        ("file", Some rel_path) ]
                   (add_class_pattern
                      [ ("name", Some "public class Player : MonoBehaviour");
                        ("type", Some "unity_component");
                        ("file", Some rel_path) ]
                   (add_function_pattern
                      [ ("name", Some "Update"); ("file", Some rel_path);
                        ("type", Some "function") ]
                   (add_class_pattern
                      [ ("name", Some "Player"); ("file", Some rel_path);
                        ("type", Some "class");
                        ("base", Some "MonoBehaviour") ] p)))) s)).
Proof.
  split; [| split].
  - intros self content rel_path s Hm. unfold _analyze_file.
    rewrite Hm. simpl. unfold bind.
    destruct (scan_types _ _ _ _ s) as [[[] | e] s']; reflexivity.
  - intros self content rel_path s Hm. simpl.
    unfold _analyze_file. rewrite Hm. simpl.
    assert (H : keeps platform_records
                  (scan_types self content rel_path "csharp" >>
                   ret tt >> ret tt)) by
      (apply keeps_bind; [apply scan_types_keeps_platform | intros _];
       apply keeps_bind; [| intros _]; apply keeps_ret).
    apply H.
  - intros rel_path s. split; [vm_compute; reflexivity |].
    destruct f as [[] [] []]; vm_compute; reflexivity.
Qed.

Lemma unity_rules_guarded_by_marker_witness :
  has_unity_marker "class Editor : EditorWindow { void OnGUI() {} }" = false
  ∧ platform_records
      (_analyze_file (generator Re.no_flags id)
         "class Editor : EditorWindow { void OnGUI() {} }" "Editor.cs"
         "csharp" empty_structure).2
    = []
  ∧ has_unity_marker player_cs = true
  ∧ _analyze_file (generator Re.no_flags id) player_cs "Player.cs" "csharp"
      empty_structure
    = (scan_types (generator Re.no_flags id) player_cs "Player.cs" "csharp" >>
       _analyze_unity_patterns (generator Re.no_flags id) player_cs
         "Player.cs") empty_structure.
Proof.
  split; [reflexivity |]. split; [| split; [reflexivity |]].
  - apply (proj1 (proj2 (unity_rules_guarded_by_marker Re.no_flags id))
             (generator Re.no_flags id)
             "class Editor : EditorWindow { void OnGUI() {} }" "Editor.cs"
             empty_structure).
    reflexivity.
  - apply (proj1 (unity_rules_guarded_by_marker Re.no_flags id)
             (generator Re.no_flags id) player_cs "Player.cs"
             empty_structure).
    reflexivity.
Defined.

(** ** The two copies of the web and Unity analyses *)

Lemma index_of_bound name r : ∀ base i,
  Re.index_of name (Re.groupindex_from base r) = Some i →
  base < i ≤ base + Re.ngroups r.
Proof.
  assert (Happ : ∀ l1 l2 i,
            Re.index_of name (l1 ++ l2) = Some i →
            Re.index_of name l1 = Some i ∨ Re.index_of name l2 = Some i).
  { induction l1 as [| [n k] l1 IHl]; intros l2 i; simpl; [auto |].
    destruct (String.eqb n name); [auto | apply IHl]. }
  induction r as [| | | | | | | r1 IH1 r2 IH2 | r1 IH1 r2 IH2 | g r IH
                 | g r IH | g r IH | [n |] r IH | g r IH];
    intros base i; simpl; try discriminate.
  - intros [H | H]%Happ; [apply IH1 in H | apply IH2 in H]; lia.
  - intros [H | H]%Happ; [apply IH1 in H | apply IH2 in H]; lia.
  - apply IH.
  - apply IH.
  - apply IH.
  - destruct (String.eqb n name).
    + intros [= <-]. lia.
    + intros H%IH. lia.
  - intros H%IH. lia.
  - apply IH.
Qed.

(** A group read by its name is the group read by its number. *)
Lemma group_by_name (m : Re.Match) (name : string) (i : nat) :
  Re.index_of name (Re.groupindex (Re.p_regex (Re.m_re m))) = Some i →
  group_named m name = group m i.
Proof.
  intros Hi. unfold group_named, group, Re.group_named, Re.group.
  rewrite Hi. apply index_of_bound in Hi as [_ Hi]. simpl in Hi.
  destruct (Nat.leb_spec i (Re.ngroups (Re.p_regex (Re.m_re m))));
    [reflexivity | lia].
Qed.

Lemma rule_found (c : Catalog) (bucket name : string) (p : Re.Pattern)
    (s s' : Structure) :
  rule c bucket name s = (Ok p, s') →
  ∃ rules, dict_get bucket c = Some rules ∧ dict_get name rules = Some p.
Proof.
  unfold rule, bind, or_raise.
  destruct (dict_get bucket c) as [rules |]; [| discriminate].
  simpl. destruct (dict_get name rules) as [q |] eqn:Hq; [| discriminate].
  intros [= -> _]. exists rules. split; [reflexivity | exact Hq].
Qed.

(** C9, as amended: whatever the content, the path and the structure,
    analyze_web_patterns of analyzers.py returns or raises the same and
    leaves the same structure as the method _analyze_web_patterns, for
    every compiled catalog; analyze_unity_patterns does the same as the
    method _analyze_unity_patterns for every compiled catalog in which the
    groups named type and name of the Unity field rule are its groups 1 and
    2, the method reading them by number and the function by name; the
    catalog of patterns.py is such a catalog, whatever the flags. *)
Theorem analyzers_agree_with_generator
    (self : Self) (content rel_path : string) (s : Structure) :
    Analyzers.analyze_web_patterns content rel_path (compiled_patterns self) s
    = _analyze_web_patterns self content rel_path s
    ∧ (field_by_name (compiled_patterns self) →
       Analyzers.analyze_unity_patterns content rel_path
         (compiled_patterns self) s
       = _analyze_unity_patterns self content rel_path s)
    ∧ (∀ f lang_of, field_by_name (compiled_patterns (generator f lang_of))).
Proof.
  split; [reflexivity |]. split.
  - intros Hfield.
    unfold Analyzers.analyze_unity_patterns, _analyze_unity_patterns.
    revert s.
    do 5 (apply bind_ext; [reflexivity | intros _]).
    apply bind_ext_on. intros s p s' Hrule.
    apply rule_found in Hrule as (rules & Hrules & Hp).
    destruct (Hfield rules p Hrules Hp) as [Htype Hname].
    apply for_each_ext. intros m Hm s1.
    apply finditer_re in Hm.
    rewrite (group_by_name m "type" 1) by (rewrite Hm; exact Htype).
    rewrite (group_by_name m "name" 2) by (rewrite Hm; exact Hname).
    reflexivity.
  - intros f lang_of rules p Hrules Hp.
    injection Hrules as <-. simpl in Hp. injection Hp as <-.
    split; reflexivity.
Qed.

Lemma analyzers_agree_with_generator_witness :
  field_by_name (compile_catalog Re.no_flags Patterns.PATTERNS)
  ∧ Analyzers.analyze_unity_patterns player_cs "Player.cs"
      (compile_catalog Re.no_flags Patterns.PATTERNS) empty_structure
    = _analyze_unity_patterns (generator Re.no_flags id) player_cs
        "Player.cs" empty_structure.
Proof.
  pose proof (analyzers_agree_with_generator (generator Re.no_flags id)
                player_cs "Player.cs" empty_structure)
    as (_ & Hunity & Hfield).
  split; [exact (Hfield Re.no_flags id) |].
  exact (Hunity (Hfield Re.no_flags id)).
Defined.

(** C9, as stated, fails: on compiled patterns whose Unity field rule has
    two groups without a name, the method, which reads the groups by
    number, writes a unity_field record for the text of a field, and the
    function of analyzers.py, which reads them by name, raises IndexError
    and writes none. *)
Lemma analyzers_differ_on_unnamed_field :
  let self := {| compiled_patterns := unnamed_fields;
                 get_language_from_ext := id |} in
  _analyze_unity_patterns self "int speed;" "Player.cs" empty_structure
  = (Ok tt,
     set_patterns
       (add_code_organization
          [ ("type", Some "unity_field"); ("field_type", Some "int");
            ("name", Some "speed"); ("file", Some "Player.cs") ])
       empty_structure)
  ∧ Analyzers.analyze_unity_patterns "int speed;" "Player.cs" unnamed_fields
      empty_structure
    = (Raise (IndexError "no such group"), empty_structure)
  ∧ ¬ field_by_name unnamed_fields.
Proof.
  split; [vm_compute; reflexivity |]. split; [vm_compute; reflexivity |].
  intros H.
  assert (Hfield : ∃ rules, dict_get "unity" unnamed_fields = Some rules
                            ∧ dict_get "field" rules = Some unnamed_field)
    by (eexists; split; vm_compute; reflexivity).
  destruct Hfield as (rules & Hrules & Hp).
  destruct (H rules unnamed_field Hrules Hp) as [Htype _].
  discriminate.
Qed.

(** ** analyze_file_content *)

Section FileContent.
Variables BINARY_EXTENSIONS NON_CODE_EXTENSIONS CODE_EXTENSIONS
  : list string.
Variable FUNCTION_PATTERNS : list (string * string).
Variable IGNORED_KEYWORDS : list string.
Variable re_compile : string → Re.flags → result Re.Pattern.
Variable read : string → result string.
Variable print : string → result unit.
Variable str : exn → string.

Lemma collect_reportable matches : ∀ functions,
  Forall (reportable IGNORED_KEYWORDS) functions →
  Forall (reportable IGNORED_KEYWORDS)
         (Analyzers.collect IGNORED_KEYWORDS matches functions).
Proof.
  unfold Analyzers.collect.
  induction matches as [| m matches IH]; intros functions Hf; simpl;
    [exact Hf |].
  apply IH. destruct (Analyzers.first_group m) as [name |]; [| exact Hf].
  destruct (String.eqb_spec name ""); simpl; [exact Hf |].
  destruct (Str.eqb_in _ _) eqn:Hk; [exact Hf |].
  apply Forall_app. split; [exact Hf |].
  apply Forall_singleton. split; assumption.
Qed.

Lemma detect_from_reportable content patterns : ∀ functions,
  Forall (reportable IGNORED_KEYWORDS) functions →
  Forall (reportable IGNORED_KEYWORDS)
    (foldl (Analyzers.try_pattern IGNORED_KEYWORDS re_compile content)
           functions patterns).
Proof.
  induction patterns as [| [name pattern] patterns IH];
    intros functions Hf; simpl; [exact Hf |].
  apply IH. destruct (re_compile _ _); [| exact Hf].
  apply collect_reportable. exact Hf.
Qed.

Lemma detect_skips_refused content before name pattern e after :
  re_compile pattern (Re.Flags true true false) = Raise e →
  Analyzers.detect IGNORED_KEYWORDS re_compile
    (before ++ (name, pattern) :: after) content
  = Analyzers.detect IGNORED_KEYWORDS re_compile (before ++ after) content.
Proof.
  intros He. unfold Analyzers.detect. rewrite !foldl_app. simpl.
  rewrite He. reflexivity.
Qed.

(** C10, as amended: analyze_file_content returns a pair for every path,
    unless the report of an exception its handler caught cannot be
    printed.  A path with a binary or non-code extension gives the empty
    list and 0, whatever the standard output; a readable file with an
    extension outside the code extensions gives the same; a readable code
    file gives what the patterns detect and the number of its lines; a file
    that cannot be read gives the empty list and 0 once the report is
    printed.  The function raises only what the print of that report
    raises.  A pattern the
    compiler refuses is skipped, the patterns before and after it being
    tried as if it were absent; every reported name is non-empty and, in
    lower case, not an ignored keyword. *)
Theorem analyze_file_content_total (file_path : string) :
    let analyze :=
      Analyzers.analyze_file_content BINARY_EXTENSIONS NON_CODE_EXTENSIONS
        CODE_EXTENSIONS FUNCTION_PATTERNS IGNORED_KEYWORDS re_compile read
        print str in
    let binary :=
      Analyzers.is_binary_file BINARY_EXTENSIONS NON_CODE_EXTENSIONS
        file_path in
    (binary = true → analyze file_path = Ok ([], 0))
    ∧ (∀ content,
         binary = false → read file_path = Ok content →
         analyze file_path
         = Ok (if Str.eqb_in (file_ext file_path) CODE_EXTENSIONS
               then (Analyzers.detect IGNORED_KEYWORDS re_compile
                       FUNCTION_PATTERNS content,
                     Str.count_lines content)
               else ([], 0)))
    ∧ (∀ e u,
         read file_path = Raise e →
         print (Analyzers.report str file_path e) = Ok u →
         analyze file_path = Ok ([], 0))
    ∧ ((∀ e, read file_path = Raise e →
             ∃ u, print (Analyzers.report str file_path e) = Ok u) →
       ∃ r, analyze file_path = Ok r)
    ∧ (∀ e', analyze file_path = Raise e' →
             ∃ e, binary = false ∧ read file_path = Raise e
                  ∧ print (Analyzers.report str file_path e) = Raise e')
    ∧ (∀ content before name pattern e after,
         re_compile pattern (Re.Flags true true false) = Raise e →
         Analyzers.detect IGNORED_KEYWORDS re_compile
           (before ++ (name, pattern) :: after) content
         = Analyzers.detect IGNORED_KEYWORDS re_compile
             (before ++ after) content)
    ∧ (∀ functions lines name description,
         analyze file_path = Ok (functions, lines) →
         (name, description) ∈ functions →
         name ≠ "" ∧
         Str.eqb_in (Str.lower name) IGNORED_KEYWORDS = false).
Proof.
  intros analyze binary. subst analyze binary.
  unfold Analyzers.analyze_file_content,
    Analyzers.analyze_file_content_body, file_ext.
  destruct (Analyzers.is_binary_file _ _ _) eqn:Hbinary.
  { split; [reflexivity |]. split; [discriminate |].
    split; [reflexivity |]. split; [eauto |]. split; [discriminate |].
    split; [intros; eapply detect_skips_refused; eassumption |].
    intros functions lines name description [= <- <-] Hin. inversion Hin. }
  destruct (read file_path) as [content | e] eqn:Hread.
  - split; [discriminate |]. split.
    { intros content' _ [= <-].
      destruct (Str.eqb_in _ CODE_EXTENSIONS); reflexivity. }
    split; [discriminate |]. split.
    { intros _. destruct (negb _); eauto. }
    split.
    { intros e'. destruct (negb _); discriminate. }
    split.
    { intros. eapply detect_skips_refused; eassumption. }
    intros functions lines name description Hok Hin.
    assert (H : Forall (reportable IGNORED_KEYWORDS) functions).
    { destruct (negb _); injection Hok as <- <-; [constructor |].
      apply detect_from_reportable. constructor. }
    rewrite Forall_forall in H. exact (H _ Hin).
  - split; [discriminate |]. split; [discriminate |]. split.
    { intros e0 u [= <-] ->. reflexivity. }
    split.
    { intros Hprint. destruct (Hprint e eq_refl) as [u ->]. eauto. }
    split.
    { intros e' He'. exists e. split; [reflexivity |].
      split; [reflexivity |].
      destruct (print _); [discriminate | congruence]. }
    split.
    { intros. eapply detect_skips_refused; eassumption. }
    intros functions lines name description Hok Hin.
    destruct (print _); [| discriminate].
    injection Hok as <- <-. inversion Hin.
Qed.

End FileContent.

Lemma analyze_file_content_total_witness :
  Sample.analyze Sample.print "logo.png" = Ok ([], 0)
  ∧ Sample.analyze Sample.print "notes.txt" = Ok ([], 0)
  ∧ Sample.analyze Sample.print "gone.py" = Ok ([], 0)
  ∧ Sample.analyze Sample.ascii_print "gone.py" = Ok ([], 0)
  ∧ Sample.analyze Sample.print "a.py"
    = Ok ([("foo", "Function detected")], 1)
  ∧ ("foo" ≠ "" ∧ Str.eqb_in (Str.lower "foo") Sample.IGNORED_KEYWORDS = false).
Proof.
  pose proof (analyze_file_content_total
                Sample.BINARY_EXTENSIONS Sample.NON_CODE_EXTENSIONS
                Sample.CODE_EXTENSIONS Sample.FUNCTION_PATTERNS
                Sample.IGNORED_KEYWORDS Sample.re_compile Sample.read)
    as total.
  split; [exact (proj1 (total Sample.print Sample.str "logo.png") eq_refl) |].
  split.
  { exact (proj1 (proj2 (proj2 (total Sample.print Sample.str "notes.txt")))
             _ tt eq_refl eq_refl). }
  split.
  { exact (proj1 (proj2 (proj2 (total Sample.print Sample.str "gone.py")))
             _ tt eq_refl eq_refl). }
  split.
  { exact (proj1 (proj2 (proj2 (total Sample.ascii_print Sample.str
                                  "gone.py")))
             _ tt eq_refl eq_refl). }
  split.
  { exact (proj1 (proj2 (total Sample.print Sample.str "a.py"))
             _ eq_refl eq_refl). }
  apply (proj2 (proj2 (proj2 (proj2 (proj2 (proj2
           (total Sample.print Sample.str "a.py"))))))
           [("foo", "Function detected")] 1 "foo" "Function detected").
  - reflexivity.
  - left.
Defined.

(** C10, as stated, fails: the path of a missing file whose name has a
    letter outside the ASCII range is no binary file, reading it raises,
    and on a standard output that encodes to ASCII the report of the
    handler cannot be printed: the function raises UnicodeEncodeError
    instead of returning the empty list and 0. *)
Lemma analyze_file_content_raises :
  Analyzers.is_binary_file Sample.BINARY_EXTENSIONS
    Sample.NON_CODE_EXTENSIONS Sample.accented_py = false
  ∧ (∃ e, Sample.read Sample.accented_py = Raise e)
  ∧ Sample.analyze Sample.ascii_print Sample.accented_py
    = Raise UnicodeEncodeError
  ∧ ¬ (∃ r, Sample.analyze Sample.ascii_print Sample.accented_py = Ok r).
Proof.
  split; [reflexivity |]. split; [eexists; reflexivity |].
  split; [reflexivity |]. intros [r H]. discriminate.
Qed.

(** * The rest of the code

    Properties of the functions above that the statements of the first part
    leave out, and of the functions embedded besides. *)

(** ** Strings *)

Lemma chr_lower_idempotent c : Chr.lower (Chr.lower c) = Chr.lower c.
Proof. destruct c as [[] [] [] [] [] [] [] []]; reflexivity. Qed.

Lemma chars_of_chars l : Str.chars (Str.of_chars l) = l.
Proof. apply String.list_ascii_of_string_of_list_ascii. Qed.

Lemma of_chars_chars s : Str.of_chars (Str.chars s) = s.
Proof. apply String.string_of_list_ascii_of_string. Qed.

Lemma str_lower_idempotent s : Str.lower (Str.lower s) = Str.lower s.
Proof.
  unfold Str.lower. rewrite chars_of_chars. f_equal.
  rewrite List.map_map. apply List.map_ext. apply chr_lower_idempotent.
Qed.


Lemma lstrip_no_lead l : no_lead (Str.lstrip_chars l).
Proof.
  induction l as [| c l IH]; simpl; [exact I |].
  destruct (Chr.is_space c) eqn:E; [exact IH | exact E].
Qed.

Lemma lstrip_fixed l : no_lead l → Str.lstrip_chars l = l.
Proof. destruct l as [| c l]; simpl; [reflexivity | intros ->; reflexivity]. Qed.

Lemma lstrip_suffix l : ∃ pre, l = pre ++ Str.lstrip_chars l.
Proof.
  induction l as [| c l [pre IH]]; simpl; [exists []; reflexivity |].
  destruct (Chr.is_space c); [| exists []; reflexivity].
  exists (c :: pre). simpl. rewrite <- IH. reflexivity.
Qed.

Lemma strip_chars s :
  let l := rev (Str.lstrip_chars (rev (Str.lstrip_chars (Str.chars s)))) in
  Str.chars (Str.strip s) = l ∧ no_lead l ∧ no_lead (rev l).
Proof.
  intros l. unfold Str.strip. rewrite chars_of_chars.
  split; [reflexivity |]. subst l. rewrite rev_involutive.
  split; [| apply lstrip_no_lead].
  set (l1 := Str.lstrip_chars (Str.chars s)).
  pose proof (lstrip_no_lead (Str.chars s)) as H1. fold l1 in H1.
  destruct (lstrip_suffix (rev l1)) as [pre Hpre].
  destruct (Str.lstrip_chars (rev l1)) as [| c r]; [exact I |].
  apply (f_equal (@rev ascii)) in Hpre.
  rewrite rev_involutive, rev_app_distr in Hpre.
  destruct (rev (c :: r)) as [| c' r'] eqn:E.
  - apply (f_equal length) in E. rewrite length_rev in E. discriminate.
  - rewrite Hpre in H1. exact H1.
Qed.

Lemma strip_idempotent s : Str.strip (Str.strip s) = Str.strip s.
Proof.
  destruct (strip_chars s) as (Hchars & Hlead & Htail).
  unfold Str.strip at 1. rewrite Hchars.
  rewrite (lstrip_fixed _ Hlead), (lstrip_fixed _ Htail), rev_involutive.
  rewrite <- Hchars. apply of_chars_chars.
Qed.

(** ** When the analysis of a file raises *)

Lemma returns_outcome (m : M unit) : returns m → outcome m (Ok tt).
Proof. intros H s. destruct (H s) as [[] Ha]. exact Ha. Qed.

Lemma outcome_returns {A} (m : M A) a : outcome m (Ok a) → returns m.
Proof. intros H s. exists a. apply H. Qed.

Lemma outcome_after {A C} (m : M A) (k : A → M C) r :
  returns m → (∀ a, outcome (k a) r) → outcome (bind m k) r.
Proof.
  intros Hm Hk s. unfold bind. destruct (Hm s) as [a Ha].
  destruct (m s) as [[a' | e] s']; simpl in Ha; [apply Hk | discriminate].
Qed.

Lemma outcome_before {A C} (m : M A) (k : A → M C) e :
  outcome m (Raise e) → outcome (bind m k) (Raise e).
Proof.
  intros Hm s. unfold bind. specialize (Hm s).
  destruct (m s) as [[a | e'] s']; simpl in Hm; [discriminate |].
  simpl. congruence.
Qed.

Lemma outcome_bind_value {A C} (m : M A) (a : A) (k : A → M C) r :
  (∀ s, m s = (Ok a, s)) → outcome (k a) r → outcome (bind m k) r.
Proof. intros Hm Hk s. unfold bind. rewrite Hm. apply Hk. Qed.

Lemma returns_group_named (m : Re.Match) (name : string) (p : Re.Pattern) :
  Re.m_re m = p →
  is_Some (Re.index_of name (Re.groupindex (Re.p_regex p))) →
  returns (group_named m name).
Proof.
  intros Hre [i Hi] s. unfold group_named, Re.group_named.
  rewrite Hre, Hi. eexists. reflexivity.
Qed.

Ltac returns_lookup :=
  first [ eapply returns_group; [eassumption | reflexivity]
        | eapply returns_group_named; [eassumption | vm_compute; eauto] ].

Ltac returns_body :=
  repeat (apply returns_bind; [returns_lookup | intros ?]); returns_steps.

Lemma unity_returns f lang_of content rel_path :
  returns (_analyze_unity_patterns (generator f lang_of) content rel_path).
Proof.
  unfold _analyze_unity_patterns.
  apply returns_bind;
    [scan_returns (Re.Compiled Patterns.unity_component f); returns_body
    | intros _].
  apply returns_bind;
    [scan_returns (Re.Compiled Patterns.unity_lifecycle f); returns_body
    | intros _].
  apply returns_bind;
    [scan_returns (Re.Compiled Patterns.unity_attribute f); returns_body
    | intros _].
  apply returns_bind;
    [scan_returns (Re.Compiled Patterns.unity_type f); returns_body
    | intros _].
  apply returns_bind;
    [scan_returns (Re.Compiled Patterns.unity_event f); returns_body
    | intros _].
  scan_returns (Re.Compiled Patterns.unity_field f); returns_body.
Qed.

Lemma jsx_returns f content rel_path :
  returns
    (let! p := rule (compile_catalog f Patterns.PATTERNS) "common"
                    "jsx_component" in
     for_each (Re.finditer p content) (λ m,
       let! component_name := group m 1 in
       match component_name with
       | None => raise (TypeError "'NoneType' object is not subscriptable")
       | Some s =>
           match Str.chars s with
           | [] => raise (IndexError "string index out of range")
           | c :: _ =>
               when (Chr.is_upper c)
                 (patterns_append "class_patterns"
                    [ ("name", component_name);
                      ("type", Some "react_component");
                      ("file", Some rel_path) ])
           end
       end)).
Proof.
  apply (returns_bind_value _ (Re.Compiled Patterns.jsx_component f));
    [intros ?; reflexivity |].
  apply returns_for_each. intros m Hm.
  destruct (jsx_name_nonempty f content m Hm) as (c & name & Hname).
  apply finditer_re in Hm.
  apply (returns_bind_value _ (Re.group_text m 1));
    [apply (group_value m 1 _ Hm); reflexivity |].
  rewrite Hname. simpl. returns_steps.
Qed.

Lemma route_lookup_raises f page_match :
  Re.m_re page_match = Re.Compiled Patterns.next_page f →
  ∀ s, group_named page_match "route" s
       = (Raise (IndexError "no such group"), s).
Proof.
  intros E s. unfold group_named, Re.group_named. rewrite E. reflexivity.
Qed.

Lemma web_outcome f lang_of content rel_path :
  outcome (_analyze_web_patterns (generator f lang_of) content rel_path)
    (if in_pages rel_path && route_matches f rel_path
     then Raise (IndexError "no such group") else Ok tt).
Proof.
  unfold _analyze_web_patterns.
  apply outcome_after;
    [scan_returns (Re.Compiled Patterns.common_interface f); returns_body
    | intros _].
  apply outcome_after; [apply jsx_returns | intros _].
  apply outcome_after;
    [scan_returns (Re.Compiled Patterns.react_hook f); returns_body
    | intros _].
  fold (in_pages rel_path).
  assert (Hstyled : returns
    (let! p := rule (compiled_patterns (generator f lang_of)) "common"
                    "styled_component" in
     for_each (Re.finditer p content) (λ m,
       let! element := group_named m "element" in
       patterns_append "code_organization"
         [ ("type", Some "styled_component");
           ("element", Some (or_default "css" element));
           ("file", Some rel_path) ])))
    by (scan_returns (Re.Compiled Patterns.styled_component f); returns_body).
  destruct (in_pages rel_path); simpl andb.
  2: { apply outcome_after; [apply returns_ret | intros _].
       apply returns_outcome, Hstyled. }
  unfold when.
  unfold route_matches.
  destruct (Re.search (Re.Compiled Patterns.next_page f) rel_path)
    as [page_match |] eqn:E.
  - rewrite bool_decide_eq_true_2 by eauto.
    apply outcome_before.
    apply outcome_after;
      [scan_returns (Re.Compiled Patterns.next_api f); returns_body
      | intros _].
    apply outcome_before.
    apply (outcome_bind_value _ (Re.Compiled Patterns.next_page f));
      [intros ?; reflexivity |].
    rewrite E. apply outcome_before. intros s.
    rewrite (route_lookup_raises f page_match (search_re _ _ _ E)).
    reflexivity.
  - rewrite bool_decide_eq_false_2 by (intros [? ?]; discriminate).
    apply outcome_after; [| intros _; apply returns_outcome, Hstyled].
    apply returns_bind;
      [scan_returns (Re.Compiled Patterns.next_api f); returns_body
      | intros _].
    apply returns_bind.
    + apply (returns_bind_value _ (Re.Compiled Patterns.next_page f));
        [intros ?; reflexivity |].
      rewrite E. apply returns_ret.
    + intros _.
      apply (returns_bind_value _ (Re.Compiled Patterns.next_layout f));
        [intros ?; reflexivity |].
      apply returns_when. returns_steps.
Qed.

Lemma raises_bind_value {A C B} e (proj : Structure → B) (m : M A) (a : A)
    (k : A → M C) :
  (∀ s, m s = (Ok a, s)) → raises_keeping e proj (k a) →
  raises_keeping e proj (bind m k).
Proof. intros Hm Hk s. unfold bind. rewrite Hm. apply Hk. Qed.

Lemma web_routed_raises f lang_of content rel_path :
  in_pages rel_path = true → route_matches f rel_path = true →
  raises_keeping (IndexError "no such group")
    (λ s, code_organization (patterns s))
    (_analyze_web_patterns (generator f lang_of) content rel_path).
Proof.
  intros Hpages Hroute. unfold _analyze_web_patterns.
  apply raises_after; [| keeps_writes | intros _].
  { scan_returns (Re.Compiled Patterns.common_interface f); returns_body. }
  apply raises_after; [apply jsx_returns | keeps_writes | intros _].
  apply raises_after; [| keeps_writes | intros _].
  { scan_returns (Re.Compiled Patterns.react_hook f); returns_body. }
  apply raises_before. fold (in_pages rel_path). rewrite Hpages.
  unfold when.
  apply raises_after; [| keeps_writes | intros _].
  { scan_returns (Re.Compiled Patterns.next_api f); returns_body. }
  apply raises_before.
  unfold route_matches in Hroute. apply bool_decide_eq_true in Hroute.
  destruct Hroute as [page_match E].
  apply (raises_bind_value _ _ _ (Re.Compiled Patterns.next_page f));
    [intros ?; reflexivity |].
  rewrite E. intros s. unfold bind.
  rewrite (route_lookup_raises f page_match (search_re _ _ _ E)).
  split; reflexivity.
Qed.

(** X1: over the compiled catalog, whatever the flags, the analysis of a
    file raises in one case only: the language is typescript or javascript,
    the path holds pages/ or app/, and the route rule matches the path.  It
    then raises the IndexError of asking the match for the group named
    route, and the code-organization list is as it was: no next_layout nor
    styled_component record is written for such a file.  In every other
    case, a C# file with Unity markers included, it returns. *)
Theorem analyze_file_raises_only_on_routes
    (f : Re.flags) (lang_of : string → string)
    (content rel_path language : string) (s : Structure) :
    let routed :=
      is_web language && in_pages rel_path && route_matches f rel_path in
    let out := _analyze_file (generator f lang_of) content rel_path language
                 s in
    out.1 = (if routed then Raise (IndexError "no such group") else Ok tt)
    ∧ (routed = true →
       code_organization (patterns out.2) = code_organization (patterns s)).
Proof.
  intros routed out. subst routed out. split.
  - revert s.
    change (outcome (_analyze_file (generator f lang_of) content rel_path
                                   language)
              (if is_web language && in_pages rel_path
                  && route_matches f rel_path
               then Raise (IndexError "no such group") else Ok tt)).
    unfold _analyze_file.
    apply outcome_after; [apply scan_types_returns | intros _].
    fold (is_web language).
    destruct (is_web language) eqn:Hweb.
    + assert (Hcs : String.eqb language "csharp" = false).
      { unfold is_web, Str.eqb_in in Hweb. cbn [existsb] in Hweb.
        destruct (String.eqb_spec language "csharp") as [-> |];
          [discriminate | reflexivity]. }
      rewrite Hcs. simpl andb. unfold when.
      pose proof (web_outcome f lang_of content rel_path) as Hw.
      destruct (in_pages rel_path && route_matches f rel_path).
      * apply outcome_before. exact Hw.
      * apply outcome_after; [apply (outcome_returns _ _ Hw) | intros _].
        apply returns_outcome, returns_ret.
    + simpl andb. unfold when at 1.
      apply outcome_after; [apply returns_ret | intros _].
      apply returns_outcome, returns_when, unity_returns.
  - intros [[Hweb Hpages]%andb_prop Hroute]%andb_prop.
    assert (H : raises_keeping (IndexError "no such group")
                  (λ s, code_organization (patterns s))
                  (_analyze_file (generator f lang_of) content rel_path
                                 language)).
    { unfold _analyze_file.
      apply raises_after;
        [apply scan_types_returns
        | apply scan_types_keeps_code_organization | intros _].
      apply raises_before. fold (is_web language). rewrite Hweb.
      apply web_routed_raises; assumption. }
    apply H.
Qed.

(** ** What every step of a computation preserves *)

Section Preserves.
Context (P : Structure → Prop).

Lemma preserves_ret {A} (a : A) : preserves P (ret a).
Proof. intros s H. exact H. Qed.

Lemma preserves_raise {A} (e : exn) : preserves P (@raise A e).
Proof. intros s H. exact H. Qed.

Lemma preserves_or_raise {A} (e : exn) (o : option A) :
  preserves P (or_raise e o).
Proof. destruct o; intros s H; exact H. Qed.

Lemma preserves_lift {A} (r : result A) : preserves P (lift r).
Proof. intros s H. exact H. Qed.

Lemma preserves_modify g : (∀ s, P s → P (g s)) → preserves P (modify g).
Proof. intros Hg s H. apply Hg, H. Qed.

Lemma preserves_bind {A C} (m : M A) (k : A → M C) :
  preserves P m → (∀ a, preserves P (k a)) → preserves P (bind m k).
Proof.
  intros Hm Hk s H. unfold bind. specialize (Hm s H).
  destruct (m s) as [[a | e] s']; simpl in *; [apply Hk, Hm | exact Hm].
Qed.

Lemma preserves_when (c : bool) (m : M unit) :
  preserves P m → preserves P (when c m).
Proof. intros Hm. destruct c; [exact Hm | apply preserves_ret]. Qed.

Lemma preserves_try_pass (m : M unit) :
  preserves P m → preserves P (try_pass m).
Proof.
  intros Hm s H. unfold try_pass. specialize (Hm s H).
  destruct (m s) as [[a | e] s']; exact Hm.
Qed.

Lemma preserves_for_each {A} (l : list A) (body : A → M unit) :
  (∀ x, preserves P (body x)) → preserves P (for_each l body).
Proof.
  intros Hbody. induction l as [| x l IH]; simpl.
  - apply preserves_ret.
  - apply preserves_bind; [apply Hbody | intros _; exact IH].
Qed.

Lemma preserves_rule (c : Catalog) (bucket name : string) :
  preserves P (rule c bucket name).
Proof.
  unfold rule. apply preserves_bind; [| intros rules];
    apply preserves_or_raise.
Qed.

Lemma preserves_group (m : Re.Match) (i : nat) : preserves P (group m i).
Proof. apply preserves_or_raise. Qed.

Lemma preserves_group_named (m : Re.Match) (name : string) :
  preserves P (group_named m name).
Proof. apply preserves_or_raise. Qed.

End Preserves.

Lemma keeps_preserves {A B} (proj : Structure → B) (Q : B → Prop) (m : M A) :
  keeps proj m → preserves (λ s, Q (proj s)) m.
Proof. intros Hm s H. rewrite Hm. exact H. Qed.

Lemma preserves_bind_value {A C} (P : Structure → Prop) (m : M A) (a : A)
    (k : A → M C) :
  (∀ s, m s = (Ok a, s)) → preserves P (k a) → preserves P (bind m k).
Proof. intros Hm Hk s H. unfold bind. rewrite Hm. apply Hk, H. Qed.

Lemma preserves_for_each_in {A} (P : Structure → Prop) (l : list A)
    (body : A → M unit) :
  (∀ x, x ∈ l → preserves P (body x)) → preserves P (for_each l body).
Proof.
  induction l as [| x l IH]; intros Hbody; simpl; [apply preserves_ret |].
  apply preserves_bind; [apply Hbody; left | intros _].
  apply IH. intros y Hy. apply Hbody. right. exact Hy.
Qed.

Ltac preserves_steps :=
  repeat first
    [ apply preserves_ret | apply preserves_raise | apply preserves_or_raise
    | apply preserves_rule | apply preserves_group
    | apply preserves_group_named | apply preserves_lift
    | apply preserves_when | apply preserves_try_pass
    | apply preserves_for_each; intros ?
    | apply preserves_bind; [| intros ?]
    | match goal with
      | |- preserves _ (match ?x with _ => _ end) => destruct x
      end ].

(** ** What the analysis of a file adds *)

Lemma analyze_file_keeps_aside self content rel_path language :
  keeps aside (_analyze_file self content rel_path language).
Proof.
  unfold _analyze_file.
  apply keeps_bind; [| intros _].
  { unfold scan_types. simpl for_each. unfold scan_type, record_match.
    keeps_steps; simpl; keeps_writes. }
  apply keeps_bind; [| intros _]; apply keeps_when.
  - unfold _analyze_web_patterns. keeps_writes.
  - unfold _analyze_unity_patterns. keeps_writes.
Qed.

Lemma grows_refl s : grows s s.
Proof. repeat split; auto. Qed.

Lemma patterns_append_grows s0 key info :
  preserves (grows s0) (patterns_append key info).
Proof.
  intros s (Hi & Hc & Hf & Ho & Hd). unfold patterns_append.
  repeat match goal with
         | |- context [String.eqb key ?k] => destruct (String.eqb key k)
         end; simpl; repeat split; auto; simpl;
    (etransitivity; [eassumption | apply prefix_app_r; reflexivity]).
Qed.

Lemma record_import_grows s0 module :
  preserves (grows s0)
    (modify (set_dependency module) >>
     modify (set_patterns (add_import module))).
Proof.
  intros s (Hi & Hc & Hf & Ho & Hd). repeat split; auto; simpl.
  - etransitivity; [exact Hi | apply prefix_app_r; reflexivity].
  - intros m Hm. apply lookup_insert_is_Some.
    destruct (decide (module = m)); auto.
Qed.

Ltac grows_steps :=
  preserves_steps;
  try apply patterns_append_grows;
  try apply record_import_grows.

Lemma analyze_file_grows s0 self content rel_path language :
  preserves (grows s0) (_analyze_file self content rel_path language).
Proof.
  unfold _analyze_file.
  apply preserves_bind; [| intros _].
  { unfold scan_types. simpl for_each. unfold scan_type, record_match.
    simpl String.eqb. cbv iota.
    apply preserves_bind; [| intros _].
    - apply preserves_bind; [apply preserves_rule | intros p].
      apply preserves_for_each. intros m. apply preserves_try_pass.
      destruct (first_capture wants_module _);
        [apply record_import_grows | apply preserves_ret].
    - grows_steps; simpl; grows_steps. }
  apply preserves_bind; [| intros _]; apply preserves_when.
  - unfold _analyze_web_patterns. grows_steps.
  - unfold _analyze_unity_patterns. grows_steps.
Qed.

(** X2: whatever the catalog, and whether it returns or raises, the
    analysis of a file only appends: the imports and the three lists of
    records it leaves begin with what they held, every dependency is still
    there, and files, languages, config_files, code_contents,
    directory_structure, configurations and directory_patterns are as they
    were. *)
Theorem analysis_only_appends
    (self : Self) (content rel_path language : string) (s : Structure) :
    let s' := (_analyze_file self content rel_path language s).2 in
    grows s s' ∧ aside s' = aside s.
Proof.
  intros s'. split.
  - apply (analyze_file_grows s self content rel_path language s).
    apply grows_refl.
  - apply analyze_file_keeps_aside.
Qed.

(** ** What the traversal preserves *)

Lemma walk_invariant (P : Structure → Prop) self read :
  (∀ rel_root st file, P st.1 → P (visit_file self read rel_root st file).1) →
  ∀ t rel_root st, P st.1 → P (walk self read rel_root t st).1.
Proof.
  intros Hvisit. fix IH 1. intros [names dirs] rel_root st Hst. simpl.
  assert (Hfiles : ∀ names st0, P st0.1 →
            P (foldl (visit_file self read rel_root) st0 names).1).
  { clear -Hvisit. induction names as [| file names IHf]; intros st0 H0;
      simpl; [exact H0 |]. apply IHf, Hvisit, H0. }
  specialize (Hfiles names (st.1, fresh_stats) Hst).
  destruct (foldl _ _ names) as [structure stats]. simpl in Hfiles.
  set (st1 := (structure, dict_set rel_root stats st.2)).
  assert (H1 : P st1.1) by exact Hfiles.
  revert H1. generalize st1. clear -IH.
  induction dirs as [| [d sub] dirs IHdirs]; intros st' H'; [exact H' |].
  apply IHdirs. destruct (pruned d); [exact H' | apply IH, H'].
Qed.

Lemma directory_patterns_invariant (P : Structure → Prop) :
  (∀ d s, P s → P (set_patterns (add_directory_pattern d) s)) →
  ∀ dir_stats s, P s → P (_analyze_directory_patterns dir_stats s).
Proof.
  intros Hadd. unfold _analyze_directory_patterns.
  induction dir_stats as [| [dir_path stats] dir_stats IH]; intros s Hs;
    simpl; [exact Hs |].
  apply IH. destruct (String.eqb dir_path ""); [exact Hs | apply Hadd, Hs].
Qed.

Lemma project_invariant (P : Structure → Prop) self read :
  P empty_structure →
  (∀ rel_root st file, P st.1 → P (visit_file self read rel_root st file).1) →
  (∀ d s, P s → P (set_patterns (add_directory_pattern d) s)) →
  ∀ project, P (_analyze_project_structure self read project).
Proof.
  intros H0 Hvisit Hadd project. unfold _analyze_project_structure.
  pose proof (walk_invariant P self read Hvisit project ""
                (empty_structure, []) H0) as Hwalk.
  destruct (walk _ _ _ _ _) as [structure dir_stats].
  apply directory_patterns_invariant; assumption.
Qed.

Lemma keeps_aside_part {A C} (part : _ → C) (m : M A) :
  keeps aside m → ∀ P : C → Prop, preserves (λ s, P (part (aside s))) m.
Proof. intros Hm P s H. rewrite Hm. exact H. Qed.

(** One turn of the loop over files keeps what its steps keep. *)
Lemma visit_file_invariant (P : Structure → Prop) self read rel_root st file :
  (∀ p lang s, P s → P (count_language lang (add_file p s))) →
  (∀ p content s, P s → P (set_code_content p content s)) →
  (∀ s, P s → P (note_directory rel_root s)) →
  (∀ p, preserves P (classify_config read file p)) →
  (∀ content p lang, preserves P (_analyze_file self content p lang)) →
  P st.1 → P (visit_file self read rel_root st file).1.
Proof.
  intros Henter Hcontent Hnote Hconfig Hanalyze Hst.
  unfold visit_file. destruct st as [structure stats].
  destruct (Str.eqb_in _ code_extensions); [| apply Hnote, Hst].
  set (lang := get_language_from_ext self _).
  set (s1 := count_language lang (add_file _ structure)).
  set (body := bind _ _).
  assert (Hbody : preserves P body).
  { subst body. apply preserves_bind; [apply preserves_lift | intros content].
    apply preserves_bind; [| intros _; apply Hanalyze].
    apply preserves_modify. apply Hcontent. }
  specialize (Hbody s1 (Henter _ _ _ Hst)).
  destruct (body s1) as [[[] | e] s2]; simpl in Hbody; [| exact Hbody].
  specialize (Hconfig (Path.join rel_root file) s2 Hbody).
  destruct (classify_config _ _ _ s2) as [[[] | e] s3]; simpl in *;
    [apply Hnote |]; exact Hconfig.
Qed.

Lemma note_directory_findings rel_root s :
  findings (note_directory rel_root s) = findings s.
Proof. unfold note_directory. destruct (String.eqb _ _); reflexivity. Qed.

Lemma classify_config_findings read file rel_path :
  keeps findings (classify_config read file rel_path).
Proof. unfold classify_config. keeps_writes. Qed.

Lemma visit_file_findings (Q : _ → Prop) self read rel_root st file :
  (∀ content rel_path language,
     preserves (λ s, Q (findings s))
               (_analyze_file self content rel_path language)) →
  Q (findings st.1) →
  Q (findings (visit_file self read rel_root st file).1).
Proof.
  intros Hanalyze.
  apply (visit_file_invariant (λ s, Q (findings s)));
    [intros p lang s Hs; exact Hs | intros p content s Hs; exact Hs
    | intros s Hs; rewrite note_directory_findings; exact Hs
    | | exact Hanalyze].
  intros p. apply (keeps_preserves findings Q).
  apply classify_config_findings.
Qed.

Lemma project_findings (Q : _ → Prop) self read :
  Q (findings empty_structure) →
  (∀ content rel_path language,
     preserves (λ s, Q (findings s))
               (_analyze_file self content rel_path language)) →
  ∀ project, Q (findings (_analyze_project_structure self read project)).
Proof.
  intros H0 Hanalyze.
  apply (project_invariant (λ s, Q (findings s))); [exact H0 | |].
  - intros rel_root st file. apply visit_file_findings, Hanalyze.
  - intros d s Hs. exact Hs.
Qed.

(** ** The kinds of records *)

Lemma patterns_append_each Pc Pf Po key info :
  (key = "class_patterns" → Pc info) →
  (key = "function_patterns" → Pf info) →
  (key = "code_organization" → Po info) →
  preserves (each_record Pc Pf Po) (patterns_append key info).
Proof.
  intros Hc Hf Ho s (Hcs & Hfs & Hos). unfold patterns_append.
  destruct (String.eqb_spec key "class_patterns") as [Hk |].
  { repeat split; try assumption. simpl. apply Forall_app. auto. }
  destruct (String.eqb_spec key "function_patterns") as [Hk |].
  { repeat split; try assumption. simpl. apply Forall_app. auto. }
  destruct (String.eqb_spec key "code_organization") as [Hk |].
  { repeat split; try assumption. simpl. apply Forall_app. auto. }
  destruct (String.eqb key "configurations"); repeat split; assumption.
Qed.

Lemma project_each_record Pc Pf Po self read :
  (∀ content rel_path language,
     preserves (each_record Pc Pf Po)
               (_analyze_file self content rel_path language)) →
  ∀ project,
    each_record Pc Pf Po (_analyze_project_structure self read project).
Proof.
  intros Hanalyze project.
  apply (project_findings
           (λ fd, Forall Pc fd.1.1.2 ∧ Forall Pf fd.1.2 ∧ Forall Po fd.2)).
  - repeat split; constructor.
  - exact Hanalyze.
Qed.

(** The writes that do not touch the three lists of records. *)
Ltac each_other :=
  try (apply preserves_modify; intros ? ?; assumption).

(** A group that every match binds, on a span that is not empty. *)
Lemma group_bound (f : Re.flags) (r : Re.regex) (i : nat) (content : string)
    (m : Re.Match) :
  groups_consume [i] 0 r = true → binds [i] 0 r = true → i ≠ 0 →
  m ∈ Re.finditer (Re.Compiled r f) content →
  ∃ c s, Re.group_text m i = Some (String c s).
Proof.
  intros Hconsume Hbinds Hi0. revert m.
  apply finditer_forall. intros adv cu m Hcu Hat.
  pose proof (match_at_bound f (Str.chars content) [i]
                (Re.Compiled r f) adv cu m Hconsume Hbinds eq_refl Hcu Hat)
    as (j & a & b & Hj & Hcap & Hab & Hb).
  destruct (match_at_origin _ _ _ _ _ Hat) as [Hre Hstring].
  unfold among in Hj. cbn [existsb] in Hj.
  apply orb_prop in Hj as [Hj | Hj]; [| discriminate].
  apply Nat.eqb_eq in Hj. subst j.
  unfold Re.group_text. destruct i as [| i]; [done |].
  rewrite Hcap, Hstring.
  pose proof (slice_nonempty (Str.chars content) a b Hab Hb) as Hne.
  destruct (Str.slice _ a b) as [| c s]; [done | eauto].
Qed.

Lemma group_whole (m : Re.Match) (s : Structure) :
  group m 0 s
  = (Ok (Some (Str.slice (Re.m_string m) (Re.m_start m) (Re.m_end m))), s).
Proof. reflexivity. Qed.

Ltac kind_append :=
  apply patterns_append_each;
  intros Hk; first
    [ discriminate Hk
    | split; [eexists; reflexivity |];
      eexists; (split; [reflexivity |]); set_solver
    | eexists; (split; [reflexivity |]); set_solver ].

Ltac whole_match_block :=
  apply preserves_bind; [apply preserves_rule | intros ?];
  apply preserves_for_each; intros ?;
  eapply preserves_bind_value; [apply group_whole |];
  preserves_steps; kind_append.

Lemma scan_types_kinds self content rel_path language :
  preserves of_kinds (scan_types self content rel_path language).
Proof.
  unfold scan_types. simpl for_each. unfold scan_type, record_match.
  simpl String.eqb. cbv iota.
  preserves_steps; simpl; each_other; kind_append.
Qed.

Lemma web_kinds f lang_of content rel_path :
  preserves of_kinds
    (_analyze_web_patterns (generator f lang_of) content rel_path).
Proof.
  unfold _analyze_web_patterns.
  apply preserves_bind; [| intros _].
  { apply (preserves_bind_value _ _ (Re.Compiled Patterns.common_interface f));
      [intros ?; reflexivity |].
    apply preserves_for_each_in. intros m Hm.
    destruct (group_bound f Patterns.common_interface 1 content m
                eq_refl eq_refl ltac:(done) Hm) as (c & n & Hname).
    apply finditer_re in Hm.
    apply (preserves_bind_value _ _ (Re.group_text m 1));
      [apply (group_value m 1 _ Hm); reflexivity |].
    rewrite Hname. preserves_steps. kind_append. }
  apply preserves_bind; [| intros _].
  { apply preserves_bind; [apply preserves_rule | intros p].
    apply preserves_for_each. intros m.
    apply preserves_bind; [apply preserves_group | intros [name |]];
      [| apply preserves_raise].
    preserves_steps. kind_append. }
  apply preserves_bind; [whole_match_block | intros _].
  apply preserves_bind; [apply preserves_when | intros _].
  - apply preserves_bind; [whole_match_block | intros _].
    apply preserves_bind; [| intros _; preserves_steps; kind_append].
    apply (preserves_bind_value _ _ (Re.Compiled Patterns.next_page f));
      [intros ?; reflexivity |].
    destruct (Re.search _ rel_path) as [page_match |] eqn:E;
      [| apply preserves_ret].
    apply search_re in E. intros s Hs. unfold bind.
    rewrite (route_lookup_raises f page_match E). exact Hs.
  - preserves_steps; kind_append.
Qed.

Lemma unity_kinds self content rel_path :
  preserves of_kinds (_analyze_unity_patterns self content rel_path).
Proof.
  unfold _analyze_unity_patterns.
  apply preserves_bind; [whole_match_block | intros _].
  apply preserves_bind; [whole_match_block | intros _].
  apply preserves_bind; [preserves_steps; kind_append | intros _].
  apply preserves_bind; [whole_match_block | intros _].
  preserves_steps; kind_append.
Qed.

Lemma project_of_kinds f lang_of read project :
  of_kinds (_analyze_project_structure (generator f lang_of) read project).
Proof.
  apply project_each_record.
  intros content rel_path language. unfold _analyze_file.
  apply preserves_bind; [apply scan_types_kinds | intros _].
  apply preserves_bind; [| intros _]; apply preserves_when.
  - apply web_kinds.
  - apply unity_kinds.
Qed.

(** X3: after the traversal of any project over the compiled catalog,
    whatever the flags, every record of the class list has a name that is a
    string and one of the types class, interface/type, react_component,
    unity_component, unity_type; every record of the function list has a
    name that is a string and one of the types function, react_hook,
    next_data_fetching, unity_lifecycle; every record of the
    code-organization list has one of the types next_layout,
    styled_component, unity_attribute, unity_event, unity_field. *)
Theorem records_are_of_known_kinds
    (f : Re.flags) (lang_of : string → string)
    (read : string → result string) (project : Tree) :
    let s := _analyze_project_structure (generator f lang_of) read project in
    (∀ r, r ∈ class_patterns (patterns s) →
          (∃ name, dict_get "name" r = Some (Some name))
          ∧ ∃ t, dict_get "type" r = Some (Some t) ∧ t ∈ class_types)
    ∧ (∀ r, r ∈ function_patterns (patterns s) →
            (∃ name, dict_get "name" r = Some (Some name))
            ∧ ∃ t, dict_get "type" r = Some (Some t) ∧ t ∈ function_types)
    ∧ (∀ r, r ∈ code_organization (patterns s) →
            ∃ t, dict_get "type" r = Some (Some t)
                 ∧ t ∈ organization_types).
Proof.
  intros s.
  destruct (project_of_kinds f lang_of read project) as (Hc & Hf & Ho).
  rewrite !Forall_forall in *. auto.
Qed.

Ltac capitalised_append :=
  apply patterns_append_each;
  intros Hk; first [discriminate Hk | exact I
                   | intros Ht; simpl in Ht; discriminate Ht].

(** A group of a match in a text of the ASCII range is of that range. *)
Lemma group_text_ascii (p : Re.Pattern) (content : string) (m : Re.Match)
    (i : nat) (t : string) :
  ascii_text content = true → m ∈ Re.finditer p content →
  Re.group_text m i = Some t → ascii_text t = true.
Proof.
  intros Hcontent Hm.
  assert (Hstring : Re.m_string m = Str.chars content).
  { revert m Hm. apply finditer_forall. intros adv cu m _ H.
    apply (match_at_origin _ _ _ _ _ H). }
  assert (Hslice : ∀ a b,
            ascii_text (Str.slice (Str.chars content) a b) = true).
  { intros a b. unfold ascii_text, Str.slice in *.
    rewrite chars_of_chars. rewrite forallb_forall in *.
    intros c Hc. apply Hcontent.
    apply list_elem_of_In. apply list_elem_of_In in Hc.
    apply (subseteq_drop a), (subseteq_take (b - a)). exact Hc. }
  unfold Re.group_text. rewrite Hstring.
  destruct i as [| i]; [intros [= <-]; apply Hslice |].
  destruct (Re.find_cap _ _) as [[a b] |]; [| discriminate].
  intros [= <-]. apply Hslice.
Qed.

Lemma preserves_group_value (P : Structure → Prop) (m : Re.Match) (i : nat)
    (k : option string → M unit) :
  (∀ v, Re.group m i = Some v → preserves P (k v)) →
  preserves P (bind (group m i) k).
Proof.
  intros Hk s Hs. unfold bind, group, or_raise.
  destruct (Re.group m i) as [v |]; [apply (Hk v eq_refl), Hs | exact Hs].
Qed.

Lemma analyze_file_capitalised self content rel_path language :
  ascii_text content = true →
  preserves (each_record capitalised any_record any_record)
            (_analyze_file self content rel_path language).
Proof.
  intros Hcontent. unfold _analyze_file.
  apply preserves_bind; [| intros _].
  { unfold scan_types. simpl for_each. unfold scan_type, record_match.
    simpl String.eqb. cbv iota.
    preserves_steps; simpl; each_other; capitalised_append. }
  apply preserves_bind; [| intros _]; apply preserves_when.
  - unfold _analyze_web_patterns.
    apply preserves_bind;
      [preserves_steps; capitalised_append | intros _].
    apply preserves_bind; [| intros _; preserves_steps; capitalised_append].
    apply preserves_bind; [apply preserves_rule | intros p].
    apply preserves_for_each_in. intros m Hm.
    apply preserves_group_value. intros [name |] Hgroup;
      [| apply preserves_raise].
    assert (Hname : ascii_text name = true).
    { unfold Re.group in Hgroup.
      destruct (1 <=? _)%nat; [| discriminate].
      injection Hgroup as Hgroup.
      exact (group_text_ascii p content m 1 name Hcontent Hm Hgroup). }
    destruct name as [| c rest]; [apply preserves_raise |].
    change (Str.chars (String c rest)) with (c :: Str.chars rest).
    cbv iota. destruct (Chr.is_upper c) eqn:Hc; [| apply preserves_ret].
    apply patterns_append_each; [| intros _; exact I ..].
    intros _ _. exists c, rest. split; [reflexivity |].
    split; [exact Hc | exact Hname].
  - unfold _analyze_unity_patterns. preserves_steps; capitalised_append.
Qed.

(** One turn of the loop over files keeps what its steps keep, the analysis
    being that of a content the file system gave. *)
Lemma visit_file_invariant_read (P : Structure → Prop) self read rel_root st
    file :
  (∀ p lang s, P s → P (count_language lang (add_file p s))) →
  (∀ p content s, P s → P (set_code_content p content s)) →
  (∀ s, P s → P (note_directory rel_root s)) →
  (∀ p, preserves P (classify_config read file p)) →
  (∀ content p lang,
     read p = Ok content →
     preserves P (_analyze_file self content p lang)) →
  P st.1 → P (visit_file self read rel_root st file).1.
Proof.
  intros Henter Hcontent Hnote Hconfig Hanalyze Hst.
  unfold visit_file. destruct st as [structure stats].
  destruct (Str.eqb_in _ code_extensions); [| apply Hnote, Hst].
  set (lang := get_language_from_ext self _).
  set (s1 := count_language lang (add_file _ structure)).
  set (body := bind _ _).
  assert (Hbody : P (body s1).2).
  { subst body. unfold bind at 1. unfold lift.
    destruct (read (Path.join rel_root file)) as [content | e] eqn:Hread;
      [| apply Henter, Hst].
    apply preserves_bind; [| intros _; apply (Hanalyze _ _ _ Hread) |].
    - apply preserves_modify. apply Hcontent.
    - apply Henter, Hst. }
  destruct (body s1) as [[[] | e] s2]; simpl in Hbody; [| exact Hbody].
  specialize (Hconfig (Path.join rel_root file) s2 Hbody).
  destruct (classify_config _ _ _ s2) as [[[] | e] s3]; simpl in *;
    [apply Hnote |]; exact Hconfig.
Qed.

(** X4: after the traversal of a project whose files hold text of the
    ASCII range, whatever the catalog, the name of every react_component
    record is of that range and begins with an upper-case letter of A..Z.
    The test the web analysis makes on the first character is what ensures
    it when the catalog is compiled ignoring case: the component rule then
    matches the tag div, capturing div, and the analysis of that text
    writes nothing. *)
Theorem react_components_capitalised
    (self : Self) (read : string → result string) (project : Tree) :
    (∀ p content, read p = Ok content → ascii_text content = true) →
    (∀ r, r ∈ class_patterns
                (patterns (_analyze_project_structure self read project)) →
          dict_get "type" r = Some (Some "react_component") →
          ∃ c rest, dict_get "name" r = Some (Some (String c rest))
                    ∧ Chr.is_upper c = true
                    ∧ ascii_text (String c rest) = true)
    ∧ (∀ lang_of s,
         (λ m, Re.group_text m 1) <$>
           Re.finditer (Re.Compiled Patterns.jsx_component
                                    (Re.Flags false false true)) "<div>"
         = [Some "div"]
         ∧ _analyze_web_patterns
             (generator (Re.Flags false false true) lang_of) "<div>"
             "src/a.tsx" s
           = (Ok tt, s)).
Proof.
  intros Hread. split.
  - assert (Hall : each_record capitalised any_record any_record
                     (_analyze_project_structure self read project)).
    { apply (project_invariant
               (each_record capitalised any_record any_record)).
      - repeat split; constructor.
      - intros rel_root st file.
        apply visit_file_invariant_read;
          [ intros p lang s Hs; exact Hs
          | intros p content s Hs; exact Hs
          | intros s Hs; unfold note_directory;
            destruct (String.eqb _ _); exact Hs
          | intros p;
            apply (keeps_preserves findings
                     (λ fd, Forall capitalised fd.1.1.2
                            ∧ Forall any_record fd.1.2
                            ∧ Forall any_record fd.2)),
                  classify_config_findings
          | intros content p lang Hp;
            apply analyze_file_capitalised, (Hread p content Hp) ].
      - intros d s Hs. exact Hs. }
    destruct Hall as (Hc & _ & _).
    rewrite Forall_forall in Hc. exact Hc.
  - intros lang_of s. split; [vm_compute; reflexivity |].
    destruct s as [? ? ? ? ? ? []]. vm_compute. reflexivity.
Qed.

Lemma react_components_capitalised_witness :
  let self := generator Re.no_flags tsx_language in
  let s := _analyze_project_structure self (λ _, Ok "<App>")
             (Dir ["App.tsx"] []) in
  ascii_text "<App>" = true
  ∧ class_patterns (patterns s)
    = [ [ ("name", Some "App"); ("type", Some "react_component");
          ("file", Some "App.tsx") ] ]
  ∧ ∃ c rest, String c rest = "App" ∧ Chr.is_upper c = true.
Proof.
  intros self s.
  assert (Hs : class_patterns (patterns s)
               = [ [ ("name", Some "App"); ("type", Some "react_component");
                     ("file", Some "App.tsx") ] ])
    by (vm_compute; reflexivity).
  split; [reflexivity |]. split; [exact Hs |].
  assert (Hread : ∀ p content,
            (λ _ : string, Ok "<App>") p = Ok content →
            ascii_text content = true)
    by (intros p content [= <-]; reflexivity).
  destruct (proj1 (react_components_capitalised self (λ _, Ok "<App>")
                     (Dir ["App.tsx"] []) Hread)
              [ ("name", Some "App"); ("type", Some "react_component");
                ("file", Some "App.tsx") ])
    as (c & rest & Hname & Hc & _).
  - fold s. rewrite Hs. left.
  - reflexivity.
  - injection Hname as <-. eauto.
Defined.

Lemma capture_nonempty groups key v :
  capture groups key = Some v → v ≠ "".
Proof.
  unfold capture. destruct (dict_get key groups) as [[s |] |];
    try discriminate.
  simpl. destruct (String.eqb_spec s ""); simpl; [discriminate |].
  intros [= <-]. assumption.
Qed.

Lemma record_match_tidy pattern_type rel_path m :
  pattern_type ∈ ["class"; "function"] →
  preserves (each_record tidy tidy any_record)
            (record_match pattern_type rel_path m).
Proof.
  intros Htype. unfold record_match.
  assert (Hne : String.eqb pattern_type "import" = false)
    by (repeat (apply elem_of_cons in Htype as [-> | Htype]);
        [reflexivity .. | inversion Htype]).
  rewrite Hne.
  destruct (first_capture wants_name _) as [name |]; [| apply preserves_ret].
  assert (Htidy : tidy
    ([("name", Some name); ("file", Some rel_path);
      ("type", Some pattern_type)]
     ++ match capture (Re.groupdict m) "params" with
        | Some v => [("parameters", Some v)]
        | None => []
        end
     ++ match capture (Re.groupdict m) "base" with
        | Some v => [("base", Some (Str.strip v))]
        | None => []
        end
     ++ match capture (Re.groupdict m) "return" with
        | Some v => [("return_type", Some (Str.strip v))]
        | None => []
        end)).
  { destruct (capture _ "params") as [ps |] eqn:Eps;
      [apply capture_nonempty in Eps |];
      destruct (capture _ "base") as [b |];
      destruct (capture _ "return") as [t |];
      repeat split; simpl; intros v [= <-]; eexists;
        (split; [reflexivity |]); try exact Eps; apply strip_idempotent. }
  apply patterns_append_each; intros _; first [exact Htidy | exact I].
Qed.

Ltac tidy_append :=
  apply patterns_append_each;
  intros Hk; first
    [ discriminate Hk | exact I
    | repeat split; simpl; intros ? [=] ].

Lemma analyze_file_tidy self content rel_path language :
  preserves (each_record tidy tidy any_record)
            (_analyze_file self content rel_path language).
Proof.
  unfold _analyze_file.
  apply preserves_bind; [| intros _].
  { unfold scan_types. simpl for_each.
    apply preserves_bind; [| intros _].
    - unfold scan_type, record_match. simpl String.eqb. cbv iota.
      preserves_steps; each_other.
    - apply preserves_bind; [| intros _; apply preserves_bind;
                                          [| intros _; apply preserves_ret]].
      + unfold scan_type. preserves_steps.
        apply record_match_tidy. set_solver.
      + unfold scan_type. preserves_steps.
        apply record_match_tidy. set_solver. }
  apply preserves_bind; [| intros _]; apply preserves_when.
  - unfold _analyze_web_patterns. preserves_steps; tidy_append.
  - unfold _analyze_unity_patterns. preserves_steps; tidy_append.
Qed.

(** X5: after the traversal of any project, whatever the catalog, in every
    record of the class and function lists the parameters, when the key is
    there, are a string that is not empty, and the base and the return
    type, when there, are strings without white space at either end.  A
    base can be the empty string: the class header [class A( ):] is
    recorded with one, the blank between the parentheses being what is
    captured and then stripped. *)
Theorem optional_fields_are_tidy
    (self : Self) (read : string → result string) (project : Tree) :
    let s := _analyze_project_structure self read project in
    (∀ r, r ∈ class_patterns (patterns s) ++ function_patterns (patterns s) →
          (∀ v, dict_get "parameters" r = Some v → ∃ p, v = Some p ∧ p ≠ "")
          ∧ (∀ v, dict_get "base" r = Some v
                  → ∃ b, v = Some b ∧ Str.strip b = b)
          ∧ (∀ v, dict_get "return_type" r = Some v
                  → ∃ t, v = Some t ∧ Str.strip t = t))
    ∧ (∀ f lang_of rel_path s0,
         _analyze_file (generator f lang_of) "class A( ): pass" rel_path
           "python" s0
         = (Ok tt,
            set_patterns
              (add_class_pattern
                 [ ("name", Some "A"); ("file", Some rel_path);
                   ("type", Some "class"); ("base", Some "") ]) s0)).
Proof.
  intros s. split.
  - pose proof (project_each_record tidy tidy any_record self read
                  (analyze_file_tidy self) project) as (Hc & Hf & _).
    fold s in Hc, Hf. rewrite Forall_forall in Hc, Hf.
    intros r [Hr | Hr]%elem_of_app; [apply (Hc r Hr) | apply (Hf r Hr)].
  - intros f lang_of rel_path s0. destruct s0 as [? ? ? ? ? ? []].
    destruct f as [[] [] []]; vm_compute; reflexivity.
Qed.

(** ** Records, contents and files *)

Lemma patterns_append_filing read key info p :
  dict_get "file" info = Some (Some p) →
  preserves (filing read p) (patterns_append key info).
Proof.
  intros Hfile s [[Hrec Hcont] Hp]. unfold patterns_append.
  assert (Hnew : ∀ r, r ∈ records s ∨ r = info →
            ∃ p0, dict_get "file" r = Some (Some p0)
                  ∧ is_Some (code_contents s !! p0)).
  { intros r [Hr | ->]; [apply Hrec, Hr | eauto]. }
  repeat match goal with
         | |- context [String.eqb key ?k] => destruct (String.eqb key k)
         end.
  5: split; [split |]; assumption.
  all: split; [split; [| exact Hcont] | exact Hp].
  all: intros r Hr; apply Hnew; revert Hr; unfold records; simpl;
       rewrite !elem_of_app, ?list_elem_of_singleton; tauto.
Qed.

Ltac filing_steps :=
  preserves_steps;
  try (apply patterns_append_filing; reflexivity);
  try (apply preserves_modify; intros ? ?; assumption).

Lemma analyze_file_filing read self content rel_path language :
  preserves (filing read rel_path)
            (_analyze_file self content rel_path language).
Proof.
  unfold _analyze_file.
  apply preserves_bind; [| intros _].
  { unfold scan_types. simpl for_each. unfold scan_type, record_match.
    filing_steps; simpl; filing_steps. }
  apply preserves_bind; [| intros _]; apply preserves_when.
  - unfold _analyze_web_patterns. filing_steps.
  - unfold _analyze_unity_patterns. filing_steps.
Qed.

Lemma note_directory_filed read rel_root s :
  well_filed read s → well_filed read (note_directory rel_root s).
Proof.
  unfold note_directory. destruct (String.eqb _ _); intros H; exact H.
Qed.

Lemma visit_file_filed self read rel_root st file :
  well_filed read st.1 →
  well_filed read (visit_file self read rel_root st file).1.
Proof.
  intros Hst. unfold visit_file. destruct st as [structure stats].
  simpl in Hst.
  destruct (Str.eqb_in _ code_extensions);
    [| apply note_directory_filed, Hst].
  set (rel_path := Path.join rel_root file).
  set (lang := get_language_from_ext self _).
  set (s1 := count_language lang (add_file rel_path structure)).
  assert (H1 : well_filed read s1 ∧ rel_path ∈ files s1).
  { destruct Hst as [Hrec Hcont]. split; [split |].
    - exact Hrec.
    - intros p content Hp. destruct (Hcont p content Hp) as [Hin Hread].
      split; [| exact Hread]. subst s1. simpl. apply elem_of_app. left.
      exact Hin.
    - subst s1. simpl. apply elem_of_app. right. left. }
  destruct H1 as [H1 Hin].
  unfold bind at 1, lift.
  destruct (read rel_path) as [content | e] eqn:Hread; [| exact H1].
  unfold bind at 1, modify.
  assert (H2 : filing read rel_path (set_code_content rel_path content s1)).
  { destruct H1 as [Hrec Hcont]. split; [split |].
    - intros r Hr. destruct (Hrec r Hr) as (p & Hfile & Hp).
      exists p. split; [exact Hfile |]. simpl.
      apply lookup_insert_is_Some. destruct (decide (rel_path = p)); auto.
    - intros p c. simpl.
      intros [[-> ->] | [_ Hp]]%lookup_insert_Some;
        [split; assumption | apply Hcont, Hp].
    - simpl. rewrite lookup_insert_eq. eauto. }
  apply (analyze_file_filing read self content rel_path lang) in H2.
  destruct (_analyze_file _ _ _ _ _) as [[[] | e] s2]; simpl in H2;
    [| exact (proj1 H2)].
  destruct H2 as [H2 _].
  assert (H3 : preserves (well_filed read)
                 (classify_config read file rel_path)).
  { unfold classify_config. preserves_steps.
    - apply preserves_modify. intros s H. exact H.
    - apply preserves_modify. intros s H. exact H. }
  specialize (H3 s2 H2).
  destruct (classify_config _ _ _ s2) as [[[] | e] s3]; simpl in H3;
    [apply note_directory_filed |]; exact H3.
Qed.

Lemma project_well_filed self read project :
  well_filed read (_analyze_project_structure self read project).
Proof.
  apply (project_invariant (well_filed read)).
  - split; [intros r Hr; inversion Hr |].
    intros p content Hp. simpl in Hp. rewrite lookup_empty in Hp.
    discriminate.
  - intros rel_root st file. apply visit_file_filed.
  - intros d s Hs. exact Hs.
Qed.

(** X6: after the traversal of any project, whatever the catalog, every
    record of the class, function and code-organization lists names, under
    file, a path whose content is kept in code_contents; and every path of
    code_contents is listed in files, with the content that reading it
    gives. *)
Theorem records_name_read_files
    (self : Self) (read : string → result string) (project : Tree) :
    let s := _analyze_project_structure self read project in
    (∀ r, r ∈ records s →
          ∃ p content, dict_get "file" r = Some (Some p)
               ∧ code_contents s !! p = Some content)
    ∧ (∀ p content, code_contents s !! p = Some content →
                    p ∈ files s ∧ read p = Ok content).
Proof.
  intros s. destruct (project_well_filed self read project) as [Hrec Hcont].
  split; [| exact Hcont].
  intros r Hr. destruct (Hrec r Hr) as (p & Hfile & content & Hp).
  eauto.
Qed.

(** ** Imports and dependencies *)

Lemma record_import_matches module :
  module ≠ "" →
  preserves imports_match
    (modify (set_dependency module) >>
     modify (set_patterns (add_import module))).
Proof.
  intros Hne s [Hdeps Hempty]. unfold imports_match. simpl. split.
  - intros m b. rewrite elem_of_app, list_elem_of_singleton.
    destruct (decide (module = m)) as [-> | Hm].
    + rewrite lookup_insert_eq. split; [intros [= <-]; auto |].
      intros [-> _]. reflexivity.
    + rewrite lookup_insert_ne by exact Hm. rewrite Hdeps.
      split; [intros [-> H]; auto |].
      intros [-> [H | ->]]; [auto | contradiction].
  - rewrite elem_of_app, list_elem_of_singleton.
    intros [H | H]; [contradiction | congruence].
Qed.

Lemma keeps_imports_match {A} (m : M A) :
  keeps (λ s, (dependencies s, imports (patterns s))) m →
  preserves imports_match m.
Proof.
  intros Hm.
  apply (keeps_preserves (λ s, (dependencies s, imports (patterns s)))
           (λ d, (∀ m b, d.1 !! m = Some b ↔ b = true ∧ m ∈ d.2)
                 ∧ "" ∉ d.2)).
  exact Hm.
Qed.

Lemma analyze_file_imports_match self content rel_path language :
  preserves imports_match (_analyze_file self content rel_path language).
Proof.
  unfold _analyze_file.
  apply preserves_bind; [| intros _].
  { unfold scan_types. simpl for_each.
    apply preserves_bind; [| intros _].
    - unfold scan_type.
      apply preserves_bind; [apply preserves_rule | intros p].
      apply preserves_for_each. intros m. apply preserves_try_pass.
      unfold record_match. simpl String.eqb. cbv iota.
      destruct (first_capture wants_module _) as [module |] eqn:E;
        [| apply preserves_ret].
      apply record_import_matches.
      apply first_capture_first in E as (? & ? & ? & _ & _ & Hne & _).
      exact Hne.
    - apply keeps_imports_match. unfold scan_type, record_match.
      simpl String.eqb. cbv iota. keeps_steps; simpl; keeps_writes. }
  apply keeps_imports_match.
  apply keeps_bind; [| intros _]; apply keeps_when.
  - unfold _analyze_web_patterns. keeps_writes.
  - unfold _analyze_unity_patterns. keeps_writes.
Qed.

(** X7: after the traversal of any project, whatever the catalog, the keys
    of dependencies are exactly the elements of the imports list, each with
    the value true, and no import is the empty string. *)
Theorem dependencies_are_the_imports
    (self : Self) (read : string → result string) (project : Tree) :
    let s := _analyze_project_structure self read project in
    (∀ m b, dependencies s !! m = Some b
            ↔ b = true ∧ m ∈ imports (patterns s))
    ∧ "" ∉ imports (patterns s).
Proof.
  apply (project_findings
           (λ fd, (∀ m b, fd.1.1.1.1 !! m = Some b
                          ↔ b = true ∧ m ∈ fd.1.1.1.2)
                  ∧ "" ∉ fd.1.1.1.2)).
  - simpl. split; [| intros H; inversion H].
    intros m b. rewrite lookup_empty. split; [discriminate |].
    intros [_ H]. inversion H.
  - intros content rel_path language.
    apply (analyze_file_imports_match self content rel_path language).
Qed.

(** ** The files and the counters *)

Lemma total_count_up k d : total (count_up k d) = S (total d).
Proof.
  unfold total, count_up.
  assert (Hcomm : ∀ (m : gmap string nat) (j1 j2 : string) (z1 z2 y : nat),
            j1 ≠ j2 → m !! j1 = Some z1 → m !! j2 = Some z2 →
            z1 + (z2 + y) = z2 + (z1 + y)) by (intros; lia).
  destruct (d !! k) as [n |] eqn:E; simpl.
  - rewrite <- insert_delete_eq.
    rewrite map_fold_insert_L; [| apply Hcomm | apply lookup_delete_eq].
    rewrite (map_fold_delete_L _ _ k n d); [lia | apply Hcomm | exact E].
  - rewrite map_fold_insert_L; [lia | apply Hcomm | exact E].
Qed.

Lemma note_directory_registered rel_root s :
  registered (note_directory rel_root s) = registered s.
Proof. unfold note_directory. destruct (String.eqb _ _); reflexivity. Qed.

Lemma analyze_file_keeps_registered self content rel_path language :
  keeps registered (_analyze_file self content rel_path language).
Proof.
  unfold _analyze_file.
  apply keeps_bind; [| intros _].
  { unfold scan_types. simpl for_each. unfold scan_type, record_match.
    keeps_steps; simpl; keeps_writes. }
  apply keeps_bind; [| intros _]; apply keeps_when.
  - unfold _analyze_web_patterns. keeps_writes.
  - unfold _analyze_unity_patterns. keeps_writes.
Qed.

Lemma visit_file_registers self read rel_root st file :
  let out := visit_file self read rel_root st file in
  let lang := get_language_from_ext self (file_ext file) in
  (if is_code_file file
   then registered out.1
        = (files st.1 ++ [Path.join rel_root file],
           count_up lang (languages st.1))
        ∧ out.2 = count_code lang (count_total st.2)
   else registered out.1 = registered st.1 ∧ out.2 = count_total st.2).
Proof.
  intros out lang. subst out lang. unfold visit_file.
  destruct st as [structure stats].
  fold (file_ext file). fold (is_code_file file).
  destruct (is_code_file file) eqn:Hcode;
    [| split; [apply note_directory_registered | reflexivity]].
  set (lang := get_language_from_ext self (file_ext file)).
  set (s1 := count_language lang (add_file _ structure)).
  set (body := bind _ _).
  assert (Hbody : keeps registered body).
  { subst body. apply keeps_bind; [apply keeps_lift | intros content].
    apply keeps_bind; [intros s; reflexivity | intros _].
    apply analyze_file_keeps_registered. }
  specialize (Hbody s1).
  destruct (body s1) as [[[] | e] s2]; simpl in Hbody;
    [| split; [exact Hbody | reflexivity]].
  assert (Hc : keeps registered
                 (classify_config read file (Path.join rel_root file)))
    by (unfold classify_config; keeps_writes).
  specialize (Hc s2).
  destruct (classify_config _ _ _ s2) as [[[] | e] s3]; simpl in *.
  - rewrite note_directory_registered, Hc. split; [exact Hbody | reflexivity].
  - rewrite Hc. split; [exact Hbody | reflexivity].
Qed.

Lemma visit_files_register self read rel_root names : ∀ st,
  let out := foldl (visit_file self read rel_root) st names in
  files out.1
  = files st.1 ++ (Path.join rel_root <$> List.filter is_code_file names)
  ∧ total (languages out.1)
    = total (languages st.1) + length (List.filter is_code_file names)
  ∧ total_files out.2 = total_files st.2 + length names
  ∧ code_files out.2
    = code_files st.2 + length (List.filter is_code_file names)
  ∧ total (dir_languages out.2)
    = total (dir_languages st.2) + length (List.filter is_code_file names)
  ∧ dir_patterns out.2 = dir_patterns st.2.
Proof.
  induction names as [| file names IH]; intros st; simpl.
  - rewrite app_nil_r. repeat split; lia.
  - specialize (IH (visit_file self read rel_root st file)).
    simpl in IH. destruct IH as (Hf & Hl & Ht & Hc & Hd & Hp).
    pose proof (visit_file_registers self read rel_root st file) as Hv.
    simpl in Hv.
    destruct (is_code_file file); destruct Hv as [Hreg Hstats].
    + injection Hreg as Hfiles Hlangs.
      rewrite Hf, Hl, Ht, Hc, Hd, Hp, Hfiles, Hlangs, Hstats. simpl.
      rewrite !total_count_up, <- app_assoc. simpl.
      repeat split; lia.
    + injection Hreg as Hfiles Hlangs.
      rewrite Hf, Hl, Ht, Hc, Hd, Hp, Hfiles, Hlangs, Hstats. simpl.
      repeat split; lia.
Qed.

Lemma walk_lists self read : ∀ t rel_root st,
  let out := walk self read rel_root t st in
  files out.1 = files st.1 ++ listing rel_root t
  ∧ total (languages out.1)
    = total (languages st.1) + length (listing rel_root t).
Proof.
  fix IH 1. intros [names dirs] rel_root st. simpl.
  pose proof (visit_files_register self read rel_root names
                (st.1, fresh_stats)) as (Hf & Hl & _).
  destruct (foldl _ _ names) as [structure stats]. simpl in Hf, Hl.
  set (st1 := (structure, dict_set rel_root stats st.2)).
  rewrite length_app, length_fmap, app_assoc, Nat.add_assoc, <- Hf, <- Hl.
  change structure with st1.1.
  generalize st1. clear -IH.
  induction dirs as [| [d sub] dirs IHdirs]; intros st'; simpl.
  - rewrite app_nil_r. split; [reflexivity | lia].
  - destruct (IHdirs (if pruned d then st'
                      else walk self read (Path.join rel_root d) sub st'))
      as [Hf Hl].
    rewrite Hf, Hl, length_app. destruct (pruned d); simpl.
    + split; [reflexivity | lia].
    + destruct (IH sub (Path.join rel_root d) st') as [Hf' Hl'].
      rewrite Hf', Hl', <- app_assoc. split; [reflexivity | lia].
Qed.

(** X8: after the traversal of any project, files is the list of the files
    that have a code extension, by relative path and in the order of the
    walk, the pruned directories left out, whether or not a file could be
    read or its analysis raised; and the language counters of the project
    add up to the length of files. *)
Theorem files_are_the_code_files
    (self : Self) (read : string → result string) (project : Tree) :
    let s := _analyze_project_structure self read project in
    files s = listing "" project
    ∧ total (languages s) = length (files s).
Proof.
  intros s. subst s. unfold _analyze_project_structure.
  pose proof (walk_lists self read project "" (empty_structure, []))
    as [Hf Hl].
  destruct (walk _ _ _ _ _) as [structure dir_stats]. simpl in Hf, Hl.
  assert (Hkeep : registered (_analyze_directory_patterns dir_stats structure)
                  = registered structure).
  { apply (directory_patterns_invariant
             (λ s, registered s = registered structure));
      [intros d s Hs; exact Hs | reflexivity]. }
  injection Hkeep as -> ->. rewrite Hf, Hl. split; [reflexivity |].
  unfold total at 1. rewrite map_fold_empty. reflexivity.
Qed.

(** X9: after the loop over the files of a directory, started with fresh
    statistics: total_files is the number of files, code_files the number
    of those with a code extension, the language counters of the directory
    add up to code_files, the counters under patterns are still 0, and
    files has grown by code_files paths. *)
Theorem directory_counters
    (self : Self) (read : string → result string)
    (rel_root : string) (names : list string) (s : Structure) :
    let out := foldl (visit_file self read rel_root) (s, fresh_stats) names in
    total_files out.2 = length names
    ∧ code_files out.2 = length (List.filter is_code_file names)
    ∧ total (dir_languages out.2) = code_files out.2
    ∧ dir_patterns out.2
      = {| m_classes := 0; m_functions := 0; m_imports := 0 |}
    ∧ length (files out.1) = length (files s) + code_files out.2.
Proof.
  intros out.
  pose proof (visit_files_register self read rel_root names (s, fresh_stats))
    as (Hf & _ & Ht & Hc & Hd & Hp).
  fold out in Hf, Ht, Hc, Hd, Hp. simpl in *.
  rewrite Hf, Ht, Hc, Hd, Hp, length_app, length_fmap.
  unfold total. rewrite map_fold_empty. repeat split; lia.
Qed.

Lemma code_file_not_config file :
  is_code_file file = true → is_config_file file = false.
Proof.
  intros Hcode. destruct (is_config_file file) eqn:Hconfig; [| reflexivity].
  apply config_file_not_code in Hconfig. congruence.
Qed.

Lemma visit_file_reads self read1 read2 rel_root st file :
  (is_code_file file = true →
   read1 (Path.join rel_root file) = read2 (Path.join rel_root file)) →
  visit_file self read1 rel_root st file
  = visit_file self read2 rel_root st file.
Proof.
  intros Hread. unfold visit_file. destruct st as [structure stats].
  fold (file_ext file). fold (is_code_file file).
  destruct (is_code_file file) eqn:Hcode; [| reflexivity].
  rewrite (Hread eq_refl). unfold classify_config.
  fold (is_config_file file). rewrite (code_file_not_config file Hcode).
  reflexivity.
Qed.

Lemma visit_files_read self read1 read2 rel_root names : ∀ st,
  (∀ file, file ∈ List.filter is_code_file names →
           read1 (Path.join rel_root file) = read2 (Path.join rel_root file)) →
  foldl (visit_file self read1 rel_root) st names
  = foldl (visit_file self read2 rel_root) st names.
Proof.
  induction names as [| file names IH]; intros st Hread; [reflexivity |].
  simpl. rewrite (visit_file_reads self read1 read2).
  - apply IH. intros f Hf. apply Hread. simpl.
    destruct (is_code_file file); [right |]; exact Hf.
  - intros Hcode. apply Hread. simpl. rewrite Hcode. left.
Qed.

Lemma walk_reads self read1 read2 : ∀ t rel_root st,
  (∀ p, p ∈ listing rel_root t → read1 p = read2 p) →
  walk self read1 rel_root t st = walk self read2 rel_root t st.
Proof.
  fix IH 1. intros [names dirs] rel_root st Hread. simpl in *.
  rewrite (visit_files_read self read1 read2 rel_root names).
  2: { intros file Hfile. apply Hread. apply elem_of_app. left.
       apply list_elem_of_fmap_2. exact Hfile. }
  destruct (foldl _ _ names) as [structure stats].
  assert (Hdirs : ∀ p, p ∈ flat_map
                    (λ '(d, sub), if pruned d then []
                                  else listing (Path.join rel_root d) sub)
                    dirs → read1 p = read2 p).
  { intros p Hp. apply Hread. apply elem_of_app. right. exact Hp. }
  generalize (structure, dict_set rel_root stats st.2).
  clear -IH Hdirs.
  induction dirs as [| [d sub] dirs IHdirs]; intros st'; [reflexivity |].
  simpl in Hdirs.
  assert (Hsub : (if pruned d then st'
                  else walk self read1 (Path.join rel_root d) sub st')
                 = (if pruned d then st'
                    else walk self read2 (Path.join rel_root d) sub st')).
  { destruct (pruned d); [reflexivity |].
    apply IH. intros p Hp. apply Hdirs. apply elem_of_app. left. exact Hp. }
  rewrite Hsub. apply IHdirs.
  intros p Hp. apply Hdirs. apply elem_of_app. right. exact Hp.
Qed.

Lemma listing_sources : ∀ t rel_root p,
  p ∈ listing rel_root t → p ∈ source_listing rel_root t.
Proof.
  fix IH 1. intros [names dirs] rel_root p. simpl.
  intros [Hp | Hp]%elem_of_app; apply elem_of_app; [left | right].
  - apply list_elem_of_fmap in Hp as (file & -> & Hfile).
    apply list_elem_of_fmap_2.
    apply list_elem_of_In, filter_In in Hfile as [Hin Hcode].
    apply list_elem_of_In, filter_In. split; [exact Hin |].
    unfold is_source_file. rewrite Hcode. reflexivity.
  - clear -IH Hp. induction dirs as [| [d sub] dirs IHdirs];
      [exact Hp |].
    simpl in *. apply elem_of_app in Hp as [Hp | Hp]; apply elem_of_app;
      [left | right; apply IHdirs; exact Hp].
    destruct (pruned d); [exact Hp | apply IH; exact Hp].
Qed.

(** X10: the traversal opens no file but those with a code extension and
    those that end like a configuration file, in the directories it
    enters: two file systems that give the same for every such path give
    the same structure, whatever they give for the other files. *)
Theorem traversal_reads_only_sources
    (self : Self) (read1 read2 : string → result string) (project : Tree) :
    (∀ p, p ∈ source_listing "" project → read1 p = read2 p) →
    _analyze_project_structure self read1 project
    = _analyze_project_structure self read2 project.
Proof.
  intros Hread. unfold _analyze_project_structure.
  rewrite (walk_reads self read1 read2 project "" (empty_structure, []));
    [reflexivity |].
  intros p Hp. apply Hread, listing_sources, Hp.
Qed.

Lemma traversal_reads_only_sources_witness :
  source_listing "" (Dir ["a.py"; "settings.json"; "README.md"] [])
  = ["a.py"; "settings.json"]
  ∧ _analyze_project_structure (generator Re.no_flags extension_language)
      (λ p, if String.eqb p "README.md" then Ok "# Notes"
            else Ok "import os")
      (Dir ["a.py"; "settings.json"; "README.md"] [])
    = _analyze_project_structure (generator Re.no_flags extension_language)
        (λ p, if String.eqb p "README.md"
              then Raise (OSError "Permission denied")
              else Ok "import os")
        (Dir ["a.py"; "settings.json"; "README.md"] []).
Proof.
  split; [reflexivity |].
  apply traversal_reads_only_sources.
  intros p Hp. change (p ∈ ["a.py"; "settings.json"]) in Hp.
  apply elem_of_cons in Hp as [-> | Hp]; [reflexivity |].
  apply list_elem_of_singleton in Hp as ->. reflexivity.
Defined.

(** ** Directories *)

(** X11: a directory whose name holds one of node_modules, venv, .git,
    __pycache__, build, dist is not entered: the walk of its parent gives
    what it gives without this directory, whatever it holds.  The test is
    one of substrings: .github and rebuild are skipped as well. *)
Theorem pruned_directories_are_skipped
    (self : Self) (read : string → result string)
    (rel_root : string) (names : list string)
    (before after : list (string * Tree)) (d : string) (sub : Tree)
    (st : Structure * list (string * DirStats)) :
    pruned d = true →
    walk self read rel_root (Dir names (before ++ (d, sub) :: after)) st
    = walk self read rel_root (Dir names (before ++ after)) st.
Proof.
  intros Hd. simpl.
  destruct (foldl _ _ names) as [structure stats].
  generalize (structure, dict_set rel_root stats st.2).
  induction before as [| [d' sub'] before IH]; intros st'; simpl.
  - rewrite Hd. reflexivity.
  - apply IH.
Qed.

Lemma pruned_directories_are_skipped_witness :
  pruned ".github" = true
  ∧ pruned "rebuild" = true
  ∧ walk (generator Re.no_flags extension_language) (λ _, Ok "import os")
      "" (Dir ["a.py"] [(".github", Dir ["ci.py"] [])]) (empty_structure, [])
    = walk (generator Re.no_flags extension_language) (λ _, Ok "import os")
        "" (Dir ["a.py"] []) (empty_structure, []).
Proof.
  split; [reflexivity |]. split; [reflexivity |].
  exact (pruned_directories_are_skipped
           (generator Re.no_flags extension_language)
           (λ _, Ok "import os") "" ["a.py"] [] [] ".github"
           (Dir ["ci.py"] []) (empty_structure, []) eq_refl).
Defined.

Lemma directory_patterns_entries ds : ∀ s,
  directory_patterns (patterns (_analyze_directory_patterns ds s))
  = directory_patterns (patterns s)
    ++ (directory_entry <$> List.filter below_root ds).
Proof.
  unfold _analyze_directory_patterns.
  induction ds as [| [dir_path stats] ds IH]; intros s; simpl;
    [rewrite app_nil_r; reflexivity |].
  rewrite IH. unfold below_root at 2. simpl.
  destruct (String.eqb dir_path ""); simpl; [reflexivity |].
  rewrite <- app_assoc. reflexivity.
Qed.

(** X12: _analyze_directory_patterns appends to directory_patterns one
    entry for each key of dir_stats other than the root, in the order of
    dir_stats, with the counters of the directory, and changes nothing
    else in the structure; analyze_directory_patterns of analyzers.py
    gives the same structure. *)
Theorem one_pattern_per_directory
    (dir_stats : list (string * DirStats)) (s : Structure) :
    let s' := _analyze_directory_patterns dir_stats s in
    directory_patterns (patterns s')
    = directory_patterns (patterns s)
      ++ (directory_entry <$> List.filter below_root dir_stats)
    ∧ s' = set_patterns
             (λ p, foldl (λ p d, add_directory_pattern d p) p
                     (directory_entry <$> List.filter below_root dir_stats))
             s
    ∧ Analyzers.analyze_directory_patterns dir_stats s = s'.
Proof.
  intros s'. split; [apply directory_patterns_entries |].
  split; [| reflexivity].
  subst s'. unfold _analyze_directory_patterns. revert s.
  induction dir_stats as [| [dir_path stats] ds IH]; intros s; simpl.
  - destruct s as [? ? ? ? ? ? []]; reflexivity.
  - rewrite IH. unfold below_root at 2. simpl.
    destruct (String.eqb dir_path ""); reflexivity.
Qed.

Lemma dict_set_keys {A} (k : string) (v : A) (d : list (string * A)) :
  ∀ x, x ∈ d.*1 ∨ x = k → x ∈ (dict_set k v d).*1.
Proof.
  induction d as [| [k' v'] d IH]; intros x; simpl.
  - intros [H | ->]; [inversion H | left].
  - destruct (String.eqb_spec k' k) as [-> |]; simpl.
    + rewrite !elem_of_cons. tauto.
    + rewrite !elem_of_cons. intros [[-> | H] | ->]; auto.
Qed.

Lemma noted_mono keys keys' s :
  (∀ x, x ∈ keys → x ∈ keys') → noted keys s → noted keys' s.
Proof.
  intros Hsub H d v Hd. destruct (H d v Hd) as (? & ? & ?). auto.
Qed.

Lemma note_directory_noted rel_root keys s :
  noted (rel_root :: keys) s → noted (rel_root :: keys) (note_directory rel_root s).
Proof.
  intros H. unfold note_directory.
  destruct (String.eqb_spec rel_root "") as [| Hne]; [exact H |].
  intros d v. simpl.
  intros [[<- <-] | [_ Hd]]%lookup_insert_Some; [| apply H, Hd].
  repeat split; [exact Hne | left].
Qed.

Lemma classify_config_keeps_places read file rel_path :
  keeps (λ s, (directory_structure s, directory_patterns (patterns s)))
        (classify_config read file rel_path).
Proof. unfold classify_config. keeps_writes. Qed.

Lemma visit_file_noted self read rel_root keys st file :
  noted (rel_root :: keys) st.1 →
  noted (rel_root :: keys) (visit_file self read rel_root st file).1.
Proof.
  apply visit_file_invariant.
  - intros p lang s Hs. exact Hs.
  - intros p content s Hs. exact Hs.
  - intros s. apply note_directory_noted.
  - intros p.
    apply (keeps_preserves
             (λ s, (directory_structure s, directory_patterns (patterns s)))
             (λ d, ∀ k v, d.1 !! k = Some v
                          → k ≠ "" ∧ v = parent_of k
                            ∧ k ∈ rel_root :: keys)).
    apply classify_config_keeps_places.
  - intros content p lang.
    apply (keeps_aside_part
             (λ a, a.1.1.2) _
             (analyze_file_keeps_aside self content p lang)
             (λ d, ∀ k v, d !! k = Some v
                          → k ≠ "" ∧ v = parent_of k
                            ∧ k ∈ rel_root :: keys)).
Qed.

Lemma visit_file_keeps_directory_patterns self read rel_root st file :
  directory_patterns (patterns st.1) = [] →
  directory_patterns (patterns (visit_file self read rel_root st file).1)
  = [].
Proof.
  apply (visit_file_invariant
           (λ s, directory_patterns (patterns s) = [])).
  - intros p lang s Hs. exact Hs.
  - intros p content s Hs. exact Hs.
  - intros s Hs. unfold note_directory.
    destruct (String.eqb _ _); exact Hs.
  - intros p.
    apply (keeps_preserves
             (λ s, (directory_structure s, directory_patterns (patterns s)))
             (λ d, d.2 = [])).
    apply classify_config_keeps_places.
  - intros content p lang.
    apply (keeps_aside_part
             (λ a, a.2) _
             (analyze_file_keeps_aside self content p lang)
             (λ d, d = [])).
Qed.

Lemma walk_noted self read : ∀ t rel_root st,
  noted st.2.*1 st.1 →
  let out := walk self read rel_root t st in
  noted out.2.*1 out.1.
Proof.
  fix IH 1. intros [names dirs] rel_root st Hst. simpl.
  assert (Hfiles : ∀ names st0, noted (rel_root :: st.2.*1) st0.1 →
            noted (rel_root :: st.2.*1)
                  (foldl (visit_file self read rel_root) st0 names).1).
  { clear. induction names as [| file names IHf]; intros st0 H0;
      simpl; [exact H0 |]. apply IHf, visit_file_noted, H0. }
  specialize (Hfiles names (st.1, fresh_stats)).
  destruct (foldl _ _ names) as [structure stats]. simpl in Hfiles.
  set (st1 := (structure, dict_set rel_root stats st.2)).
  assert (H1 : noted st1.2.*1 st1.1).
  { subst st1. simpl. eapply noted_mono; [| apply Hfiles].
    - intros x Hx. apply dict_set_keys.
      apply elem_of_cons in Hx as [-> | Hx]; auto.
    - eapply noted_mono; [| exact Hst]. intros x Hx. right. exact Hx. }
  revert H1. generalize st1. clear -IH.
  induction dirs as [| [d sub] dirs IHdirs]; intros st' H'; [exact H' |].
  apply IHdirs. destruct (pruned d); [exact H' | apply IH, H'].
Qed.

Lemma entries_paths (ds : list (string * DirStats)) :
  dp_path <$> (directory_entry <$> List.filter below_root ds)
  = List.filter (λ k, negb (String.eqb k "")) ds.*1.
Proof.
  induction ds as [| [k v] ds IH]; [reflexivity |].
  rewrite fmap_cons. cbn [List.filter]. unfold below_root at 1. cbn [fst].
  destruct (String.eqb k ""); cbn [negb]; [exact IH |].
  rewrite !fmap_cons, IH. reflexivity.
Qed.

(** X13: after the traversal of any project, every key of
    directory_structure is a directory other than the root, mapped to its
    parent (None for a directory of the root), and has an entry in
    directory_patterns; the root has no entry in directory_patterns.  The
    converse fails: the directory docs of a project made of this one empty
    directory has an entry in directory_patterns and none in
    directory_structure, which is only written while a file of the
    directory is visited. *)
Theorem noted_directories_have_patterns
    (self : Self) (read : string → result string) (project : Tree) :
    let s := _analyze_project_structure self read project in
    (∀ d v, directory_structure s !! d = Some v →
            d ≠ "" ∧ v = parent_of d
            ∧ d ∈ (dp_path <$> directory_patterns (patterns s)))
    ∧ ("" ∉ (dp_path <$> directory_patterns (patterns s)))
    ∧ (let s0 := _analyze_project_structure self read
                   (Dir [] [("docs", Dir [] [])]) in
       directory_structure s0 = ∅
       ∧ (dp_path <$> directory_patterns (patterns s0)) = ["docs"]).
Proof.
  intros s. subst s. unfold _analyze_project_structure.
  pose proof (walk_noted self read project "" (empty_structure, [])) as Hwalk.
  destruct (walk _ _ _ _ _) as [structure dir_stats] eqn:Ewalk.
  simpl in Hwalk.
  assert (Hds : directory_structure
                  (_analyze_directory_patterns dir_stats structure)
                = directory_structure structure).
  { apply (directory_patterns_invariant
             (λ s, directory_structure s = directory_structure structure));
      [intros d s Hs; exact Hs | reflexivity]. }
  assert (Hold : directory_patterns (patterns structure) = []).
  { change structure with (structure, dir_stats).1. rewrite <- Ewalk.
    apply (walk_invariant (λ s, directory_patterns (patterns s) = []));
      [| reflexivity].
    intros rel_root st file.
    apply visit_file_keeps_directory_patterns. }
  rewrite Hds, directory_patterns_entries, fmap_app, entries_paths, Hold.
  simpl.
  split; [| split].
  - intros d v Hd.
    destruct Hwalk with (d := d) (v := v) as (Hne & Hv & Hin);
      [intros d' v' H'; simpl in H'; rewrite lookup_empty in H';
       discriminate | exact Hd |].
    split; [exact Hne |]. split; [exact Hv |].
    apply list_elem_of_In, filter_In.
    split; [apply list_elem_of_In, Hin |].
    destruct (String.eqb_spec d ""); [contradiction | reflexivity].
  - intros Hin%list_elem_of_In%filter_In.
    destruct Hin as [_ Hin]. discriminate.
  - split; reflexivity.
Qed.

(** X14: the purposes of a directory do not depend on the case of the
    letters of its name; they come in the order testing, utilities,
    domain, business_logic, presentation, each at most once; the copy of
    analyzers.py computes the same. *)
Theorem purpose_ignores_case (dir_name : string) :
    purpose (Str.lower dir_name) = purpose dir_name
    ∧ sublist (purpose dir_name) purpose_tags
    ∧ Analyzers.purpose dir_name = purpose dir_name.
Proof.
  split; [| split; [| reflexivity]].
  - unfold purpose. rewrite str_lower_idempotent. reflexivity.
  - unfold purpose, purpose_tags.
    repeat match goal with
           | |- context [if ?b then _ else _] => destruct b
           end; simpl;
      repeat first [apply sublist_nil_l | apply sublist_skip
                   | apply sublist_cons].
Qed.

(** ** The detection of functions by analyze_file_content *)

Section Detect.
Variable IGNORED_KEYWORDS : list string.
Variable re_compile : string → Re.flags → result Re.Pattern.

Lemma collect_appends matches : ∀ functions,
  Analyzers.collect IGNORED_KEYWORDS matches functions
  = functions ++ Analyzers.collect IGNORED_KEYWORDS matches [].
Proof.
  unfold Analyzers.collect.
  induction matches as [| m matches IH]; intros functions; simpl;
    [rewrite app_nil_r; reflexivity |].
  rewrite IH. symmetry. rewrite IH. symmetry.
  destruct (Analyzers.first_group m) as [name |]; [| reflexivity].
  destruct (_ || _); [reflexivity |].
  rewrite <- app_assoc. reflexivity.
Qed.

Lemma try_patterns_append content patterns : ∀ functions,
  foldl (Analyzers.try_pattern IGNORED_KEYWORDS re_compile content)
        functions patterns
  = functions
    ++ Analyzers.detect IGNORED_KEYWORDS re_compile patterns content.
Proof.
  unfold Analyzers.detect.
  induction patterns as [| [name pattern] patterns IH]; intros functions;
    simpl; [rewrite app_nil_r; reflexivity |].
  rewrite IH. symmetry. rewrite IH. symmetry.
  destruct (re_compile _ _) as [p | e]; [| reflexivity].
  rewrite collect_appends, <- app_assoc.
  rewrite (collect_appends _ []). reflexivity.
Qed.

(** X15: what the loop over the function patterns reports is the
    concatenation, in the order of the patterns, of what each pattern
    reports alone: a name two patterns match is reported twice.  The name
    given to a pattern plays no part, and every description reads
    Function detected. *)
Theorem detect_reports_per_pattern
    (patterns1 patterns2 : list (string * string)) (content : string) :
    let detect := Analyzers.detect IGNORED_KEYWORDS re_compile in
    detect (patterns1 ++ patterns2) content
    = detect patterns1 content ++ detect patterns2 content
    ∧ (∀ name pattern,
         detect ((name, pattern) :: patterns2) content
         = detect [("", pattern)] content ++ detect patterns2 content)
    ∧ (∀ entry, entry ∈ detect patterns1 content →
                entry.2 = "Function detected").
Proof.
  intros detect. subst detect. split; [| split].
  - unfold Analyzers.detect at 1. rewrite foldl_app.
    rewrite try_patterns_append. reflexivity.
  - intros name pattern.
    change ((name, pattern) :: patterns2)
      with ([(name, pattern)] ++ patterns2).
    unfold Analyzers.detect at 1. rewrite foldl_app.
    rewrite try_patterns_append. reflexivity.
  - unfold Analyzers.detect.
    assert (H : ∀ ps acc,
              Forall (λ e : string * string, e.2 = "Function detected") acc →
              Forall (λ e : string * string, e.2 = "Function detected")
                (foldl (Analyzers.try_pattern IGNORED_KEYWORDS re_compile
                          content) acc ps)).
    { induction ps as [| [n p] ps IH]; intros acc Hacc; simpl;
        [exact Hacc |].
      apply IH. destruct (re_compile _ _) as [q | e]; [| exact Hacc].
      unfold Analyzers.collect. generalize (Re.finditer q content).
      intros ms. revert acc Hacc.
      induction ms as [| m ms IHm]; intros acc Hacc; simpl; [exact Hacc |].
      apply IHm. destruct (Analyzers.first_group m); [| exact Hacc].
      destruct (_ || _); [exact Hacc |].
      apply Forall_app. split; [exact Hacc |]. repeat constructor. }
    intros entry Hin. specialize (H patterns1 [] (Forall_nil_2 _)).
    rewrite Forall_forall in H. apply H, Hin.
Qed.

End Detect.

(** ** The project description *)











Section DescriptionFacts.
Variable send_message : string → result string.


End DescriptionFacts.

(** ** The retrying wrapper *)

Section RetryFacts.
Context {A E : Type}.
Variable str : E → string.
Variables max_retries delay : nat.
Variable func : nat → A + E.




End RetryFacts.

(** ** The copy of the generator *)


Lemma copy_language_cases ext :
  GeneratorCopy._get_language_from_ext ext
  ∈ "Unknown" :: GeneratorCopy.lang_map.*2.
Proof.
  unfold GeneratorCopy._get_language_from_ext, GeneratorCopy.lang_map.
  cbn [dict_get].
  repeat match goal with
         | |- context [String.eqb ?a ?b] => destruct (String.eqb a b)
         end; cbn [default fmap list_fmap snd]; set_solver.
Qed.

Lemma copy_is_a_generator :
  GeneratorCopy.self
  = generator Re.no_flags GeneratorCopy._get_language_from_ext.
Proof. vm_compute. reflexivity. Qed.

Lemma copy_language_plain ext :
  let language := GeneratorCopy._get_language_from_ext ext in
  pattern_group language = "system"
  ∧ is_web language = false
  ∧ String.eqb language "csharp" = false.
Proof.
  intros language. subst language.
  pose proof (copy_language_cases ext) as H.
  repeat (apply elem_of_cons in H as [-> | H]);
    [repeat split; reflexivity .. | inversion H].
Qed.

(** X19: the copy compiles the catalog without flags, and its table of
    languages answers names such as Python or C#, none of which the
    analysis of a file knows: whatever the extension, the file is scanned
    with the import, class and function rules of the system family, the
    web and Unity analyses are not run, and the analysis returns.  So the
    analysis of the C# text of a MonoBehaviour adds the class and function
    records and no Unity record. *)
Theorem copy_scans_with_system_rules (ext content rel_path : string)
    (s : Structure) :
    let language := GeneratorCopy._get_language_from_ext ext in
    GeneratorCopy._compile_patterns Patterns.PATTERNS
    = compile_catalog Re.no_flags Patterns.PATTERNS
    ∧ pattern_group language = "system"
    ∧ _analyze_file GeneratorCopy.self content rel_path language s
      = for_each ["import"; "class"; "function"]
          (scan_type GeneratorCopy.self content rel_path "system") s
    ∧ (_analyze_file GeneratorCopy.self content rel_path language s).1
      = Ok tt
    ∧ _analyze_file GeneratorCopy.self player_cs rel_path
        (GeneratorCopy._get_language_from_ext ".cs") s
      = (Ok tt,
         set_patterns
           (λ p, add_function_pattern
                   [ ("name", Some "Update"); ("file", Some rel_path);
                     ("type", Some "function") ]
                (add_class_pattern
                   [ ("name", Some "Player"); ("file", Some rel_path);
                     ("type", Some "class");
                     ("base", Some "MonoBehaviour") ] p)) s).
Proof.
  intros language.
  destruct (copy_language_plain ext) as (Hgroup & Hweb & Hcs).
  fold language in Hgroup, Hweb, Hcs.
  split; [vm_compute; reflexivity |]. split; [exact Hgroup |].
  assert (Hscan : _analyze_file GeneratorCopy.self content rel_path language s
                  = for_each ["import"; "class"; "function"]
                      (scan_type GeneratorCopy.self content rel_path "system")
                      s).
  { unfold _analyze_file, scan_types. fold (is_web language).
    rewrite Hgroup, Hweb, Hcs. simpl andb. unfold when. unfold bind at 1.
    destruct (for_each _ _ s) as [[[] | e] s']; reflexivity. }
  split; [exact Hscan |]. split.
  - rewrite copy_is_a_generator.
    destruct (scan_types_returns Re.no_flags
                GeneratorCopy._get_language_from_ext content rel_path
                language s) as [[] Hr].
    unfold _analyze_file, bind. fold (is_web language).
    rewrite Hweb, Hcs. simpl andb. unfold when.
    destruct (scan_types _ _ _ _ s) as [[[] | e] s']; simpl in *;
      [reflexivity | discriminate].
  - destruct s as [? ? ? ? ? ? []]. vm_compute. reflexivity.
Qed.

Section CopyFacts.
Variable excluded : string → bool.
Variable read : string → result string.



Lemma filter_filter_and {A} (p q : A → bool) l :
  List.filter q (List.filter p l) = List.filter (λ x, p x && q x) l.
Proof.
  induction l as [| x l IH]; [reflexivity |]. simpl.
  destruct (p x); simpl; [destruct (q x) |]; rewrite IH; reflexivity.
Qed.



End CopyFacts.

Lemma copy_visit_file_reads read1 read2 rel_root st file :
  (is_source_file file = true →
   read1 (Path.join rel_root file) = read2 (Path.join rel_root file)) →
  GeneratorCopy.visit_file read1 rel_root st file
  = GeneratorCopy.visit_file read2 rel_root st file.
Proof.
  intros Hread. unfold GeneratorCopy.visit_file.
  destruct st as [structure stats].
  fold (file_ext file). fold (is_code_file file). fold (is_config_file file).
  unfold is_source_file in Hread.
  destruct (is_code_file file); [rewrite (Hread eq_refl); reflexivity |].
  destruct (is_config_file file); [| reflexivity].
  rewrite (Hread eq_refl). reflexivity.
Qed.

Lemma copy_visit_files_read read1 read2 rel_root names : ∀ st,
  (∀ file, file ∈ List.filter is_source_file names →
           read1 (Path.join rel_root file) = read2 (Path.join rel_root file)) →
  foldl (GeneratorCopy.visit_file read1 rel_root) st names
  = foldl (GeneratorCopy.visit_file read2 rel_root) st names.
Proof.
  induction names as [| file names IH]; intros st Hread; [reflexivity |].
  simpl. rewrite (copy_visit_file_reads read1 read2).
  - apply IH. intros f Hf. apply Hread. simpl.
    destruct (is_source_file file); [right |]; exact Hf.
  - intros Hsource. apply Hread. simpl. rewrite Hsource. left.
Qed.

Lemma copy_walk_reads excluded read1 read2 : ∀ t rel_root st,
  (∀ p, p ∈ kept_listing excluded rel_root t → read1 p = read2 p) →
  GeneratorCopy.walk excluded read1 rel_root t st
  = GeneratorCopy.walk excluded read2 rel_root t st.
Proof.
  fix IH 1. intros [names dirs] rel_root st Hread. simpl in *.
  rewrite (copy_visit_files_read read1 read2 rel_root).
  2: { intros file Hfile. apply Hread. apply elem_of_app. left.
       apply list_elem_of_fmap_2. rewrite filter_filter_and in Hfile.
       exact Hfile. }
  destruct (foldl _ _ _) as [structure stats].
  assert (Hdirs : ∀ p, p ∈ flat_map
                    (λ '(d, sub),
                       if excluded (Path.join rel_root d) then []
                       else kept_listing excluded (Path.join rel_root d) sub)
                    dirs → read1 p = read2 p).
  { intros p Hp. apply Hread. apply elem_of_app. right. exact Hp. }
  generalize (note_directory rel_root structure,
              dict_set rel_root stats st.2).
  clear -IH Hdirs.
  induction dirs as [| [d sub] dirs IHdirs]; intros st'; [reflexivity |].
  simpl in Hdirs.
  assert (Hsub : (if excluded (Path.join rel_root d) then st'
                  else GeneratorCopy.walk excluded read1
                         (Path.join rel_root d) sub st')
                 = (if excluded (Path.join rel_root d) then st'
                    else GeneratorCopy.walk excluded read2
                           (Path.join rel_root d) sub st')).
  { destruct (excluded (Path.join rel_root d)); [reflexivity |].
    apply IH. intros p Hp. apply Hdirs. apply elem_of_app. left. exact Hp. }
  rewrite Hsub. apply IHdirs.
  intros p Hp. apply Hdirs. apply elem_of_app. right. exact Hp.
Qed.

(** X21: the traversal of the copy opens the files it keeps that have a
    code extension or end like a configuration file, and no other: two
    file systems that give the same for every such path give the same
    structure.  A configuration file is among them: the copy reads
    settings.json, and lists it without an entry when it cannot be
    read. *)
Theorem copy_reads_only_kept_sources
    (excluded : string → bool) (read1 read2 : string → result string)
    (project : Tree) :
    (∀ p, p ∈ kept_listing excluded "" project → read1 p = read2 p) →
    GeneratorCopy._analyze_project_structure excluded read1 project
    = GeneratorCopy._analyze_project_structure excluded read2 project.
Proof.
  intros Hread. unfold GeneratorCopy._analyze_project_structure.
  rewrite (copy_walk_reads excluded read1 read2 project ""
             (empty_structure, []) Hread).
  reflexivity.
Qed.

Lemma copy_reads_only_kept_sources_witness :
  let project := Dir ["a.py"; "settings.json"; "README.md"; "old.py"] [] in
  let excluded := λ p, String.eqb p "old.py" in
  let read1 := λ p, if Str.eqb_in p ["README.md"; "old.py"] then Ok "x = 1"
                    else Ok "import os" in
  let read2 := λ p, if Str.eqb_in p ["README.md"; "old.py"]
                    then Raise (OSError "Permission denied")
                    else Ok "import os" in
  kept_listing excluded "" project = ["a.py"; "settings.json"]
  ∧ GeneratorCopy._analyze_project_structure excluded read1 project
    = GeneratorCopy._analyze_project_structure excluded read2 project
  ∧ configurations
      (patterns
         (GeneratorCopy._analyze_project_structure excluded read1 project))
    = [ [ ("file", Some "settings.json"); ("content", Some "import os") ] ].
Proof.
  intros project excluded read1 read2.
  split; [reflexivity |]. split; [| vm_compute; reflexivity].
  apply copy_reads_only_kept_sources.
  intros p Hp. change (p ∈ ["a.py"; "settings.json"]) in Hp.
  apply elem_of_cons in Hp as [-> | Hp]; [reflexivity |].
  apply list_elem_of_singleton in Hp as ->. reflexivity.
Defined.

(** ** The reports of the traversal *)

Section Reports.
Variable print : string → result unit.
Variable str : exn → string.
Variable self : Self.
Variable read : string → result string.

Lemma reported_visit_file rel_root st file :
  (∀ text, ∃ u, print text = Ok u) →
  Reporting.visit_file print str self read rel_root st file
  = Ok (visit_file self read rel_root st file).
Proof.
  intros Hprint.
  unfold Reporting.visit_file, visit_file, Reporting.reported.
  destruct st as [structure stats].
  destruct (Str.eqb_in _ code_extensions); [| reflexivity].
  match goal with
  | |- context [bind ?m ?k ?s0] => destruct (bind m k s0) as [[[] | e] s1]
  end.
  - destruct (classify_config _ _ _ s1) as [[[] | e] s2]; [reflexivity |].
    destruct (Hprint (Reporting.config_report str
                        (Path.join rel_root file) e)) as [u ->].
    reflexivity.
  - destruct (Hprint (Reporting.file_report str
                        (Path.join rel_root file) e)) as [u ->].
    reflexivity.
Qed.

Lemma reported_visit_files rel_root names : ∀ st,
  (∀ text, ∃ u, print text = Ok u) →
  Reporting.visit_files print str self read rel_root st names
  = Ok (foldl (visit_file self read rel_root) st names).
Proof.
  induction names as [| file names IH]; intros st Hprint; [reflexivity |].
  simpl. rewrite reported_visit_file by exact Hprint. apply IH, Hprint.
Qed.

Lemma reported_walk : ∀ t rel_root st,
  (∀ text, ∃ u, print text = Ok u) →
  Reporting.walk print str self read rel_root t st
  = Ok (walk self read rel_root t st).
Proof.
  fix IH 1. intros [names dirs] rel_root st Hprint. simpl.
  rewrite reported_visit_files by exact Hprint.
  destruct (foldl _ _ names) as [structure stats].
  generalize (structure, dict_set rel_root stats st.2). clear -IH Hprint.
  induction dirs as [| [d sub] dirs IHdirs]; intros st1; [reflexivity |].
  destruct (pruned d); [apply IHdirs |].
  rewrite IH by exact Hprint. apply IHdirs.
Qed.

Lemma visit_files_app rel_root names1 names2 : ∀ st,
  Reporting.visit_files print str self read rel_root st (names1 ++ names2)
  = match Reporting.visit_files print str self read rel_root st names1 with
    | Ok st1 =>
        Reporting.visit_files print str self read rel_root st1 names2
    | Raise e => Raise e
    end.
Proof.
  induction names1 as [| file names1 IH]; intros st; [reflexivity |].
  simpl. destruct (Reporting.visit_file _ _ _ _ _ _ _); [apply IH |].
  reflexivity.
Qed.

(** X22: when the report of a code file that cannot be read cannot be
    printed, what the print raises leaves the loop over the files: the
    files after it are not visited, whatever they are, and the traversal
    of the project returns no structure. *)
Theorem unprintable_report_ends_traversal
    (rel_root : string) (before : list string) (file : string)
    (st st1 : Structure * DirStats) (e e' : exn) :
    Reporting.visit_files print str self read rel_root st before = Ok st1 →
    is_code_file file = true →
    read (Path.join rel_root file) = Raise e →
    print (Reporting.file_report str (Path.join rel_root file) e)
    = Raise e' →
    (∀ rest,
       Reporting.visit_files print str self read rel_root st
         (before ++ file :: rest) = Raise e')
    ∧ (rel_root = "" → st = (empty_structure, fresh_stats) →
       ∀ rest dirs,
         Reporting._analyze_project_structure print str self read
           (Dir (before ++ file :: rest) dirs) = Raise e').
Proof.
  intros Hbefore Hcode Hread Hprint.
  assert (Hloop : ∀ rest,
            Reporting.visit_files print str self read rel_root st
              (before ++ file :: rest) = Raise e').
  { intros rest. rewrite visit_files_app, Hbefore. simpl.
    unfold Reporting.visit_file, Reporting.reported.
    destruct st1 as [structure stats].
    unfold is_code_file, file_ext in Hcode. rewrite Hcode.
    unfold bind, lift. rewrite Hread, Hprint. reflexivity. }
  split; [exact Hloop |].
  intros -> -> rest dirs.
  unfold Reporting._analyze_project_structure. simpl.
  rewrite (Hloop rest). reflexivity.
Qed.

(** X23: the reports only decide whether the traversal returns.  When it
    returns, the structure is the one the traversal builds on a standard
    output that takes every report, whatever is printed and however an
    exception is worded; and on a standard output that takes every text
    the traversal returns. *)
Theorem reports_only_decide_return (project : Tree) :
    (∀ s, Reporting._analyze_project_structure print str self read project
          = Ok s →
          s = _analyze_project_structure self read project)
    ∧ ((∀ text, ∃ u, print text = Ok u) →
       Reporting._analyze_project_structure print str self read project
       = Ok (_analyze_project_structure self read project)).
Proof.
  split; [intros s; apply reporting_project |].
  intros Hprint.
  unfold Reporting._analyze_project_structure, _analyze_project_structure.
  rewrite reported_walk by exact Hprint.
  destruct (walk _ _ _ _ _) as [structure dir_stats]. reflexivity.
Qed.

End Reports.

Lemma unprintable_report_ends_traversal_witness :
  let self := generator Re.no_flags extension_language in
  Reporting.visit_files Sample.ascii_print Sample.str self unreadable ""
    (empty_structure, fresh_stats) []
  = Ok (empty_structure, fresh_stats)
  ∧ is_code_file "a.py" = true
  ∧ unreadable (Path.join "" "a.py") = Raise UnicodeDecodeError
  ∧ Sample.ascii_print
      (Reporting.file_report Sample.str (Path.join "" "a.py")
         UnicodeDecodeError)
    = Raise UnicodeEncodeError
  ∧ Reporting._analyze_project_structure Sample.ascii_print Sample.str self
      unreadable (Dir ["a.py"; "b.py"] [("src", Dir ["c.py"] [])])
    = Raise UnicodeEncodeError.
Proof.
  intros self.
  split; [reflexivity |]. split; [reflexivity |]. split; [reflexivity |].
  split; [reflexivity |].
  exact (proj2 (unprintable_report_ends_traversal Sample.ascii_print
                  Sample.str self unreadable "" [] "a.py"
                  (empty_structure, fresh_stats)
                  (empty_structure, fresh_stats)
                  UnicodeDecodeError UnicodeEncodeError
                  eq_refl eq_refl eq_refl eq_refl)
           eq_refl eq_refl ["b.py"] [("src", Dir ["c.py"] [])]).
Defined.
